(** * Campaign recommendation service: ingestion pipeline and retrieval API

    A shallow embedding of
      - [src/utils/config.py]   (module [Config]),
      - [src/db/schemas.py]     (module [Schemas]),
      - [src/utils/db.py]       (module [Db]),
      - [src/pipeline/flow.py]  (module [Flow]),
      - [src/api/main.py]       (module [Api]).

    The five stores (MongoDB, Milvus, Neo4j, SQLite, Redis) are fields of a
    [World]; every Python function that talks to a store is a computation in
    the monad [M], which threads the world, records each store call in a
    trace, keeps the log, and either returns a value or raises an exception.

    Exceptions that the source raises or catches are modelled
    (FileNotFoundError, JSONDecodeError, ValidationError, MilvusException at
    connection time, ConnectionError, any exception of the Redis client,
    HTTPException).  Faults of the other collaborators that the source does
    not handle (a MongoDB or Neo4j outage, a full disk) are outside the model:
    those calls always answer.  Store-generated identifiers (MongoDB's [_id],
    Neo4j's internal ids) are not part of the contents.

    The input file, when it parses, holds a list of JSON objects, as the
    annotation [list[dict]] of [extract_raw_data] says; other JSON values,
    on which the source would raise, and errors of [open] other than
    FileNotFoundError are outside the model.  A SQLite database
    without the table [user_analytics] holds no rows, and a search in a
    Milvus deployment without the collection finds no entity.  The sentence
    encoder, pydantic's coercion to float, Milvus's nearest-neighbour search,
    the iteration order of a Python set and the JSON codec are parameters
    ([Collaborators]); the examples instantiate them with [demo]. *)

From Stdlib Require Import ZArith String List Floats Lia.
From stdpp Require Import base strings list gmap sorting.

Local Open Scope Z_scope.
Set Warnings "-register-all".

(* ------------------------------------------------------------------ *)
(** ** Python helpers *)

(** [sub in s] on Python strings. *)
Fixpoint str_contains (sub s : string) : bool :=
  if String.prefix sub s then true
  else match s with
       | EmptyString => false
       | String _ s' => str_contains sub s'
       end.

(** Truthiness of a Python list and of a Python string. *)
Definition truthy {A} (l : list A) : bool :=
  match l with [] => false | _ :: _ => true end.

Definition str_truthy (s : string) : bool :=
  match s with EmptyString => false | String _ _ => true end.

(* ------------------------------------------------------------------ *)
(** ** src/utils/config.py *)

Module Config.
Definition MILVUS_COLLECTION_NAME : string := "conversations".
Definition EMBEDDING_DIM : Z := 1024.
Definition EMBEDDING_MODEL : string :=
  "sentence-transformers/all-roberta-large-v1".
Definition RECOMMENDATION_CACHE_TTL_SECONDS : Z := 300.
End Config.

(* ------------------------------------------------------------------ *)
(** ** JSON values, as [json.load] and [json.loads] produce them *)

Inductive json : Type :=
| JNull
| JBool (b : bool)
| JInt (n : Z)
| JFloat (x : float)
| JStr (s : string)
| JArr (items : list json)
| JObj (fields : list (string * json)).

(** A raw record of the input file: a Python [dict] with string keys. *)
Abbreviation raw_record := (gmap string json).

(* ------------------------------------------------------------------ *)
(** ** src/db/schemas.py *)

Module Schemas.

(** [class Conversation(BaseModel)]. *)
Record Conversation : Type := {
  message_id : string;
  user_id : string;
  campaign_id : string;
  timestamp : string;
  intent : string;
  message : string;
  embedding : option (list float)
}.

Definition set_embedding (c : Conversation) (e : list float) : Conversation :=
  {| message_id := message_id c; user_id := user_id c;
     campaign_id := campaign_id c; timestamp := timestamp c;
     intent := intent c; message := message c; embedding := Some e |}.

(** A required [str] field: present and a JSON string (pydantic does not
    coerce numbers, booleans or null to [str]). *)
Definition str_field (item : raw_record) (name : string) : option string :=
  match item !! name with
  | Some (JStr s) => Some s
  | _ => None
  end.

Section Validation.
(** pydantic's coercion of one list element to [float]. *)
Variable coerce_float : json -> option float.

(** [embedding: Optional[List[float]] = None]. *)
Definition embedding_field (item : raw_record)
  : option (option (list float)) :=
  match item !! "embedding" with
  | None => Some None
  | Some JNull => Some None
  | Some (JArr xs) =>
      match mapM coerce_float xs with
      | Some fs => Some (Some fs)
      | None => None
      end
  | Some _ => None
  end.

(** The constructor call [Conversation] on the unpacked item: [None]
    stands for [ValidationError].
    Keys that are not fields of the model are ignored. *)
Definition validate (item : raw_record) : option Conversation :=
  mid ← str_field item "message_id";
  uid ← str_field item "user_id";
  cid ← str_field item "campaign_id";
  ts ← str_field item "timestamp";
  int ← str_field item "intent";
  msg ← str_field item "message";
  emb ← embedding_field item;
  Some {| message_id := mid; user_id := uid; campaign_id := cid;
          timestamp := ts; intent := int; message := msg;
          embedding := emb |}.
End Validation.

End Schemas.
Export Schemas.

(* ------------------------------------------------------------------ *)
(** ** Contents of the stores *)

(** A MongoDB document of [marketing_db.conversations]:
    [d.model_dump(exclude={'embedding'})]. *)
Record Document : Type := {
  doc_message_id : string;
  doc_user_id : string;
  doc_campaign_id : string;
  doc_timestamp : string;
  doc_intent : string;
  doc_message : string
}.

Definition model_dump_exclude_embedding (d : Conversation) : Document :=
  {| doc_message_id := message_id d; doc_user_id := user_id d;
     doc_campaign_id := campaign_id d; doc_timestamp := timestamp d;
     doc_intent := intent d; doc_message := message d |}.

(** A row of the Milvus collection: (message_id, user_id, embedding). *)
Record Entity : Type := {
  ent_message_id : string;
  ent_user_id : string;
  ent_embedding : option (list float)
}.

Record Collection : Type := {
  entities : list Entity;
  has_index : bool;
  loaded : bool
}.

(** Nodes and relationships of the Neo4j graph. *)
Inductive node : Type :=
| User (id : string)
| Campaign (id : string)
| Intent (name : string).

Inductive rel_type : Type := PARTICIPATED_IN | EXPRESSED.

Record rel : Type := {
  rel_src : node;
  rel_type_of : rel_type;
  rel_timestamp : string;
  rel_dst : node
}.

Global Instance node_eq_dec : EqDecision node.
Proof. solve_decision. Defined.
Global Instance rel_type_eq_dec : EqDecision rel_type.
Proof. solve_decision. Defined.
Global Instance rel_eq_dec : EqDecision rel.
Proof. solve_decision. Defined.

Record Graph : Type := {
  nodes : list node;
  rels : list rel
}.

(** A row of the SQLite table [user_analytics]. *)
Record AnalyticsRow : Type := {
  row_user_id : string;
  row_campaign_id : string;
  engagement_count : Z
}.

(** The four stores that ingestion populates. *)
Record Stores : Type := {
  mongo : list Document;          (* marketing_db.conversations *)
  milvus : option Collection;     (* [None]: the collection does not exist *)
  neo4j : Graph;
  sqlite : list AnalyticsRow      (* user_analytics *)
}.

(** The input file [data/sample_conversations.json], in the three states
    that [extract_raw_data] provides for: missing, not JSON, or a JSON list
    of objects.  A file that cannot be opened for another reason and JSON
    that is not a list of objects are not modelled. *)
Inductive file_state : Type :=
| FileMissing
| FileNotJson
| FileJson (data : list raw_record).

(** What the next call of [connections.connect] does. *)
Inductive connect_outcome : Type :=
| Connected
| ConnectRaises (msg : string).   (* a MilvusException with this text *)

(* ------------------------------------------------------------------ *)
(** ** Store calls, log lines and exceptions *)

(** One constructor per client call that the source makes. *)
Inductive op : Type :=
(* pymongo, collection [conversations] *)
| MongoDeleteMany                                  (* delete_many({}) *)
| MongoInsertMany (docs : list Document)
| MongoFindOne (uid : string)                      (* find_one({"user_id": uid}) *)
(* pymilvus *)
| MilvusConnect
| MilvusHasCollection
| MilvusDropCollection
| MilvusCreateCollection
| MilvusHasIndex
| MilvusCreateIndex
| MilvusLoad
| MilvusInsert (rows : list Entity)
| MilvusFlush
| MilvusSearch (query : list float) (limit : nat)
(* neo4j *)
| Neo4jDetachDeleteAll                             (* MATCH (n) DETACH DELETE n *)
| Neo4jMerge (uid cid intent_name ts : string)     (* the five MERGE clauses *)
| Neo4jMatchCampaigns (uids : list string)
| Neo4jClose
(* sqlite3, table [user_analytics] *)
| SqliteCreateTableIfNotExists
| SqliteDeleteAll                                  (* DELETE FROM user_analytics *)
| SqliteAppend (rows : list AnalyticsRow)          (* to_sql(if_exists='append') *)
| SqliteCommit
| SqliteClose
| SqliteSelectRanked (cids : list string)
(* redis *)
| RedisGet (key : string)
| RedisSet (key value : string) (ex : Z)
(* time *)
| Sleep (seconds : Z).

Inductive store : Type :=
| DocumentStore | VectorStore | GraphStore | AnalyticsStore | CacheStore.

Global Instance store_eq_dec : EqDecision store.
Proof. solve_decision. Defined.

(** The calls that remove everything a store holds. *)
Definition clears (o : op) : option store :=
  match o with
  | MongoDeleteMany => Some DocumentStore
  | MilvusDropCollection => Some VectorStore
  | Neo4jDetachDeleteAll => Some GraphStore
  | SqliteDeleteAll => Some AnalyticsStore
  | _ => None
  end.

(** The calls that add records to a store. *)
Definition inserts (o : op) : option store :=
  match o with
  | MongoInsertMany _ => Some DocumentStore
  | MilvusInsert _ => Some VectorStore
  | Neo4jMerge _ _ _ _ => Some GraphStore
  | SqliteAppend _ => Some AnalyticsStore
  | RedisSet _ _ _ => Some CacheStore
  | _ => None
  end.

(** The calls that only read. *)
Definition queries (o : op) : option store :=
  match o with
  | MongoFindOne _ => Some DocumentStore
  | MilvusSearch _ _ => Some VectorStore
  | Neo4jMatchCampaigns _ => Some GraphStore
  | SqliteSelectRanked _ => Some AnalyticsStore
  | RedisGet _ => Some CacheStore
  | _ => None
  end.

Inductive level : Type := INFO | WARNING | ERROR.

(** The log lines of the three modules, with the values they interpolate. *)
Inductive message_text : Type :=
(* flow.py *)
| MsgExtracting
| MsgExtracted (n : nat)
| MsgFileNotFound
| MsgJsonDecodeError
| MsgTransforming (n : nat)
| MsgEmptyEmbedding (mid : string)
| MsgInvalidSkipped (mid : option json)
| MsgTransformed (n : nat)
| MsgLoading (n : nat)
| MsgLoadedMongo (n : nat)
| MsgLoadedMilvus (n : nat)
| MsgLoadedNeo4j (n : nat)
| MsgLoadedSqlite (n : nat)
| MsgPipelineStarting
| MsgNoRawData
| MsgNoDataSurvived
| MsgPipelineFinished
(* db.py *)
| MsgMilvusAttempt (i retries : nat)
| MsgMilvusConnected
| MsgMilvusNotReady (text : string)
| MsgMilvusNonRetryable (text : string)
| MsgMilvusGaveUp (retries : nat)
| MsgDroppingCollection
| MsgCollectionDropped
| MsgCreatingCollection
| MsgCreatingIndex
| MsgIndexCreated
| MsgLoadingCollection
| MsgCollectionLoaded
(* main.py *)
| MsgApiStarting
| MsgApiReady
| MsgApiShuttingDown
| MsgCacheHit (uid : string)
| MsgCacheReadFailed
| MsgCacheMiss (uid : string)
| MsgSimilarUsers (uids : list string)
| MsgNoSimilarUsers (uid : string)
| MsgRelatedCampaigns (cids : list string)
| MsgNoCampaigns (uid : string)
| MsgRanked (ranked : list (string * Z))
| MsgCacheWriteFailed.

Definition log_entry : Type := level * message_text.

Inductive exn : Type :=
| FileNotFoundError
| JSONDecodeError
| ValidationError
| MilvusException (text : string)
| ConnectionError (text : string)
| RedisError
| TypeError (text : string)
| HTTPException (status_code : Z) (detail : string).

(* ------------------------------------------------------------------ *)
(** ** The world and the monad *)

Record World : Type := {
  stores : Stores;
  redis : gmap string (string * Z);       (* key -> (value, time to live) *)
  data_file : file_state;
  milvus_connects : list connect_outcome; (* outcomes of the coming connects *)
  redis_get_raises : bool;                (* the Redis client fails on GET *)
  redis_set_raises : bool;                (* the Redis client fails on SET *)
  trace : list op;                        (* store calls, oldest first *)
  log : list log_entry                    (* log lines, oldest first *)
}.

Definition with_stores (s : Stores) (w : World) : World :=
  {| stores := s; redis := redis w; data_file := data_file w;
     milvus_connects := milvus_connects w;
     redis_get_raises := redis_get_raises w;
     redis_set_raises := redis_set_raises w;
     trace := trace w; log := log w |}.

Definition with_redis (r : gmap string (string * Z)) (w : World) : World :=
  {| stores := stores w; redis := r; data_file := data_file w;
     milvus_connects := milvus_connects w;
     redis_get_raises := redis_get_raises w;
     redis_set_raises := redis_set_raises w;
     trace := trace w; log := log w |}.

Definition with_milvus_connects (c : list connect_outcome) (w : World) : World :=
  {| stores := stores w; redis := redis w; data_file := data_file w;
     milvus_connects := c;
     redis_get_raises := redis_get_raises w;
     redis_set_raises := redis_set_raises w;
     trace := trace w; log := log w |}.

Definition with_trace (t : list op) (w : World) : World :=
  {| stores := stores w; redis := redis w; data_file := data_file w;
     milvus_connects := milvus_connects w;
     redis_get_raises := redis_get_raises w;
     redis_set_raises := redis_set_raises w;
     trace := t; log := log w |}.

Definition with_log (l : list log_entry) (w : World) : World :=
  {| stores := stores w; redis := redis w; data_file := data_file w;
     milvus_connects := milvus_connects w;
     redis_get_raises := redis_get_raises w;
     redis_set_raises := redis_set_raises w;
     trace := trace w; log := l |}.

Definition set_mongo (v : list Document) (s : Stores) : Stores :=
  {| mongo := v; milvus := milvus s; neo4j := neo4j s; sqlite := sqlite s |}.
Definition set_milvus (v : option Collection) (s : Stores) : Stores :=
  {| mongo := mongo s; milvus := v; neo4j := neo4j s; sqlite := sqlite s |}.
Definition set_neo4j (v : Graph) (s : Stores) : Stores :=
  {| mongo := mongo s; milvus := milvus s; neo4j := v; sqlite := sqlite s |}.
Definition set_sqlite (v : list AnalyticsRow) (s : Stores) : Stores :=
  {| mongo := mongo s; milvus := milvus s; neo4j := neo4j s; sqlite := v |}.

Inductive result (A : Type) : Type :=
| Ok (a : A)
| Raise (e : exn).
Arguments Ok {A} a.
Arguments Raise {A} e.

(** A Python call: it changes the world and returns or raises. *)
Definition M (A : Type) : Type := World -> result A * World.

Definition ret {A} (a : A) : M A := fun w => (Ok a, w).

Definition bind {A B} (m : M A) (k : A -> M B) : M B :=
  fun w => match m w with
           | (Ok a, w') => k a w'
           | (Raise e, w') => (Raise e, w')
           end.

Definition raise {A} (e : exn) : M A := fun w => (Raise e, w).

(** [try: body except ...: handler]; [handler e = None] when no [except]
    clause matches [e]. *)
Definition try_except {A} (body : M A) (handler : exn -> option (M A)) : M A :=
  fun w => match body w with
           | (Ok a, w') => (Ok a, w')
           | (Raise e, w') =>
               match handler e with
               | Some h => h w'
               | None => (Raise e, w')
               end
           end.

Declare Scope py_scope.
Delimit Scope py_scope with py.
Notation "x <- m ;; k" := (bind m (fun x => k))
  (at level 100, m at next level, right associativity) : py_scope.
Notation "m ;; k" := (bind m (fun _ => k))
  (at level 100, right associativity) : py_scope.
Local Open Scope py_scope.

(** [for x in xs: body x]. *)
Fixpoint for_each {A} (xs : list A) (body : A -> M unit) : M unit :=
  match xs with
  | [] => ret tt
  | x :: xs' => body x ;; for_each xs' body
  end.

(** A store call enters the trace. *)
Definition call (o : op) : M unit :=
  fun w => (Ok tt, with_trace (trace w ++ [o]) w).

Definition logger (l : level) (m : message_text) : M unit :=
  fun w => (Ok tt, with_log (log w ++ [(l, m)]) w).

Definition get_stores : M Stores := fun w => (Ok (stores w), w).
Definition modify_stores (f : Stores -> Stores) : M unit :=
  fun w => (Ok tt, with_stores (f (stores w)) w).

(* ------------------------------------------------------------------ *)
(** ** Collaborators that are black boxes *)

Record Collaborators : Type := {
  (** [SentenceTransformer.encode(text, convert_to_numpy=True)], as the
      list of its components. *)
  encode : string -> list float;
  (** pydantic's coercion of a JSON value to [float]. *)
  coerce_float : json -> option float;
  (** Milvus' approximate nearest-neighbour search (IVF_FLAT, L2): the hits
      for a query vector and a limit, nearest first. *)
  ann_search : list Entity -> list float -> nat -> list Entity;
  (** The order in which CPython iterates a set of these distinct strings. *)
  set_iteration : list string -> list string;
  set_iteration_perm : forall l, NoDup l -> set_iteration l ≡ₚ l;
  json_dumps : json -> string;
  (** [None] stands for [json.JSONDecodeError]. *)
  json_loads : string -> option json
}.

(* ------------------------------------------------------------------ *)
(** ** src/utils/db.py *)

Module Db.

(** [MongoClient(...)], [Redis(...)] and [GraphDatabase.driver(...)] build
    a client object and talk to no server yet. *)
Definition get_mongo_client : M unit := ret tt.
Definition get_redis_client : M unit := ret tt.
Definition get_neo4j_driver : M unit := ret tt.

(** [connections.connect("default", host=..., port=...)]. *)
Definition connections_connect : M unit :=
  call MilvusConnect ;;
  fun w =>
    match milvus_connects w with
    | [] => (Ok tt, w)
    | Connected :: rest => (Ok tt, with_milvus_connects rest w)
    | ConnectRaises text :: rest =>
        (Raise (MilvusException text), with_milvus_connects rest w)
    end.

Definition retries : nat := 10.
Definition wait_time : Z := 5.

(** [for i in range(retries): try: ... break except MilvusException ...
    else: raise ConnectionError], entered at iteration [i] with
    [remaining] iterations to go.  The [try] block yields [true] when it
    reaches [break]; the handler yields [false] when the loop goes on. *)
Fixpoint connect_loop (i remaining : nat) : M unit :=
  match remaining with
  | O =>
      logger ERROR (MsgMilvusGaveUp retries) ;;
      raise (ConnectionError "Failed to connect to Milvus.")
  | S remaining' =>
      connected <-
        try_except
          (logger INFO (MsgMilvusAttempt (i + 1) retries) ;;
           connections_connect ;;
           logger INFO MsgMilvusConnected ;;
           ret true)
          (fun e =>
             match e with
             | MilvusException text =>
                 Some
                   (if str_contains "server unavailable" text
                       || str_contains "connecting" text
                    then
                      logger WARNING (MsgMilvusNotReady text) ;;
                      call (Sleep wait_time) ;;
                      ret false
                    else
                      logger ERROR (MsgMilvusNonRetryable text) ;;
                      raise e)
             | _ => None
             end) ;;
      if connected then ret tt else connect_loop (S i) remaining'
  end.

(** [utility.has_collection(collection_name)]. *)
Definition has_collection : M bool :=
  call MilvusHasCollection ;;
  s <- get_stores ;;
  ret (match milvus s with Some _ => true | None => false end).

(** [utility.drop_collection(collection_name)]. *)
Definition drop_collection : M unit :=
  call MilvusDropCollection ;;
  modify_stores (set_milvus None).

(** [Collection(collection_name, schema)]: the handle of the collection of
    that name, created empty when there is none. *)
Definition new_collection : M unit :=
  call MilvusCreateCollection ;;
  modify_stores
    (fun s =>
       match milvus s with
       | Some _ => s
       | None =>
           set_milvus
             (Some {| entities := []; has_index := false; loaded := false |})
             s
       end).

Definition collection_has_index : M bool :=
  call MilvusHasIndex ;;
  s <- get_stores ;;
  ret (match milvus s with Some c => has_index c | None => false end).

Definition collection_create_index : M unit :=
  call MilvusCreateIndex ;;
  modify_stores
    (fun s =>
       match milvus s with
       | Some c =>
           set_milvus
             (Some {| entities := entities c; has_index := true;
                      loaded := loaded c |}) s
       | None => s
       end).

Definition collection_load : M unit :=
  call MilvusLoad ;;
  modify_stores
    (fun s =>
       match milvus s with
       | Some c =>
           set_milvus
             (Some {| entities := entities c; has_index := has_index c;
                      loaded := true |}) s
       | None => s
       end).

(** [get_milvus_connection()]. *)
Definition get_milvus_connection : M unit :=
  connect_loop 0 retries ;;
  (* --- Schema setup --- *)
  exists_ <- has_collection ;;
  (if exists_ : bool then
     logger WARNING MsgDroppingCollection ;;
     drop_collection ;;
     logger INFO MsgCollectionDropped
   else ret tt) ;;
  logger INFO MsgCreatingCollection ;;
  new_collection ;;
  idx <- collection_has_index ;;
  (if negb idx then
     logger INFO MsgCreatingIndex ;;
     collection_create_index ;;
     logger INFO MsgIndexCreated
   else ret tt) ;;
  logger INFO MsgLoadingCollection ;;
  collection_load ;;
  logger INFO MsgCollectionLoaded.

(** [get_sqlite_conn()]: [CREATE TABLE IF NOT EXISTS user_analytics].  A
    table that does not exist yet holds no rows, so the rows are as
    before. *)
Definition get_sqlite_conn : M unit :=
  call SqliteCreateTableIfNotExists.

End Db.

(* ------------------------------------------------------------------ *)
(** ** pandas: [df.groupby(['user_id', 'campaign_id']).size()] *)

Definition group_key (d : Conversation) : string * string :=
  (user_id d, campaign_id d).

(** Group keys come out sorted, by user_id and then by campaign_id. *)
Definition key_leb (a b : string * string) : bool :=
  match String.compare a.1 b.1 with
  | Lt => true
  | Eq => String.leb a.2 b.2
  | Gt => false
  end.

Definition key_le (a b : string * string) : Prop := key_leb a b = true.

Global Instance key_le_dec : RelDecision key_le.
Proof. intros a b. unfold key_le. apply _. Defined.

(** The number of records of a group. *)
Definition group_size (k : string * string) (data : list Conversation) : nat :=
  length (filter (fun d => group_key d = k) data).

(** [df.groupby([...]).size().reset_index(name='engagement_count')]. *)
Definition groupby_size (data : list Conversation) : list AnalyticsRow :=
  map (fun k => {| row_user_id := k.1; row_campaign_id := k.2;
                   engagement_count := Z.of_nat (group_size k data) |})
      (merge_sort key_le (remove_dups (map group_key data))).

(* ------------------------------------------------------------------ *)
(** ** Cypher: MERGE matches a node or relationship, or creates it *)

Definition merge_node (n : node) (g : Graph) : Graph :=
  if decide (n ∈ nodes g) then g
  else {| nodes := nodes g ++ [n]; rels := rels g |}.

Definition merge_rel (r : rel) (g : Graph) : Graph :=
  if decide (r ∈ rels g) then g
  else {| nodes := nodes g; rels := rels g ++ [r] |}.

(** The five MERGE clauses that [load_to_dbs] runs for one record. *)
Definition cypher_merge (uid cid intent_name ts : string) (g : Graph) : Graph :=
  let u := User uid in
  let c := Campaign cid in
  let i := Intent intent_name in
  let g := merge_node u g in
  let g := merge_node c g in
  let g := merge_node i g in
  let g := merge_rel {| rel_src := u; rel_type_of := PARTICIPATED_IN;
                        rel_timestamp := ts; rel_dst := c |} g in
  merge_rel {| rel_src := u; rel_type_of := EXPRESSED;
               rel_timestamp := ts; rel_dst := i |} g.

Definition empty_graph : Graph := {| nodes := []; rels := [] |}.

(* ------------------------------------------------------------------ *)
(** ** src/pipeline/flow.py *)

Module Flow.
Section WithCollaborators.
Variable E : Collaborators.

(** [with open(file_path, 'r') as f: data = json.load(f)]. *)
Definition json_load_file : M (list raw_record) :=
  fun w =>
    match data_file w with
    | FileMissing => (Raise FileNotFoundError, w)
    | FileNotJson => (Raise JSONDecodeError, w)
    | FileJson data => (Ok data, w)
    end.

(** [extract_raw_data()]. *)
Definition extract_raw_data : M (list raw_record) :=
  logger INFO MsgExtracting ;;
  try_except
    (data <- json_load_file ;;
     logger INFO (MsgExtracted (length data)) ;;
     ret data)
    (fun e =>
       match e with
       | FileNotFoundError => Some (logger ERROR MsgFileNotFound ;; ret [])
       | JSONDecodeError => Some (logger ERROR MsgJsonDecodeError ;; ret [])
       | _ => None
       end).

(** The constructor call [Conversation] on an unpacked item, raising
    [ValidationError]. *)
Definition new_Conversation (item : raw_record) : M Conversation :=
  match validate (coerce_float E) item with
  | Some convo => ret convo
  | None => raise ValidationError
  end.

(** The body of the [for item in data] loop of [transform_and_validate];
    it returns [valid_data] as the iteration leaves it. *)
Definition transform_item (valid_data : list Conversation) (item : raw_record)
  : M (list Conversation) :=
  try_except
    ((* 1. Validate *)
     convo <- new_Conversation item ;;
     (* 2. Generate Embedding *)
     let embedding := encode E (message convo) in
     (* Anomaly check *)
     if negb (truthy embedding) then
       logger WARNING (MsgEmptyEmbedding (message_id convo)) ;;
       ret valid_data
     else
       ret (valid_data ++ [set_embedding convo embedding]))
    (fun e =>
       match e with
       | ValidationError =>
           Some (logger WARNING (MsgInvalidSkipped (item !! "message_id")) ;;
                 ret valid_data)
       | _ => None
       end).

Fixpoint transform_loop (data : list raw_record)
  (valid_data : list Conversation) : M (list Conversation) :=
  match data with
  | [] => ret valid_data
  | item :: rest =>
      valid_data' <- transform_item valid_data item ;;
      transform_loop rest valid_data'
  end.

(** [transform_and_validate(data)]. *)
Definition transform_and_validate (data : list raw_record)
  : M (list Conversation) :=
  logger INFO (MsgTransforming (length data)) ;;
  valid_data <- transform_loop data [] ;;
  logger INFO (MsgTransformed (length valid_data)) ;;
  ret valid_data.

(** The store calls of [load_to_dbs]. *)
Definition mongo_delete_many : M unit :=
  call MongoDeleteMany ;;
  modify_stores (set_mongo []).

(** pymongo refuses an empty list of documents before it sends anything. *)
Definition mongo_insert_many (docs : list Document) : M unit :=
  if truthy docs then
    call (MongoInsertMany docs) ;;
    modify_stores (fun s => set_mongo (mongo s ++ docs) s)
  else raise (TypeError "documents must be a non-empty list").

Definition milvus_insert (rows : list Entity) : M unit :=
  call (MilvusInsert rows) ;;
  modify_stores
    (fun s =>
       match milvus s with
       | Some c =>
           set_milvus
             (Some {| entities := entities c ++ rows;
                      has_index := has_index c; loaded := loaded c |}) s
       | None => s
       end).

Definition milvus_flush : M unit := call MilvusFlush.

Definition neo4j_detach_delete_all : M unit :=
  call Neo4jDetachDeleteAll ;;
  modify_stores (set_neo4j empty_graph).

Definition neo4j_merge (d : Conversation) : M unit :=
  call (Neo4jMerge (user_id d) (campaign_id d) (intent d) (timestamp d)) ;;
  modify_stores
    (fun s =>
       set_neo4j
         (cypher_merge (user_id d) (campaign_id d) (intent d) (timestamp d)
            (neo4j s)) s).

Definition sqlite_delete_all : M unit :=
  call SqliteDeleteAll ;;
  modify_stores (set_sqlite []).

Definition sqlite_append (rows : list AnalyticsRow) : M unit :=
  call (SqliteAppend rows) ;;
  modify_stores (fun s => set_sqlite (sqlite s ++ rows) s).

(** [load_to_dbs(data)]. *)
Definition load_to_dbs (data : list Conversation) : M unit :=
  logger INFO (MsgLoading (length data)) ;;
  (* Get clients *)
  Db.get_mongo_client ;;
  Db.get_milvus_connection ;;
  Db.get_neo4j_driver ;;
  Db.get_sqlite_conn ;;
  (* Prepare data for bulk insertion *)
  let mongo_data := map model_dump_exclude_embedding data in
  let milvus_data :=
    map (fun d => {| ent_message_id := message_id d;
                     ent_user_id := user_id d;
                     ent_embedding := embedding d |}) data in
  (* 1. Load to MongoDB *)
  mongo_delete_many ;;
  mongo_insert_many mongo_data ;;
  logger INFO (MsgLoadedMongo (length mongo_data)) ;;
  (* 2. Load to Milvus; the old data went with the collection that
     get_milvus_connection dropped *)
  milvus_insert milvus_data ;;
  milvus_flush ;;
  logger INFO (MsgLoadedMilvus (length data)) ;;
  (* 3. Load to Neo4j *)
  neo4j_detach_delete_all ;;
  for_each data neo4j_merge ;;
  logger INFO (MsgLoadedNeo4j (length data)) ;;
  (* 4. Load to SQLite *)
  let analytics_df := groupby_size data in
  sqlite_delete_all ;;
  sqlite_append analytics_df ;;
  call SqliteCommit ;;
  call SqliteClose ;;
  logger INFO (MsgLoadedSqlite (length analytics_df)).

(** [main_data_pipeline()]. *)
Definition main_data_pipeline : M unit :=
  logger INFO MsgPipelineStarting ;;
  raw_data <- extract_raw_data ;;
  if negb (truthy raw_data) then
    logger ERROR MsgNoRawData
  else
    transformed_data <- transform_and_validate raw_data ;;
    if negb (truthy transformed_data) then
      logger ERROR MsgNoDataSurvived
    else
      load_to_dbs transformed_data ;;
      logger INFO MsgPipelineFinished.

End WithCollaborators.
End Flow.

(* ------------------------------------------------------------------ *)
(** ** The two read queries of the API *)

(** [MATCH (u:User)-[:PARTICIPATED_IN]->(c:Campaign) WHERE u.id IN $user_ids
    RETURN DISTINCT c.id AS campaign_id]. *)
Definition participated_campaign (user_ids : list string) (r : rel)
  : option string :=
  match rel_type_of r, rel_src r, rel_dst r with
  | PARTICIPATED_IN, User u, Campaign c =>
      if decide (u ∈ user_ids) then Some c else None
  | _, _, _ => None
  end.

Definition match_campaigns (g : Graph) (user_ids : list string) : list string :=
  remove_dups (omap (participated_campaign user_ids) (rels g)).

(** [SELECT campaign_id, SUM(engagement_count) AS total_engagement
     FROM user_analytics WHERE campaign_id IN (...) GROUP BY 1
     ORDER BY 2 DESC].  SQLite leaves the order of equal totals open; here
    the groups are formed in campaign_id order and then sorted. *)
Definition str_le (a b : string) : Prop := String.leb a b = true.

Global Instance str_le_dec : RelDecision str_le.
Proof. intros a b. unfold str_le. apply _. Defined.

Definition sum_Z (l : list Z) : Z := foldr Z.add 0 l.

Definition total_engagement (table : list AnalyticsRow) (cid : string) : Z :=
  sum_Z (map engagement_count
           (filter (fun r => row_campaign_id r = cid) table)).

Definition score_ge (a b : string * Z) : Prop := b.2 <= a.2.

Global Instance score_ge_dec : RelDecision score_ge.
Proof. intros a b. unfold score_ge. apply _. Defined.

Definition select_ranked (table : list AnalyticsRow) (campaign_ids : list string)
  : list (string * Z) :=
  let matching := filter (fun r => row_campaign_id r ∈ campaign_ids) table in
  let groups := merge_sort str_le (remove_dups (map row_campaign_id matching)) in
  merge_sort score_ge (map (fun c => (c, total_engagement matching c)) groups).

(* ------------------------------------------------------------------ *)
(** ** src/api/main.py *)

Module Api.

(** An item of [rank_campaigns_by_engagement]'s result. *)
Record Ranked : Type := {
  rk_campaign_id : string;
  rk_ranking_score : Z
}.

(** An item of [final_recs]. *)
Record Recommendation : Type := {
  campaign_id : string;
  ranking_score : Z;
  reason : string
}.

Definition rec_json (r : Recommendation) : json :=
  JObj [("campaign_id", JStr (campaign_id r));
        ("ranking_score", JInt (ranking_score r));
        ("reason", JStr (reason r))].

Definition recs_json (l : list Recommendation) : json :=
  JArr (map rec_json l).

(** The body of a 200 response. *)
Record Response : Type := {
  resp_user_id : string;
  recommendations : json;
  retrieval_source : string
}.

Definition REASON : string :=
  "Recommended based on users with similar interests.".

Definition not_found (user_id : string) : exn :=
  HTTPException 404 ("User '" +:+ user_id +:+ "' not found or has no data.").

Section WithCollaborators.
Variable E : Collaborators.

(** [lifespan(app)], up to its [yield]: the startup of the API. *)
Definition lifespan_startup : M unit :=
  logger INFO MsgApiStarting ;;
  Db.get_redis_client ;;
  Db.get_milvus_connection ;;
  Db.get_neo4j_driver ;;
  Db.get_mongo_client ;;
  logger INFO MsgApiReady.

(** [lifespan(app)], after its [yield]: the shutdown. *)
Definition lifespan_shutdown : M unit :=
  logger INFO MsgApiShuttingDown ;;
  call Neo4jClose.

(** [mongo.conversations.find_one({"user_id": user_id})]. *)
Definition mongo_find_one (user_id : string) : M (option Document) :=
  call (MongoFindOne user_id) ;;
  s <- get_stores ;;
  ret (find (fun d => bool_decide (doc_user_id d = user_id)) (mongo s)).

(** [get_user_query_vector(user_id)]. *)
Definition get_user_query_vector (user_id : string)
  : M (option (list float)) :=
  (* 1. Get a recent message from Mongo *)
  recent_message <- mongo_find_one user_id ;;
  match recent_message with
  | None => ret None (* User not found *)
  | Some doc =>
      (* 2. Generate embedding *)
      ret (Some (encode E (doc_message doc)))
  end.

(** [search_similar_users(query_vector, k)]. *)
Definition search_similar_users (query_vector : list float) (k : nat)
  : M (list string) :=
  call (MilvusSearch query_vector k) ;;
  s <- get_stores ;;
  let results :=
    ann_search E
      (match milvus s with Some c => entities c | None => [] end)
      query_vector k in
  let similar_user_ids := map ent_user_id results in
  (* Remove duplicates *)
  ret (set_iteration E (remove_dups similar_user_ids)).

(** [fetch_campaigns_for_users(user_ids)]. *)
Definition fetch_campaigns_for_users (user_ids : list string)
  : M (list string) :=
  call (Neo4jMatchCampaigns user_ids) ;;
  s <- get_stores ;;
  ret (match_campaigns (neo4j s) user_ids).

(** [rank_campaigns_by_engagement(campaign_ids)]. *)
Definition rank_campaigns_by_engagement (campaign_ids : list string)
  : M (list Ranked) :=
  Db.get_sqlite_conn ;;
  call (SqliteSelectRanked campaign_ids) ;;
  s <- get_stores ;;
  let results := select_ranked (sqlite s) campaign_ids in
  call SqliteClose ;;
  ret (map (fun row => {| rk_campaign_id := row.1;
                          rk_ranking_score := row.2 |}) results).

(** [redis.get(key)]; entries that are present have not expired. *)
Definition redis_get (key : string) : M (option string) :=
  call (RedisGet key) ;;
  fun w =>
    if redis_get_raises w then (Raise RedisError, w)
    else (Ok (fst <$> redis w !! key), w).

(** [redis.set(key, value, ex=ttl)]. *)
Definition redis_set (key value : string) (ex : Z) : M unit :=
  call (RedisSet key value ex) ;;
  fun w =>
    if redis_set_raises w then (Raise RedisError, w)
    else (Ok tt, with_redis (<[key := (value, ex)]> (redis w)) w).

Definition loads (s : string) : M json :=
  match json_loads E s with
  | Some v => ret v
  | None => raise JSONDecodeError
  end.

(** [{**item, "reason": ...} for item in ranked_campaigns]. *)
Definition annotate (ranked_campaigns : list Ranked) : list Recommendation :=
  map (fun item => {| campaign_id := rk_campaign_id item;
                      ranking_score := rk_ranking_score item;
                      reason := REASON |}) ranked_campaigns.

(** [get_recommendations(user_id)]. *)
Definition get_recommendations (user_id : string) : M Response :=
  let cache_key := "rec:" +:+ user_id in
  (* 1. Check Cache; [Some r] when the [try] block returns [r] *)
  returned <-
    try_except
      (cached_result <- redis_get cache_key ;;
       match cached_result with
       | Some text =>
           if str_truthy text then
             logger INFO (MsgCacheHit user_id) ;;
             value <- loads text ;;
             ret (Some {| resp_user_id := user_id;
                          recommendations := value;
                          retrieval_source := "cache" |})
           else ret None
       | None => ret None
       end)
      (fun e => Some (logger WARNING MsgCacheReadFailed ;; ret None)) ;;
  match returned with
  | Some response => ret response
  | None =>
      logger INFO (MsgCacheMiss user_id) ;;
      (* 2. Get Query Vector *)
      query_vector <- get_user_query_vector user_id ;;
      match query_vector with
      | None | Some [] => raise (not_found user_id)
      | Some query_vector =>
          (* 3. Retrieve (Hybrid Search) *)
          (* (a) Milvus Vector Search -> Similar Users *)
          similar_user_ids <- search_similar_users query_vector 5 ;;
          logger INFO (MsgSimilarUsers similar_user_ids) ;;
          (* (b) Neo4j Graph Search -> Campaigns *)
          if negb (truthy similar_user_ids) then
            logger WARNING (MsgNoSimilarUsers user_id) ;;
            ret {| resp_user_id := user_id;
                   recommendations := JArr [];
                   retrieval_source := "computed" |}
          else
            campaign_ids <- fetch_campaigns_for_users similar_user_ids ;;
            logger INFO (MsgRelatedCampaigns campaign_ids) ;;
            (* (c) SQLite Analytical Rank -> Rank *)
            if negb (truthy campaign_ids) then
              logger WARNING (MsgNoCampaigns user_id) ;;
              ret {| resp_user_id := user_id;
                     recommendations := JArr [];
                     retrieval_source := "computed" |}
            else
              ranked_campaigns <- rank_campaigns_by_engagement campaign_ids ;;
              logger INFO
                (MsgRanked (map (fun r => (rk_campaign_id r, rk_ranking_score r))
                              ranked_campaigns)) ;;
              (* 4. Cache & Return *)
              let final_recs := annotate ranked_campaigns in
              try_except
                (redis_set cache_key (json_dumps E (recs_json final_recs))
                   Config.RECOMMENDATION_CACHE_TTL_SECONDS)
                (fun e => Some (logger WARNING MsgCacheWriteFailed)) ;;
              ret {| resp_user_id := user_id;
                     recommendations := recs_json final_recs;
                     retrieval_source := "computed" |}
      end
  end.

End WithCollaborators.
End Api.


(* ------------------------------------------------------------------ *)
(** ** Vocabulary of the statements *)

(** What a run adds to the trace and to the log. *)
Definition new_trace {A} (m : M A) (w : World) : list op :=
  drop (length (trace w)) (trace (m w).2).

Definition new_log {A} (m : M A) (w : World) : list log_entry :=
  drop (length (log w)) (log (m w).2).

(** The clears and inserts of a trace, in order. *)
Inductive mutation : Type :=
| Clear (s : store)
| Insert (s : store).

Definition mutation_of (o : op) : option mutation :=
  match clears o, inserts o with
  | Some s, _ => Some (Clear s)
  | None, Some s => Some (Insert s)
  | None, None => None
  end.

Definition mutations (t : list op) : list mutation := omap mutation_of t.

(** The order of §4.1 of the specification: document store, vector store,
    graph store, analytics store, each cleared and then filled. *)
Definition spec_load_order (n : nat) : list mutation :=
  [Clear DocumentStore; Insert DocumentStore;
   Clear VectorStore; Insert VectorStore;
   Clear GraphStore] ++ replicate n (Insert GraphStore) ++
  [Clear AnalyticsStore; Insert AnalyticsStore].

(** The order in which [load_to_dbs] clears and fills: the Milvus collection
    is dropped, when there is one, while the handles are obtained. *)
Definition code_load_order (collection_exists : bool) (n : nat)
  : list mutation :=
  (if collection_exists then [Clear VectorStore] else []) ++
  [Clear DocumentStore; Insert DocumentStore;
   Insert VectorStore;
   Clear GraphStore] ++ replicate n (Insert GraphStore) ++
  [Clear AnalyticsStore; Insert AnalyticsStore].

(** Whether the retry loop of [get_milvus_connection] reaches its [break]
    within [n] attempts, given the outcomes of the coming connects. *)
Fixpoint will_connect (n : nat) (outcomes : list connect_outcome) : bool :=
  match n, outcomes with
  | O, _ => false
  | S _, [] => true
  | S _, Connected :: _ => true
  | S n', ConnectRaises text :: rest =>
      (str_contains "server unavailable" text || str_contains "connecting" text)
      && will_connect n' rest
  end.

(** The record that one raw item contributes to [valid_data], if any. *)
Definition transform_one (E : Collaborators) (item : raw_record)
  : option Conversation :=
  match validate (coerce_float E) item with
  | Some convo =>
      if truthy (encode E (message convo))
      then Some (set_embedding convo (encode E (message convo)))
      else None
  | None => None
  end.

Definition valid_records (E : Collaborators) (data : list raw_record)
  : list Conversation :=
  omap (transform_one E) data.

(** What [extract_raw_data] returns for a state of the input file. *)
Definition file_records (f : file_state) : list raw_record :=
  match f with FileJson data => data | _ => [] end.

(** The collection as [get_milvus_connection] leaves it. *)
Definition fresh_collection : Collection :=
  {| entities := []; has_index := true; loaded := true |}.

(** The graph after the MERGE clauses of one more record. *)
Definition merge_record (g : Graph) (d : Conversation) : Graph :=
  cypher_merge (user_id d) (Schemas.campaign_id d) (intent d) (timestamp d) g.

(** The contents of the four stores after a load of [data]. *)
Definition loaded_stores (data : list Conversation) : Stores :=
  {| mongo := map model_dump_exclude_embedding data;
     milvus :=
       Some {| entities :=
                 map (fun d => {| ent_message_id := message_id d;
                                  ent_user_id := user_id d;
                                  ent_embedding := embedding d |}) data;
               has_index := true; loaded := true |};
     neo4j := foldl merge_record empty_graph data;
     sqlite := groupby_size data |}.

(** The engagement counts that the analytics table holds for a pair. *)
Definition counts_for (table : list AnalyticsRow) (uid cid : string) : list Z :=
  map engagement_count
      (filter (fun r => row_user_id r = uid /\ row_campaign_id r = cid) table).

(** What the cache check of [get_recommendations] finds: the decoded value of
    a hit, or [None] on a miss, an empty value, an undecodable value or a
    failing Redis client. *)
Definition cache_lookup (E : Collaborators) (user_id : string) (w : World)
  : option json :=
  if redis_get_raises w then None
  else match redis w !! ("rec:" +:+ user_id) with
       | Some (text, _) => if str_truthy text then json_loads E text else None
       | None => None
       end.

(** The user's record that [find_one] returns. *)
Definition seed_record (user_id : string) (s : Stores) : option Document :=
  find (fun d => bool_decide (doc_user_id d = user_id)) (mongo s).

(** The similar users that the vector store holds for a query. *)
Definition similar_users (E : Collaborators) (s : Stores)
  (query_vector : list float) : list string :=
  set_iteration E
    (remove_dups
       (map ent_user_id
          (ann_search E
             (match milvus s with Some c => entities c | None => [] end)
             query_vector 5))).

Definition empty_response (user_id : string) : Api.Response :=
  {| Api.resp_user_id := user_id;
     Api.recommendations := JArr [];
     Api.retrieval_source := "computed" |}.

(** [get_recommendations] in two halves: the [try] block of step 1, which
    yields [Some r] when it returns [r], and steps 2 to 4, which run after a
    miss. *)
Definition cache_check (E : Collaborators) (user_id : string)
  : M (option Api.Response) :=
  try_except
    (cached_result <- Api.redis_get ("rec:" +:+ user_id) ;;
     match cached_result with
     | Some text =>
         if str_truthy text then
           logger INFO (MsgCacheHit user_id) ;;
           value <- Api.loads E text ;;
           ret (Some {| Api.resp_user_id := user_id;
                        Api.recommendations := value;
                        Api.retrieval_source := "cache" |})
         else ret None
     | None => ret None
     end)
    (fun e => Some (logger WARNING MsgCacheReadFailed ;; ret None)).

(** Steps 3(b) to 4, once the similar users are known. *)
Definition expand_and_rank (E : Collaborators) (user_id : string)
  (similar_user_ids : list string) : M Api.Response :=
  if negb (truthy similar_user_ids) then
    logger WARNING (MsgNoSimilarUsers user_id) ;;
    ret (empty_response user_id)
  else
    campaign_ids <- Api.fetch_campaigns_for_users similar_user_ids ;;
    logger INFO (MsgRelatedCampaigns campaign_ids) ;;
    if negb (truthy campaign_ids) then
      logger WARNING (MsgNoCampaigns user_id) ;;
      ret (empty_response user_id)
    else
      ranked_campaigns <- Api.rank_campaigns_by_engagement campaign_ids ;;
      logger INFO
        (MsgRanked (map (fun r => (Api.rk_campaign_id r, Api.rk_ranking_score r))
                      ranked_campaigns)) ;;
      try_except
        (Api.redis_set ("rec:" +:+ user_id)
           (json_dumps E (Api.recs_json (Api.annotate ranked_campaigns)))
           Config.RECOMMENDATION_CACHE_TTL_SECONDS)
        (fun e => Some (logger WARNING MsgCacheWriteFailed)) ;;
      ret {| Api.resp_user_id := user_id;
             Api.recommendations := Api.recs_json (Api.annotate ranked_campaigns);
             Api.retrieval_source := "computed" |}.

Definition on_miss (E : Collaborators) (user_id : string) : M Api.Response :=
  logger INFO (MsgCacheMiss user_id) ;;
  query_vector <- Api.get_user_query_vector E user_id ;;
  match query_vector with
  | None | Some [] => raise (Api.not_found user_id)
  | Some query_vector =>
      similar_user_ids <- Api.search_similar_users E query_vector 5 ;;
      logger INFO (MsgSimilarUsers similar_user_ids) ;;
      expand_and_rank E user_id similar_user_ids
  end.

(** The ranked list that the analytics table yields for the candidates. *)
Definition ranked_for (s : Stores) (campaign_ids : list string)
  : list Api.Ranked :=
  map (fun row => {| Api.rk_campaign_id := row.1;
                     Api.rk_ranking_score := row.2 |})
      (select_ranked (sqlite s) campaign_ids).

(** The query vector of a user: the embedding of the record that [find_one]
    returns. *)
Definition query_vector_of (E : Collaborators) (user_id : string) (s : Stores)
  : option (list float) :=
  (fun d => encode E (doc_message d)) <$> seed_record user_id s.

(** The response of a request that ranks [campaign_ids]. *)
Definition ranked_response (user_id : string) (s : Stores)
  (campaign_ids : list string) : Api.Response :=
  {| Api.resp_user_id := user_id;
     Api.recommendations :=
       Api.recs_json (Api.annotate (ranked_for s campaign_ids));
     Api.retrieval_source := "computed" |}.

(** The cache after the write of step 4. *)
Definition cache_after_write (E : Collaborators) (user_id : string) (w : World)
  (campaign_ids : list string) : gmap string (string * Z) :=
  if redis_set_raises w then redis w
  else <["rec:" +:+ user_id :=
          (json_dumps E
             (Api.recs_json (Api.annotate (ranked_for (stores w) campaign_ids))),
           Config.RECOMMENDATION_CACHE_TTL_SECONDS)]> (redis w).

Definition cached_response (user_id : string) (value : json) : Api.Response :=
  {| Api.resp_user_id := user_id;
     Api.recommendations := value;
     Api.retrieval_source := "cache" |}.

(** The five ways in which a request ends (§4.2 of the specification: Hit,
    NotFound, Empty after the similarity search, Empty after the graph
    expansion, and the ranked list), each with its answer, the store calls
    it makes and the cache it leaves. *)
Inductive served (E : Collaborators) (user_id : string) (w : World)
  : result Api.Response -> list op -> gmap string (string * Z) -> Prop :=
| served_hit value :
    cache_lookup E user_id w = Some value ->
    served E user_id w (Ok (cached_response user_id value))
      [RedisGet ("rec:" +:+ user_id)] (redis w)
| served_not_found :
    cache_lookup E user_id w = None ->
    query_vector_of E user_id (stores w) = None \/
    query_vector_of E user_id (stores w) = Some [] ->
    served E user_id w (Raise (Api.not_found user_id))
      [RedisGet ("rec:" +:+ user_id); MongoFindOne user_id] (redis w)
| served_no_similar_users query_vector :
    cache_lookup E user_id w = None ->
    query_vector_of E user_id (stores w) = Some query_vector ->
    query_vector <> [] ->
    similar_users E (stores w) query_vector = [] ->
    served E user_id w (Ok (empty_response user_id))
      [RedisGet ("rec:" +:+ user_id); MongoFindOne user_id;
       MilvusSearch query_vector 5] (redis w)
| served_no_campaigns query_vector :
    cache_lookup E user_id w = None ->
    query_vector_of E user_id (stores w) = Some query_vector ->
    query_vector <> [] ->
    similar_users E (stores w) query_vector <> [] ->
    match_campaigns (neo4j (stores w))
      (similar_users E (stores w) query_vector) = [] ->
    served E user_id w (Ok (empty_response user_id))
      [RedisGet ("rec:" +:+ user_id); MongoFindOne user_id;
       MilvusSearch query_vector 5;
       Neo4jMatchCampaigns (similar_users E (stores w) query_vector)]
      (redis w)
| served_ranked query_vector campaign_ids :
    cache_lookup E user_id w = None ->
    query_vector_of E user_id (stores w) = Some query_vector ->
    query_vector <> [] ->
    similar_users E (stores w) query_vector <> [] ->
    match_campaigns (neo4j (stores w))
      (similar_users E (stores w) query_vector) = campaign_ids ->
    campaign_ids <> [] ->
    served E user_id w (Ok (ranked_response user_id (stores w) campaign_ids))
      [RedisGet ("rec:" +:+ user_id); MongoFindOne user_id;
       MilvusSearch query_vector 5;
       Neo4jMatchCampaigns (similar_users E (stores w) query_vector);
       SqliteCreateTableIfNotExists; SqliteSelectRanked campaign_ids;
       SqliteClose;
       RedisSet ("rec:" +:+ user_id)
         (json_dumps E
            (Api.recs_json (Api.annotate (ranked_for (stores w) campaign_ids))))
         Config.RECOMMENDATION_CACHE_TTL_SECONDS]
      (cache_after_write E user_id w campaign_ids).

(** The answer of a request that is not served from the cache, as the
    stores determine it. *)
Definition miss_outcome (E : Collaborators) (user_id : string) (s : Stores)
  : result Api.Response :=
  match query_vector_of E user_id s with
  | None | Some [] => Raise (Api.not_found user_id)
  | Some query_vector =>
      match similar_users E s query_vector with
      | [] => Ok (empty_response user_id)
      | ids =>
          match match_campaigns (neo4j s) ids with
          | [] => Ok (empty_response user_id)
          | campaign_ids => Ok (ranked_response user_id s campaign_ids)
          end
      end
  end.

Definition with_redis_faults (get_raises set_raises : bool) (w : World) : World :=
  {| stores := stores w; redis := redis w; data_file := data_file w;
     milvus_connects := milvus_connects w;
     redis_get_raises := get_raises;
     redis_set_raises := set_raises;
     trace := trace w; log := log w |}.

(** The same deployment with a working cache that holds nothing for the
    user: a plain cache miss. *)
Definition as_miss (user_id : string) (w : World) : World :=
  with_redis_faults false (redis_set_raises w)
    (with_redis (delete ("rec:" +:+ user_id) (redis w)) w).

(** Whether the handler of the retry loop goes on after a MilvusException
    with this text. *)
Definition retryable (text : string) : bool :=
  str_contains "server unavailable" text || str_contains "connecting" text.

(** The store calls of [k] attempts that each end in a retry. *)
Definition failed_attempts (k : nat) : list op :=
  mjoin (replicate k [MilvusConnect; Sleep Db.wait_time]).

(** The calls of the schema setup of [get_milvus_connection]. *)
Definition schema_setup (collection_exists : bool) : list op :=
  [MilvusHasCollection] ++
  (if collection_exists then [MilvusDropCollection] else []) ++
  [MilvusCreateCollection; MilvusHasIndex; MilvusCreateIndex; MilvusLoad].

(** The exceptions with which [get_milvus_connection] gives up. *)
Definition connection_failure (e : exn) : Prop :=
  e = ConnectionError "Failed to connect to Milvus." \/
  exists text, e = MilvusException text /\ retryable text = false.

(** The fields that [Conversation] requires. *)
Definition required_fields : list string :=
  ["message_id"; "user_id"; "campaign_id"; "timestamp"; "intent"; "message"].

(** The record carries the six strings of the item. *)
Definition same_fields (item : raw_record) (r : Conversation) : Prop :=
  item !! "message_id" = Some (JStr (message_id r)) /\
  item !! "user_id" = Some (JStr (user_id r)) /\
  item !! "campaign_id" = Some (JStr (Schemas.campaign_id r)) /\
  item !! "timestamp" = Some (JStr (timestamp r)) /\
  item !! "intent" = Some (JStr (intent r)) /\
  item !! "message" = Some (JStr (message r)).

(** Whether the loop of [transform_and_validate] appends the item: it passes
    validation and its message has a non-empty embedding. *)
Definition survives (E : Collaborators) (item : raw_record) : bool :=
  match validate (coerce_float E) item with
  | Some convo => truthy (encode E (message convo))
  | None => false
  end.

(** The warning that the loop logs for an item that it drops. *)
Definition item_warning (E : Collaborators) (item : raw_record)
  : option log_entry :=
  match validate (coerce_float E) item with
  | Some convo =>
      if truthy (encode E (message convo)) then None
      else Some (WARNING, MsgEmptyEmbedding (message_id convo))
  | None => Some (WARNING, MsgInvalidSkipped (item !! "message_id"))
  end.

(** The number of records of a campaign. *)
Definition campaign_records (cid : string) (data : list Conversation) : nat :=
  length (filter (fun d => Schemas.campaign_id d = cid) data).

(** The key of a row of [user_analytics]: its PRIMARY KEY columns. *)
Definition row_key (r : AnalyticsRow) : string * string :=
  (row_user_id r, row_campaign_id r).

(** The two relationships that the MERGE clauses assert for a record. *)
Definition participated (d : Conversation) : rel :=
  {| rel_src := User (user_id d); rel_type_of := PARTICIPATED_IN;
     rel_timestamp := timestamp d; rel_dst := Campaign (Schemas.campaign_id d) |}.

Definition expressed (d : Conversation) : rel :=
  {| rel_src := User (user_id d); rel_type_of := EXPRESSED;
     rel_timestamp := timestamp d; rel_dst := Intent (intent d) |}.

(** The three nodes that the MERGE clauses assert for a record. *)
Definition record_nodes (d : Conversation) : list node :=
  [User (user_id d); Campaign (Schemas.campaign_id d); Intent (intent d)].

(** The entities that a search sees: those of the collection, none when
    there is no collection. *)
Definition stored_entities (s : Stores) : list Entity :=
  match milvus s with Some c => entities c | None => [] end.

(** The call leaves the fault flags of the Redis client as they are. *)
Definition keeps_flags {A} (m : M A) : Prop :=
  forall w,
    redis_get_raises (m w).2 = redis_get_raises w /\
    redis_set_raises (m w).2 = redis_set_raises w.

(** A document and a vector entry that belong together. *)
Definition aligned (E : Collaborators) (doc : Document) (ent : Entity) : Prop :=
  ent_message_id ent = doc_message_id doc /\
  ent_user_id ent = doc_user_id doc /\
  ent_embedding ent = Some (encode E (doc_message doc)) /\
  encode E (doc_message doc) <> [].

(** The MERGE call that [load_to_dbs] makes for a record. *)
Definition merge_call (d : Conversation) : op :=
  Neo4jMerge (user_id d) (Schemas.campaign_id d) (intent d) (timestamp d).

(** The vector entry that [load_to_dbs] inserts for a record. *)
Definition entity_of (d : Conversation) : Entity :=
  {| ent_message_id := message_id d; ent_user_id := user_id d;
     ent_embedding := embedding d |}.

(** The store calls of [load_to_dbs] once the handles are there. *)
Definition load_calls (data : list Conversation) : list op :=
  [MongoDeleteMany; MongoInsertMany (map model_dump_exclude_embedding data);
   MilvusInsert (map entity_of data); MilvusFlush; Neo4jDetachDeleteAll] ++
  map merge_call data ++
  [SqliteDeleteAll; SqliteAppend (groupby_size data); SqliteCommit; SqliteClose].

(** The call only appends to the log. *)
Definition grows_log {A} (m : M A) : Prop :=
  forall w, exists lines, log (m w).2 = log w ++ lines.

(* ------------------------------------------------------------------ *)
(** ** A concrete setting for the examples *)

Definition demo_encode (text : string) : list float :=
  if str_truthy text then [1%float; 0%float] else [].

Definition demo_coerce_float (v : json) : option float :=
  match v with
  | JFloat x => Some x
  | JInt n => Some (PrimFloat.of_uint63 (Uint63.of_Z n))
  | _ => None
  end.

Definition demo_json_dumps (v : json) : string :=
  match v with
  | JArr [] => "[]"
  | _ => "[{}]"
  end.

Definition demo_json_loads (text : string) : option json :=
  if bool_decide (text = "[]") then Some (JArr [])
  else if bool_decide (text = "[{}]") then Some (JArr [JObj []])
  else None.

Definition demo : Collaborators :=
  {| encode := demo_encode;
     coerce_float := demo_coerce_float;
     ann_search := fun ents _ k => take k ents;
     set_iteration := fun l => l;
     set_iteration_perm := fun l _ => reflexivity l;
     json_dumps := demo_json_dumps;
     json_loads := demo_json_loads |}.

Definition raw (mid uid cid ts int msg : string) : raw_record :=
  <["message_id" := JStr mid]> (<["user_id" := JStr uid]>
  (<["campaign_id" := JStr cid]> (<["timestamp" := JStr ts]>
  (<["intent" := JStr int]> (<["message" := JStr msg]> ∅))))).

(** The scenario of §8: two records of user A and one of user B, all for
    campaign X. *)
Definition scenario_file : list raw_record :=
  [raw "m1" "A" "X" "2024-01-01T10:00:00" "purchase" "I want to buy shoes";
   raw "m2" "A" "X" "2024-01-02T11:00:00" "support" "my order is late";
   raw "m3" "B" "X" "2024-01-03T12:00:00" "purchase" "any discount on shoes"].

Definition empty_stores : Stores :=
  {| mongo := []; milvus := None; neo4j := empty_graph; sqlite := [] |}.

Definition world_of (s : Stores) (f : file_state) : World :=
  {| stores := s; redis := ∅; data_file := f; milvus_connects := [];
     redis_get_raises := false; redis_set_raises := false;
     trace := []; log := [] |}.

(** A fresh deployment with the scenario file in place. *)
Definition fresh_world : World := world_of empty_stores (FileJson scenario_file).

(** An input file from which nothing survives: the first record has no
    campaign_id, the second an empty message, which [demo_encode] maps to the
    empty vector. *)
Definition unusable_file : list raw_record :=
  [<["message_id" := JStr "m8"]> (<["user_id" := JStr "A"]>
     (<["timestamp" := JStr "2024-02-01T09:00:00"]>
     (<["intent" := JStr "purchase"]> (<["message" := JStr "hello"]> ∅))));
   raw "m9" "B" "X" "2024-02-01T09:30:00" "support" ""].

(** The records that survive validation and embedding. *)
Definition scenario_records : list Conversation :=
  valid_records demo scenario_file.

(** The world after one run of the pipeline on the scenario file. *)
Definition ingested_world : World :=
  (Flow.main_data_pipeline demo fresh_world).2.

(** [extends w w' ops]: [w'] is [w] after the store calls [ops] and some log
    lines, with the input file and the Redis faults as before. *)
Definition extends (w w' : World) (ops : list op) : Prop :=
  trace w' = trace w ++ ops /\
  (exists lines, log w' = log w ++ lines) /\
  data_file w' = data_file w /\
  redis_get_raises w' = redis_get_raises w /\
  redis_set_raises w' = redis_set_raises w.

(** [runs m w r w' ops]: from [w], the call [m] ends with [r] in [w'], having
    made the store calls [ops]. *)
Definition runs {A} (m : M A) (w : World) (r : result A) (w' : World)
  (ops : list op) : Prop :=
  m w = (r, w') /\ extends w w' ops.


(** The deployment after a first ingestion, with the unusable file in
    place for the next run. *)
Definition unusable_world : World :=
  world_of (stores ingested_world) (FileJson unusable_file).

(** The ingested deployment with a Redis that fails on every call. *)
Definition redis_down_world : World :=
  with_redis_faults true true ingested_world.

(** The ingested deployment with a cache entry for user C, who has no record
    in the document store (the entry outlived a re-ingestion). *)
Definition stale_cache_world : World :=
  with_redis (<["rec:C" := ("[{}]", 300)]> ∅) ingested_world.

(** The ingested deployment after a start of the API. *)
Definition restarted_world : World := (Api.lifespan_startup ingested_world).2.

(** A document store whose only record of user D has an empty message, which
    [demo_encode] maps to the empty vector. *)
Definition silent_user_world : World :=
  world_of
    {| mongo := [{| doc_message_id := "m7"; doc_user_id := "D";
                    doc_campaign_id := "X";
                    doc_timestamp := "2024-01-04T08:00:00";
                    doc_intent := "support"; doc_message := "" |}];
       milvus := Some fresh_collection;
       neo4j := empty_graph;
       sqlite := [] |}
    FileMissing.

(** A Milvus server that refuses twice while it starts and then answers,
    in front of the ingested deployment. *)
Definition starting_milvus_world : World :=
  with_milvus_connects
    [ConnectRaises "server unavailable"; ConnectRaises "Fail connecting to server";
     Connected]
    ingested_world.

(** A Milvus server that never comes up. *)
Definition absent_milvus_world : World :=
  with_milvus_connects (replicate 12 (ConnectRaises "server unavailable"))
    ingested_world.

(** A Milvus server that comes up and then rejects the client. *)
Definition rejecting_milvus_world : World :=
  with_milvus_connects
    [ConnectRaises "server unavailable"; ConnectRaises "authentication failed";
     Connected]
    ingested_world.

(** The ingested deployment after the analytics database file was lost:
    [get_sqlite_conn] creates the table again, empty. *)
Definition lost_analytics_world : World :=
  with_stores (set_sqlite [] (stores ingested_world)) ingested_world.

(** The ingested deployment with a cache entry for user A that is not
    JSON. *)
Definition corrupt_cache_world : World :=
  with_redis (<["rec:A" := ("not json", 300)]> ∅) ingested_world.

(** The ingested deployment in front of a Milvus server that answers. *)
Definition starting_once_world : World :=
  with_milvus_connects [Connected] ingested_world.


(* ------------------------------------------------------------------ *)
(** * Properties *)

Local Open Scope py_scope.

(** ** Running a computation step by step *)

Lemma extends_refl w : extends w w [].
Proof.
  unfold extends. rewrite app_nil_r. repeat split; try done.
  exists []. by rewrite app_nil_r.
Qed.

Lemma extends_trans w1 w2 w3 ops1 ops2 :
  extends w1 w2 ops1 -> extends w2 w3 ops2 -> extends w1 w3 (ops1 ++ ops2).
Proof.
  intros (Ht1 & [l1 Hl1] & Hf1 & Hg1 & Hs1) (Ht2 & [l2 Hl2] & Hf2 & Hg2 & Hs2).
  unfold extends. repeat split; try congruence.
  - rewrite Ht2, Ht1. by rewrite app_assoc.
  - exists (l1 ++ l2). rewrite Hl2, Hl1. by rewrite app_assoc.
Qed.

Lemma mutations_app t1 t2 : mutations (t1 ++ t2) = mutations t1 ++ mutations t2.
Proof. unfold mutations. apply omap_app. Qed.

Section Runs.
Context {A B : Type}.

Lemma runs_ret (a : A) w : runs (ret a) w (Ok a) w [].
Proof. split; [reflexivity | apply extends_refl]. Qed.

Lemma runs_raise (e : exn) w : runs (raise e : M A) w (Raise e) w [].
Proof. split; [reflexivity | apply extends_refl]. Qed.

Lemma runs_bind_ok (m : M A) (k : A -> M B) w a w1 ops1 r w2 ops2 :
  runs m w (Ok a) w1 ops1 -> runs (k a) w1 r w2 ops2 ->
  runs (bind m k) w r w2 (ops1 ++ ops2).
Proof.
  intros [Hm He1] [Hk He2]. split.
  - unfold bind. by rewrite Hm.
  - by eapply extends_trans.
Qed.

Lemma runs_bind_raise (m : M A) (k : A -> M B) w e w1 ops1 :
  runs m w (Raise e) w1 ops1 -> runs (bind m k) w (Raise e) w1 ops1.
Proof.
  intros [Hm He1]. split; [|done]. unfold bind. by rewrite Hm.
Qed.

Lemma runs_try_ok (body : M A) handler w a w1 ops :
  runs body w (Ok a) w1 ops -> runs (try_except body handler) w (Ok a) w1 ops.
Proof. intros [Hm He]. split; [|done]. unfold try_except. by rewrite Hm. Qed.

Lemma runs_try_caught (body : M A) handler w e w1 ops1 h r w2 ops2 :
  runs body w (Raise e) w1 ops1 -> handler e = Some h -> runs h w1 r w2 ops2 ->
  runs (try_except body handler) w r w2 (ops1 ++ ops2).
Proof.
  intros [Hm He1] Hh [Hk He2]. split.
  - unfold try_except. by rewrite Hm, Hh.
  - by eapply extends_trans.
Qed.

Lemma runs_try_uncaught (body : M A) handler w e w1 ops1 :
  runs body w (Raise e) w1 ops1 -> handler e = None ->
  runs (try_except body handler) w (Raise e) w1 ops1.
Proof.
  intros [Hm He1] Hh. split; [|done]. unfold try_except. by rewrite Hm, Hh.
Qed.
End Runs.

Lemma runs_call o w : runs (call o) w (Ok tt) (with_trace (trace w ++ [o]) w) [o].
Proof.
  split; [reflexivity|]. unfold extends; simpl. repeat split; try done.
  exists []. by rewrite app_nil_r.
Qed.

Lemma runs_logger l m w : runs (logger l m) w (Ok tt) (with_log (log w ++ [(l, m)]) w) [].
Proof.
  split; [reflexivity|]. unfold extends; simpl. rewrite app_nil_r.
  repeat split; try done. by eexists.
Qed.

Lemma runs_modify_stores f w :
  runs (modify_stores f) w (Ok tt) (with_stores (f (stores w)) w) [].
Proof.
  split; [reflexivity|]. unfold extends; simpl. rewrite app_nil_r.
  repeat split; try done. exists []. by rewrite app_nil_r.
Qed.

Lemma runs_get_stores w : runs get_stores w (Ok (stores w)) w [].
Proof. split; [reflexivity | apply extends_refl]. Qed.

Ltac norm_world :=
  repeat progress
    cbn [with_trace with_log with_stores with_redis with_milvus_connects
         stores redis data_file milvus_connects redis_get_raises
         redis_set_raises trace log set_milvus set_mongo set_neo4j set_sqlite
         mongo milvus neo4j sqlite entities has_index loaded negb truthy].

(** Symbolic execution: [run_step] runs the head of a computation, and the
    first part of a sequence must run to its end before the rest starts. *)
Ltac run_step :=
  norm_world;
  lazymatch goal with
  | |- runs (ret _) _ _ _ _ => apply runs_ret
  | |- runs (raise _) _ _ _ _ => apply runs_raise
  | |- runs (call _) _ _ _ _ => apply runs_call
  | |- runs (logger _ _) _ _ _ _ => apply runs_logger
  | |- runs (modify_stores _) _ _ _ _ => apply runs_modify_stores
  | |- runs get_stores _ _ _ _ => apply runs_get_stores
  | |- runs (bind _ _) _ _ _ _ =>
      eapply runs_bind_ok; [solve [repeat run_step] | ]
  | |- runs Db.has_collection _ _ _ _ => unfold Db.has_collection
  | |- runs Db.drop_collection _ _ _ _ => unfold Db.drop_collection
  | |- runs Db.new_collection _ _ _ _ => unfold Db.new_collection
  | |- runs Db.collection_has_index _ _ _ _ => unfold Db.collection_has_index
  | |- runs Db.collection_create_index _ _ _ _ => unfold Db.collection_create_index
  | |- runs Db.collection_load _ _ _ _ => unfold Db.collection_load
  | |- runs Db.get_mongo_client _ _ _ _ => unfold Db.get_mongo_client
  | |- runs Db.get_redis_client _ _ _ _ => unfold Db.get_redis_client
  | |- runs Db.get_neo4j_driver _ _ _ _ => unfold Db.get_neo4j_driver
  | |- runs Db.get_sqlite_conn _ _ _ _ => unfold Db.get_sqlite_conn
  | |- runs Flow.mongo_delete_many _ _ _ _ => unfold Flow.mongo_delete_many
  | |- runs (Flow.milvus_insert _) _ _ _ _ => unfold Flow.milvus_insert
  | |- runs Flow.milvus_flush _ _ _ _ => unfold Flow.milvus_flush
  | |- runs Flow.neo4j_detach_delete_all _ _ _ _ => unfold Flow.neo4j_detach_delete_all
  | |- runs (Flow.neo4j_merge _) _ _ _ _ => unfold Flow.neo4j_merge
  | |- runs Flow.sqlite_delete_all _ _ _ _ => unfold Flow.sqlite_delete_all
  | |- runs (Flow.sqlite_append _) _ _ _ _ => unfold Flow.sqlite_append
  end.

Ltac run := repeat run_step; norm_world.

Tactic Notation "norm_world" "in" hyp(H) :=
  repeat progress
    cbn [with_trace with_log with_stores with_redis with_milvus_connects
         stores redis data_file milvus_connects redis_get_raises
         redis_set_raises trace log set_milvus set_mongo set_neo4j set_sqlite
         mongo milvus neo4j sqlite entities has_index loaded negb truthy] in H.

Lemma connections_connect_run w :
  exists r w',
    runs Db.connections_connect w r w' [MilvusConnect] /\
    stores w' = stores w /\
    match milvus_connects w with
    | [] | Connected :: _ => r = Ok tt
    | ConnectRaises text :: rest => r = Raise (MilvusException text)
    end /\ milvus_connects w' = tail (milvus_connects w).
Proof.
  unfold Db.connections_connect, runs, bind, call. simpl.
  destruct (milvus_connects w) as [|[|text] rest] eqn:Hc; simpl;
    eexists _, _; (split; [split; [reflexivity|]|]); try (simpl; rewrite ?Hc; done);
    unfold extends; simpl; repeat split; try done; exists []; by rewrite app_nil_r.
Qed.

Lemma connect_loop_run n : forall i w,
  exists r w' ops,
    runs (Db.connect_loop i n) w r w' ops /\
    stores w' = stores w /\
    mutations ops = [] /\
    (will_connect n (milvus_connects w) = true -> r = Ok tt) /\
    (will_connect n (milvus_connects w) = false -> exists e, r = Raise e).
Proof.
  induction n as [|n IH]; intros i w.
  - eexists _, _, _. split; [simpl; run|].
    simpl. repeat split; try done. eauto.
  - destruct (connections_connect_run
                (with_log (log w ++ [(INFO, MsgMilvusAttempt (i + 1) Db.retries)]) w))
      as (r & w1 & Hrun & Hst & Hr & Hc).
    simpl in Hr, Hc, Hst.
    destruct (milvus_connects w) as [|[|text] rest] eqn:Hw; subst r.
    1,2: eexists _, _, _; split;
      [ simpl; eapply runs_bind_ok;
        [ apply runs_try_ok; eapply runs_bind_ok; [run|];
          eapply runs_bind_ok; [exact Hrun|]; run
        | run ]
      | simpl; rewrite Hst; repeat split; done ].
    simpl.
    destruct (str_contains "server unavailable" text
              || str_contains "connecting" text) eqn:Hretry; simpl.
    + destruct (IH (S i)
                  (with_trace (trace w1 ++ [Sleep Db.wait_time])
                     (with_log (log w1 ++ [(WARNING, MsgMilvusNotReady text)]) w1)))
        as (r2 & w2 & ops2 & Hrun2 & Hst2 & Hm2 & Hok & Hfail).
      simpl in *. rewrite Hc in *.
      eexists _, _, _; split.
      { eapply runs_bind_ok.
        - eapply runs_try_caught.
          + eapply runs_bind_ok; [run|]. eapply runs_bind_raise. exact Hrun.
          + reflexivity.
          + rewrite Hretry. run.
        - exact Hrun2. }
      rewrite Hst2, Hst, !mutations_app, Hm2. repeat split; done.
    + eexists _, _, _; split.
      { eapply runs_bind_raise. eapply runs_try_caught.
        - eapply runs_bind_ok; [run|]. eapply runs_bind_raise. exact Hrun.
        - reflexivity.
        - rewrite Hretry. run. }
      simpl. rewrite Hst. repeat split; try done. eauto.
Qed.


Lemma get_milvus_connection_ok w :
  will_connect Db.retries (milvus_connects w) = true ->
  exists w' ops,
    runs Db.get_milvus_connection w (Ok tt) w' ops /\
    stores w' = set_milvus (Some fresh_collection) (stores w) /\
    mutations ops =
      match milvus (stores w) with Some _ => [Clear VectorStore] | None => [] end.
Proof.
  intros Hc.
  destruct (connect_loop_run Db.retries 0 w)
    as (r & w1 & ops1 & Hrun & Hst & Hm & Hok & _).
  rewrite (Hok Hc) in Hrun. clear Hok.
  unfold Db.get_milvus_connection.
  destruct (milvus (stores w)) as [c|] eqn:Hmil.
  - eexists _, _. split.
    { eapply runs_bind_ok; [exact Hrun|]. run. all: rewrite ?Hst, ?Hmil; run. all: rewrite ?Hst, ?Hmil; run. }
    norm_world. rewrite ?Hst, ?Hmil. split; [reflexivity|].
    rewrite !mutations_app, Hm. reflexivity.
  - eexists _, _. split.
    { eapply runs_bind_ok; [exact Hrun|]. run. all: rewrite ?Hst, ?Hmil; run. all: rewrite ?Hst, ?Hmil; run. }
    norm_world. rewrite ?Hst, ?Hmil. split; [reflexivity|].
    rewrite !mutations_app, Hm. reflexivity.
Qed.

Lemma get_milvus_connection_fail w :
  will_connect Db.retries (milvus_connects w) = false ->
  exists e w' ops,
    runs Db.get_milvus_connection w (Raise e) w' ops /\
    stores w' = stores w /\ mutations ops = [].
Proof.
  intros Hc.
  destruct (connect_loop_run Db.retries 0 w)
    as (r & w1 & ops1 & Hrun & Hst & Hm & _ & Hfail).
  destruct (Hfail Hc) as [e ->].
  exists e, w1, ops1. split; [|done].
  unfold Db.get_milvus_connection. by apply runs_bind_raise.
Qed.


Lemma for_each_merge_run data : forall w,
  exists w' ops,
    runs (for_each data Flow.neo4j_merge) w (Ok tt) w' ops /\
    stores w' = set_neo4j (foldl merge_record (neo4j (stores w)) data) (stores w) /\
    mutations ops = replicate (length data) (Insert GraphStore).
Proof.
  induction data as [|d data IH]; intros w.
  - eexists _, _. split; [simpl; run|]. split; [|done].
    simpl. by destruct (stores w).
  - destruct (IH (with_stores
                    (set_neo4j (merge_record (neo4j (stores w)) d) (stores w))
                    (with_trace
                       (trace w ++ [Neo4jMerge (user_id d) (Schemas.campaign_id d)
                                      (intent d) (timestamp d)]) w)))
      as (w' & ops & Hrun & Hst & Hm).
    eexists _, _. split.
    { simpl. eapply runs_bind_ok; [run|]. exact Hrun. }
    rewrite Hst, !mutations_app, Hm. split; [|done].
    norm_world. simpl. reflexivity.
Qed.

Lemma truthy_map {A B} (f : A -> B) l : truthy (map f l) = truthy l.
Proof. by destruct l. Qed.

Lemma truthy_true {A} (l : list A) : l <> [] -> truthy l = true.
Proof. by destruct l. Qed.

Lemma load_to_dbs_ok data w :
  data <> [] ->
  will_connect Db.retries (milvus_connects w) = true ->
  exists w' ops,
    runs (Flow.load_to_dbs data) w (Ok tt) w' ops /\
    stores w' = loaded_stores data /\
    mutations ops =
      code_load_order (bool_decide (milvus (stores w) <> None)) (length data).
Proof.
  intros Hne Hc.
  edestruct (get_milvus_connection_ok
               (with_log (log w ++ [(INFO, MsgLoading (length data))]) w))
    as (w1 & ops1 & Hrun1 & Hst1 & Hm1); [exact Hc|].
  edestruct (for_each_merge_run data) as (w2 & ops2 & Hrun2 & Hst2 & Hm2).
  eexists _, _. split.
  { unfold Flow.load_to_dbs.
    eapply runs_bind_ok; [run|].
    eapply runs_bind_ok; [run|].
    eapply runs_bind_ok; [exact Hrun1|].
    run. unfold Flow.mongo_insert_many.
    rewrite truthy_map, (truthy_true _ Hne).
    run. eapply runs_bind_ok; [exact Hrun2|]. run. }
  norm_world. rewrite Hst2. norm_world. rewrite Hst1. norm_world. split.
  - unfold loaded_stores. f_equal.
  - rewrite !mutations_app, Hm1, Hm2. norm_world.
    unfold code_load_order. destruct (milvus (stores w)); reflexivity.
Qed.

Lemma load_to_dbs_fail data w :
  will_connect Db.retries (milvus_connects w) = false ->
  exists e w' ops,
    runs (Flow.load_to_dbs data) w (Raise e) w' ops /\
    stores w' = stores w /\ mutations ops = [].
Proof.
  intros Hc.
  edestruct (get_milvus_connection_fail
               (with_log (log w ++ [(INFO, MsgLoading (length data))]) w))
    as (e & w1 & ops1 & Hrun1 & Hst1 & Hm1); [exact Hc|].
  eexists e, _, _. split.
  { unfold Flow.load_to_dbs.
    eapply runs_bind_ok; [run|].
    eapply runs_bind_ok; [run|].
    eapply runs_bind_raise. exact Hrun1. }
  rewrite Hst1, !mutations_app, Hm1. done.
Qed.


Lemma extract_raw_data_run w :
  exists w',
    runs Flow.extract_raw_data w (Ok (file_records (data_file w))) w' [] /\
    stores w' = stores w /\ milvus_connects w' = milvus_connects w.
Proof.
  unfold Flow.extract_raw_data, Flow.json_load_file, runs, bind, try_except,
    logger, ret. simpl.
  destruct (data_file w) eqn:Hf; simpl; eexists; (split; [split; [reflexivity|]|done]);
    unfold extends; simpl; rewrite app_nil_r, ?Hf; repeat split; try done;
    eexists; by rewrite <- ?app_assoc.
Qed.

Section Transform.
Variable E : Collaborators.

Lemma transform_item_run acc item w :
  exists w',
    runs (Flow.transform_item E acc item) w
      (Ok (acc ++ option_list (transform_one E item))) w' [] /\
    stores w' = stores w /\ milvus_connects w' = milvus_connects w.
Proof.
  unfold Flow.transform_item, Flow.new_Conversation, transform_one, runs, bind,
    try_except, logger, ret, raise.
  destruct (validate (coerce_float E) item) as [convo|]; simpl.
  - destruct (truthy (encode E (message convo))); simpl;
      eexists; (split; [split; [rewrite ?app_nil_r; reflexivity|]|done]);
      unfold extends; simpl; rewrite app_nil_r; repeat split; try done;
      first [by eexists | exists []; by rewrite app_nil_r].
  - eexists; (split; [split; [rewrite ?app_nil_r; reflexivity|]|done]);
      unfold extends; simpl; rewrite app_nil_r; repeat split; try done;
      by eexists.
Qed.

Lemma transform_loop_run data : forall acc w,
  exists w',
    runs (Flow.transform_loop E data acc) w
      (Ok (acc ++ valid_records E data)) w' [] /\
    stores w' = stores w /\ milvus_connects w' = milvus_connects w.
Proof.
  induction data as [|item data IH]; intros acc w.
  - exists w. split; [|done]. simpl. rewrite app_nil_r. apply runs_ret.
  - destruct (transform_item_run acc item w) as (w1 & Hrun1 & Hst1 & Hc1).
    destruct (IH (acc ++ option_list (transform_one E item)) w1)
      as (w2 & Hrun2 & Hst2 & Hc2).
    exists w2. split; [|split; congruence].
    assert (acc ++ valid_records E (item :: data)
            = (acc ++ option_list (transform_one E item)) ++ valid_records E data)
      as ->.
    { rewrite <- app_assoc. f_equal. unfold valid_records. simpl.
      by destruct (transform_one E item). }
    cbn [Flow.transform_loop].
    change (@nil op) with (@nil op ++ []). eapply runs_bind_ok; eauto.
Qed.

Lemma transform_and_validate_run data w :
  exists w',
    runs (Flow.transform_and_validate E data) w
      (Ok (valid_records E data)) w' [] /\
    stores w' = stores w /\ milvus_connects w' = milvus_connects w.
Proof.
  edestruct (transform_loop_run data [])
    as (w1 & Hrun1 & Hst1 & Hc1).
  eexists. split.
  { unfold Flow.transform_and_validate.
    change (@nil op) with ([] ++ ([] ++ ([] ++ @nil op))).
    eapply runs_bind_ok; [run|]. eapply runs_bind_ok; [exact Hrun1|].
    eapply runs_bind_ok; [run|]. run. }
  norm_world. rewrite Hst1, Hc1. done.
Qed.
End Transform.

Lemma runs_eq {A} (m : M A) w r w' ops :
  runs m w r w' ops -> m w = (r, w').
Proof. by intros [? ?]. Qed.

Lemma runs_new_trace {A} (m : M A) w r w' ops :
  runs m w r w' ops -> new_trace m w = ops.
Proof.
  intros [Hm (Ht & _)]. unfold new_trace. rewrite Hm. simpl.
  rewrite Ht. by rewrite drop_app_length.
Qed.

Lemma runs_data_file {A} (m : M A) w r w' ops :
  runs m w r w' ops -> data_file w' = data_file w.
Proof. by intros [_ (_ & _ & ? & _)]. Qed.

Lemma runs_log {A} (m : M A) w r w' ops :
  runs m w r w' ops -> exists lines, log w' = log w ++ lines.
Proof. by intros [_ (_ & ? & _)]. Qed.

Section Main.
Variable E : Collaborators.

Lemma main_halts w :
  valid_records E (file_records (data_file w)) = [] ->
  exists w1 m,
    runs (Flow.main_data_pipeline E) w (Ok tt)
      (with_log (log w1 ++ [(ERROR, m)]) w1) [] /\
    stores w1 = stores w /\
    (exists lines, log w1 = log w ++ lines).
Proof.
  intros Hv.
  destruct (extract_raw_data_run
              (with_log (log w ++ [(INFO, MsgPipelineStarting)]) w))
    as (w1 & Hrun1 & Hst1 & Hc1).
  norm_world in Hrun1. norm_world in Hst1. norm_world in Hc1.
  destruct (file_records (data_file w)) as [|item rest] eqn:Hf.
  - eexists _, _. split.
    { unfold Flow.main_data_pipeline.
      change (@nil op) with ([] ++ ([] ++ @nil op)).
      eapply runs_bind_ok; [run|]. eapply runs_bind_ok.
      { norm_world. exact Hrun1. }
      run. }
    norm_world. destruct (runs_log _ _ _ _ _ Hrun1) as [lines Hl]. norm_world in Hl.
    split; [by rewrite Hst1|]. rewrite Hl, <- app_assoc. by eexists.
  - edestruct (transform_and_validate_run E (item :: rest))
      as (w2 & Hrun2 & Hst2 & Hc2).
    rewrite Hv in Hrun2.
    eexists _, _. split.
    { unfold Flow.main_data_pipeline.
      change (@nil op) with ([] ++ ([] ++ ([] ++ @nil op))).
      eapply runs_bind_ok; [run|]. eapply runs_bind_ok.
      { norm_world. exact Hrun1. }
      norm_world. eapply runs_bind_ok; [exact Hrun2|]. run. }
    norm_world.
    destruct (runs_log _ _ _ _ _ Hrun1) as [l1 Hl1]. norm_world in Hl1.
    destruct (runs_log _ _ _ _ _ Hrun2) as [l2 Hl2].
    split; [by rewrite Hst2, Hst1|]. rewrite Hl2, Hl1, <- !app_assoc. by eexists.
Qed.

Lemma main_loads w :
  valid_records E (file_records (data_file w)) <> [] ->
  will_connect Db.retries (milvus_connects w) = true ->
  exists w' ops,
    runs (Flow.main_data_pipeline E) w (Ok tt) w' ops /\
    stores w' = loaded_stores (valid_records E (file_records (data_file w))) /\
    mutations ops =
      code_load_order (bool_decide (milvus (stores w) <> None))
        (length (valid_records E (file_records (data_file w)))).
Proof.
  intros Hv Hc.
  destruct (extract_raw_data_run
              (with_log (log w ++ [(INFO, MsgPipelineStarting)]) w))
    as (w1 & Hrun1 & Hst1 & Hc1).
  norm_world in Hrun1. norm_world in Hst1. norm_world in Hc1.
  edestruct (transform_and_validate_run E (file_records (data_file w)))
    as (w2 & Hrun2 & Hst2 & Hc2).
  edestruct (load_to_dbs_ok (valid_records E (file_records (data_file w))))
    as (w3 & ops3 & Hrun3 & Hst3 & Hm3); [exact Hv| |].
  2:{ assert (truthy (file_records (data_file w)) = true) as Ht1.
      { destruct (file_records (data_file w)); [done|done]. }
      eexists _, _. split.
      { unfold Flow.main_data_pipeline.
        eapply runs_bind_ok; [run|]. eapply runs_bind_ok.
        { norm_world. exact Hrun1. }
        norm_world. rewrite Ht1. norm_world.
        eapply runs_bind_ok; [exact Hrun2|].
        rewrite (truthy_true _ Hv). norm_world.
        eapply runs_bind_ok; [exact Hrun3|]. run. }
      norm_world. rewrite Hst3, !mutations_app, Hm3. split; [done|].
      rewrite Hst2, Hst1. norm_world. by rewrite app_nil_r. }
  rewrite Hc2, Hc1. exact Hc.
Qed.

Lemma main_connection_fails w :
  valid_records E (file_records (data_file w)) <> [] ->
  will_connect Db.retries (milvus_connects w) = false ->
  exists e w' ops,
    runs (Flow.main_data_pipeline E) w (Raise e) w' ops /\
    stores w' = stores w /\ mutations ops = [].
Proof.
  intros Hv Hc.
  destruct (extract_raw_data_run
              (with_log (log w ++ [(INFO, MsgPipelineStarting)]) w))
    as (w1 & Hrun1 & Hst1 & Hc1).
  norm_world in Hrun1. norm_world in Hst1. norm_world in Hc1.
  edestruct (transform_and_validate_run E (file_records (data_file w)))
    as (w2 & Hrun2 & Hst2 & Hc2).
  edestruct (load_to_dbs_fail (valid_records E (file_records (data_file w))))
    as (e & w3 & ops3 & Hrun3 & Hst3 & Hm3).
  2:{ assert (truthy (file_records (data_file w)) = true) as Ht1.
      { destruct (file_records (data_file w)); [done|done]. }
      eexists e, _, _. split.
      { unfold Flow.main_data_pipeline.
        eapply runs_bind_ok; [run|]. eapply runs_bind_ok.
        { norm_world. exact Hrun1. }
        norm_world. rewrite Ht1. norm_world.
        eapply runs_bind_ok; [exact Hrun2|].
        rewrite (truthy_true _ Hv). norm_world.
        eapply runs_bind_raise. exact Hrun3. }
      rewrite Hst3, Hst2, Hst1, !mutations_app, Hm3. done. }
  rewrite Hc2, Hc1. exact Hc.
Qed.
End Main.

(** pandas' group sizes, read back from the table. *)
Lemma group_size_zero k data :
  group_size k data = 0%nat <-> k ∉ map group_key data.
Proof.
  unfold group_size. induction data as [|d data IH]; simpl.
  - split; [intros _; apply not_elem_of_nil | done].
  - rewrite filter_cons. rewrite not_elem_of_cons.
    destruct (decide (group_key d = k)) as [Heq|Hne]; simpl.
    + split; [done|]. intros [Hk _]. by destruct Hk.
    + rewrite IH. split; [by split|]. by intros [_ ?].
Qed.

Lemma counts_for_keys data uid cid ks :
  NoDup ks ->
  counts_for
    (map (fun k : string * string =>
            {| row_user_id := k.1; row_campaign_id := k.2;
               engagement_count := Z.of_nat (group_size k data) |}) ks)
    uid cid
  = if decide ((uid, cid) ∈ ks)
    then [Z.of_nat (group_size (uid, cid) data)] else [].
Proof.
  unfold counts_for. induction ks as [|[u c] ks IH]; intros Hnd.
  - destruct (decide ((uid, cid) ∈ [])) as [H|]; [by apply not_elem_of_nil in H | done].
  - apply NoDup_cons in Hnd as [Hnotin Hnd]. specialize (IH Hnd).
    simpl. rewrite filter_cons. simpl.
    destruct (decide (u = uid /\ c = cid)) as [[-> ->]|Hne]; simpl.
    + rewrite IH. rewrite decide_False by done.
      rewrite decide_True by (apply elem_of_cons; by left). done.
    + rewrite IH. destruct (decide ((uid, cid) ∈ ks)) as [Hin|Hnin].
      * rewrite decide_True by (apply elem_of_cons; by right). done.
      * rewrite decide_False; [done|]. rewrite not_elem_of_cons. split; [|done].
        intros [= -> ->]. by apply Hne.
Qed.

Lemma counts_for_groupby data uid cid :
  counts_for (groupby_size data) uid cid
  = if decide (group_size (uid, cid) data = 0%nat)
    then [] else [Z.of_nat (group_size (uid, cid) data)].
Proof.
  unfold groupby_size. rewrite counts_for_keys.
  - destruct (decide (group_size (uid, cid) data = 0%nat)) as [Hz|Hnz].
    + rewrite decide_False; [done|].
      rewrite merge_sort_Permutation, elem_of_remove_dups.
      by apply group_size_zero.
    + rewrite decide_True; [done|].
      rewrite merge_sort_Permutation, elem_of_remove_dups.
      destruct (decide ((uid, cid) ∈ map group_key data)) as [|Hn]; [done|].
      by apply group_size_zero in Hn.
  - rewrite merge_sort_Permutation. apply NoDup_remove_dups.
Qed.


(** ** The ingestion pipeline *)

(** C2, as amended.  For a non-empty list of records and a Milvus server that
    can be reached, [load_to_dbs] returns, and its clears and inserts are, in
    this order: the drop of the Milvus collection if there is one (it happens
    while the handles are obtained), then the clear and the insert of the
    document store, the insert of the vector store, the clear of the graph
    store and one MERGE per record, the clear and the insert of the
    analytics store. *)
Theorem load_order_of_the_code (data : list Conversation) (w : World) :
  data <> [] ->
  will_connect Db.retries (milvus_connects w) = true ->
  (Flow.load_to_dbs data w).1 = Ok tt /\
  mutations (new_trace (Flow.load_to_dbs data) w)
  = code_load_order (bool_decide (milvus (stores w) <> None)) (length data).
Proof.
  intros Hne Hc.
  destruct (load_to_dbs_ok data w Hne Hc) as (w' & ops & Hrun & _ & Hm).
  rewrite (runs_new_trace _ _ _ _ _ Hrun), (runs_eq _ _ _ _ _ Hrun). done.
Qed.

Lemma load_order_of_the_code_witness :
  (Flow.load_to_dbs scenario_records ingested_world).1 = Ok tt /\
  mutations (new_trace (Flow.load_to_dbs scenario_records) ingested_world)
  = [Clear VectorStore; Clear DocumentStore; Insert DocumentStore;
     Insert VectorStore; Clear GraphStore; Insert GraphStore;
     Insert GraphStore; Insert GraphStore; Clear AnalyticsStore;
     Insert AnalyticsStore].
Proof.
  apply (load_order_of_the_code scenario_records ingested_world).
  - vm_compute. discriminate.
  - vm_compute. reflexivity.
Defined.

(** C2 as stated fails: on a deployment that has been loaded once, a load of
    the three scenario records drops the Milvus collection before
    [delete_many] empties the document store, and no clear of the vector
    store stands between the two inserts. *)
Lemma vector_store_cleared_before_document_store :
  scenario_records <> [] /\
  mutations (new_trace (Flow.load_to_dbs scenario_records) ingested_world)
  <> spec_load_order (length scenario_records) /\
  take 2 (mutations (new_trace (Flow.load_to_dbs scenario_records) ingested_world))
  = [Clear VectorStore; Clear DocumentStore].
Proof.
  split; [|split].
  - vm_compute. discriminate.
  - vm_compute. discriminate.
  - vm_compute. reflexivity.
Qed.

(** C3.  When the input file is missing, is not JSON, or holds a batch from
    which no record survives validation and embedding (the empty batch
    included), a run of the pipeline returns, makes no store call at all,
    leaves the four stores as they were, and the last line it logs is an
    error. *)
Theorem unusable_batch_halts_without_mutation (E : Collaborators) (w : World) :
  data_file w = FileMissing \/
  data_file w = FileNotJson \/
  (exists batch, data_file w = FileJson batch /\ valid_records E batch = []) ->
  (Flow.main_data_pipeline E w).1 = Ok tt /\
  stores (Flow.main_data_pipeline E w).2 = stores w /\
  new_trace (Flow.main_data_pipeline E) w = [] /\
  exists m, last (new_log (Flow.main_data_pipeline E) w) = Some (ERROR, m).
Proof.
  intros H.
  assert (valid_records E (file_records (data_file w)) = []) as Hv.
  { destruct H as [-> | [-> | (batch & -> & Hb)]]; done. }
  destruct (main_halts E w Hv) as (w1 & m & Hrun & Hst & [lines Hl]).
  rewrite (runs_new_trace _ _ _ _ _ Hrun).
  unfold new_log. rewrite (runs_eq _ _ _ _ _ Hrun). simpl.
  repeat split; try done. exists m.
  rewrite Hl, <- app_assoc, drop_app_length. apply last_snoc.
Qed.

Lemma unusable_batch_halts_without_mutation_witness :
  (Flow.main_data_pipeline demo unusable_world).1 = Ok tt /\
  stores (Flow.main_data_pipeline demo unusable_world).2
  = stores unusable_world /\
  new_trace (Flow.main_data_pipeline demo) unusable_world = [] /\
  exists m,
    last (new_log (Flow.main_data_pipeline demo) unusable_world)
    = Some (ERROR, m).
Proof.
  apply (unusable_batch_halts_without_mutation demo unusable_world).
  right. right. exists unusable_file. split; vm_compute; reflexivity.
Defined.

(** C4.  After a run on a batch with at least one surviving record and a
    reachable Milvus server, the analytics table holds, for every pair
    (user_id, campaign_id), exactly one row with the number of surviving
    records of that pair when there is such a record, and no row when there
    is none. *)
Theorem analytics_counts_match_records (E : Collaborators) (w : World)
  (batch : list raw_record) :
  data_file w = FileJson batch ->
  valid_records E batch <> [] ->
  will_connect Db.retries (milvus_connects w) = true ->
  (Flow.main_data_pipeline E w).1 = Ok tt /\
  forall uid cid,
    counts_for (sqlite (stores (Flow.main_data_pipeline E w).2)) uid cid
    = if decide (group_size (uid, cid) (valid_records E batch) = 0%nat)
      then []
      else [Z.of_nat (group_size (uid, cid) (valid_records E batch))].
Proof.
  intros Hf Hv Hc.
  destruct (main_loads E w) as (w' & ops & Hrun & Hst & _);
    [by rewrite Hf | done |].
  rewrite (runs_eq _ _ _ _ _ Hrun). simpl. split; [done|].
  intros uid cid. rewrite Hst, Hf. simpl. apply counts_for_groupby.
Qed.

Lemma analytics_counts_match_records_witness :
  (Flow.main_data_pipeline demo fresh_world).1 = Ok tt /\
  forall uid cid,
    counts_for (sqlite (stores (Flow.main_data_pipeline demo fresh_world).2))
      uid cid
    = if decide (group_size (uid, cid) (valid_records demo scenario_file) = 0%nat)
      then []
      else [Z.of_nat (group_size (uid, cid) (valid_records demo scenario_file))].
Proof.
  apply (analytics_counts_match_records demo fresh_world scenario_file).
  - reflexivity.
  - vm_compute. discriminate.
  - reflexivity.
Defined.

(** The scenario of §8: rows {A,X,2} and {B,X,1}. *)
Example scenario_engagement_rows :
  sqlite (stores ingested_world)
  = [{| row_user_id := "A"; row_campaign_id := "X"; engagement_count := 2 |};
     {| row_user_id := "B"; row_campaign_id := "X"; engagement_count := 1 |}].
Proof. vm_compute. reflexivity. Qed.

(** C5.  After a run of the pipeline that has returned, a second run on the
    same input leaves the four stores with the contents that the first run
    gave them. *)
Theorem second_run_changes_nothing (E : Collaborators) (w : World) :
  (Flow.main_data_pipeline E w).1 = Ok tt ->
  stores (Flow.main_data_pipeline E (Flow.main_data_pipeline E w).2).2
  = stores (Flow.main_data_pipeline E w).2.
Proof.
  intros Hok.
  assert (valid_records E (file_records (data_file w)) = [] \/
          valid_records E (file_records (data_file w)) <> []) as [Hv|Hv].
  { destruct (valid_records E (file_records (data_file w))); [by left|by right]. }
  - destruct (main_halts E w Hv) as (w1 & m & Hrun & Hst & _).
    rewrite (runs_eq _ _ _ _ _ Hrun). simpl.
    pose proof (runs_data_file _ _ _ _ _ Hrun) as Hf.
    destruct (main_halts E (with_log (log w1 ++ [(ERROR, m)]) w1))
      as (w2 & m2 & Hrun2 & Hst2 & _); [by rewrite Hf|].
    rewrite (runs_eq _ _ _ _ _ Hrun2). simpl. exact Hst2.
  - destruct (will_connect Db.retries (milvus_connects w)) eqn:Hc.
    + destruct (main_loads E w Hv Hc) as (w1 & ops & Hrun & Hst & _).
      rewrite (runs_eq _ _ _ _ _ Hrun). simpl.
      pose proof (runs_data_file _ _ _ _ _ Hrun) as Hf.
      destruct (will_connect Db.retries (milvus_connects w1)) eqn:Hc1.
      * destruct (main_loads E w1) as (w2 & ops2 & Hrun2 & Hst2 & _);
          [by rewrite Hf | done |].
        rewrite (runs_eq _ _ _ _ _ Hrun2). simpl. by rewrite Hst2, Hst, Hf.
      * destruct (main_connection_fails E w1) as (e & w2 & ops2 & Hrun2 & Hst2 & _);
          [by rewrite Hf | done |].
        rewrite (runs_eq _ _ _ _ _ Hrun2). simpl. exact Hst2.
    + destruct (main_connection_fails E w Hv Hc) as (e & w1 & ops & Hrun & _).
      rewrite (runs_eq _ _ _ _ _ Hrun) in Hok. discriminate.
Qed.

Lemma second_run_changes_nothing_witness :
  stores (Flow.main_data_pipeline demo
            (Flow.main_data_pipeline demo fresh_world).2).2
  = stores (Flow.main_data_pipeline demo fresh_world).2.
Proof.
  apply (second_run_changes_nothing demo fresh_world).
  vm_compute. reflexivity.
Defined.


(** ** The retrieval API, path by path *)

Lemma get_recommendations_split E user_id :
  Api.get_recommendations E user_id
  = (returned <- cache_check E user_id ;;
     match returned with
     | Some response => ret response
     | None => on_miss E user_id
     end).
Proof. reflexivity. Qed.

Lemma runs_ops_eq {A} (m : M A) w r w' ops ops' :
  runs m w r w' ops -> ops = ops' -> runs m w r w' ops'.
Proof. by intros ? <-. Qed.

Lemma extends_only_trace w t ops :
  t = trace w ++ ops -> extends w (with_trace t w) ops.
Proof.
  intros ->. unfold extends; simpl. repeat split; try done.
  exists []. by rewrite app_nil_r.
Qed.

Lemma runs_redis_get key w :
  runs (Api.redis_get key) w
    (if redis_get_raises w then Raise RedisError
     else Ok (fst <$> redis w !! key))
    (with_trace (trace w ++ [RedisGet key]) w) [RedisGet key].
Proof.
  unfold runs, Api.redis_get, bind, call. simpl.
  destruct (redis_get_raises w); (split; [done|]); by apply extends_only_trace.
Qed.

Lemma runs_redis_set key value ex w :
  runs (Api.redis_set key value ex) w
    (if redis_set_raises w then Raise RedisError else Ok tt)
    (if redis_set_raises w then with_trace (trace w ++ [RedisSet key value ex]) w
     else with_redis (<[key := (value, ex)]> (redis w))
            (with_trace (trace w ++ [RedisSet key value ex]) w))
    [RedisSet key value ex].
Proof.
  unfold runs, Api.redis_set, bind, call. simpl.
  destruct (redis_set_raises w); (split; [done|]).
  - by apply extends_only_trace.
  - unfold extends; simpl. repeat split; try done. exists []. by rewrite app_nil_r.
Qed.

(** [reach_with t]: the world that the run [t] reaches is the witness, and
    its trace, stores and cache are then read off. *)
Tactic Notation "reach_with" tactic(t) :=
  eexists; split;
  [ eapply runs_ops_eq; [ t | reflexivity ] | by norm_world ].

Lemma runs_rewrite_result {A} (m : M A) w r w' r0 w0 ops :
  runs m w r0 w0 ops -> (r0, w0) = (r, w') -> runs m w r w' ops.
Proof. by intros ? [= <- <-]. Qed.

Section Retrieval.
Variable E : Collaborators.

Lemma cache_check_run user_id w :
  exists w1,
    runs (cache_check E user_id) w
      (Ok (cached_response user_id <$> cache_lookup E user_id w)) w1
      [RedisGet ("rec:" +:+ user_id)] /\
    stores w1 = stores w /\ redis w1 = redis w.
Proof.
  pose proof (runs_redis_get ("rec:" +:+ user_id) w) as Hget.
  unfold cache_check, cache_lookup.
  destruct (redis_get_raises w); simpl.
  { reach_with
      (eapply runs_try_caught;
       [eapply runs_bind_raise; exact Hget | reflexivity | run]). }
  destruct (redis w !! ("rec:" +:+ user_id)) as [[text ttl]|]; simpl in *.
  2:{ reach_with
        (eapply runs_try_ok; eapply runs_bind_ok; [exact Hget | run]). }
  destruct (str_truthy text) eqn:Htext; simpl.
  2:{ reach_with
        (eapply runs_try_ok; eapply runs_bind_ok; [exact Hget |];
         norm_world; rewrite Htext; run). }
  destruct (json_loads E text) as [value|] eqn:Hloads; simpl.
  - reach_with
      (eapply runs_try_ok; eapply runs_bind_ok; [exact Hget|];
       norm_world; rewrite Htext;
       eapply runs_bind_ok; [run|];
       unfold Api.loads; rewrite Hloads; run).
  - reach_with
      (eapply runs_try_caught; [|reflexivity|run];
       eapply runs_bind_ok; [exact Hget|];
       norm_world; rewrite Htext;
       eapply runs_bind_ok; [run|];
       unfold Api.loads; rewrite Hloads; eapply runs_bind_raise; run).
Qed.

Lemma get_user_query_vector_run user_id w :
  runs (Api.get_user_query_vector E user_id) w
    (Ok (query_vector_of E user_id (stores w)))
    (with_trace (trace w ++ [MongoFindOne user_id]) w) [MongoFindOne user_id].
Proof.
  eapply runs_ops_eq.
  - unfold Api.get_user_query_vector, Api.mongo_find_one, query_vector_of,
      seed_record.
    eapply runs_bind_ok; [run|]. norm_world.
    destruct (find _ (mongo (stores w))); simpl; run.
  - reflexivity.
Qed.

Lemma search_similar_users_run query_vector w :
  runs (Api.search_similar_users E query_vector 5) w
    (Ok (similar_users E (stores w) query_vector))
    (with_trace (trace w ++ [MilvusSearch query_vector 5]) w)
    [MilvusSearch query_vector 5].
Proof.
  eapply runs_ops_eq; [unfold Api.search_similar_users; run | reflexivity].
Qed.

Lemma expand_no_similar user_id w :
  exists w',
    runs (expand_and_rank E user_id []) w (Ok (empty_response user_id)) w' [] /\
    stores w' = stores w /\ redis w' = redis w.
Proof. reach_with (unfold expand_and_rank; run). Qed.

Lemma expand_no_campaigns user_id ids w :
  ids <> [] ->
  match_campaigns (neo4j (stores w)) ids = [] ->
  exists w',
    runs (expand_and_rank E user_id ids) w (Ok (empty_response user_id)) w'
      [Neo4jMatchCampaigns ids] /\
    stores w' = stores w /\ redis w' = redis w.
Proof.
  intros Hids Hnone.
  reach_with
    (unfold expand_and_rank, Api.fetch_campaigns_for_users;
     rewrite (truthy_true _ Hids); norm_world;
     eapply runs_bind_ok; [run|]; norm_world; rewrite Hnone; run).
Qed.

Lemma expand_ranked user_id ids w :
  ids <> [] ->
  match_campaigns (neo4j (stores w)) ids <> [] ->
  exists w',
    runs (expand_and_rank E user_id ids) w
      (Ok (ranked_response user_id (stores w)
            (match_campaigns (neo4j (stores w)) ids)))
      w'
      [Neo4jMatchCampaigns ids; SqliteCreateTableIfNotExists;
       SqliteSelectRanked (match_campaigns (neo4j (stores w)) ids); SqliteClose;
       RedisSet ("rec:" +:+ user_id)
         (json_dumps E
            (Api.recs_json
               (Api.annotate
                  (ranked_for (stores w)
                     (match_campaigns (neo4j (stores w)) ids)))))
         Config.RECOMMENDATION_CACHE_TTL_SECONDS] /\
    stores w' = stores w /\
    redis w' = cache_after_write E user_id w (match_campaigns (neo4j (stores w)) ids).
Proof.
  intros Hids Hsome.
  unfold cache_after_write.
  destruct (redis_set_raises w) eqn:Hflag.
  - reach_with
      (unfold expand_and_rank, Api.fetch_campaigns_for_users,
         Api.rank_campaigns_by_engagement;
       rewrite (truthy_true _ Hids); norm_world;
       eapply runs_bind_ok; [run|]; norm_world;
       rewrite (truthy_true _ Hsome); run;
       eapply runs_bind_ok; [|run];
       eapply runs_try_caught; [|reflexivity|run];
       eapply runs_rewrite_result; [apply runs_redis_set|];
       norm_world; by rewrite Hflag).
  - reach_with
      (unfold expand_and_rank, Api.fetch_campaigns_for_users,
         Api.rank_campaigns_by_engagement;
       rewrite (truthy_true _ Hids); norm_world;
       eapply runs_bind_ok; [run|]; norm_world;
       rewrite (truthy_true _ Hsome); run;
       eapply runs_bind_ok; [|run];
       eapply runs_try_ok;
       eapply runs_rewrite_result; [apply runs_redis_set|];
       norm_world; by rewrite Hflag).
Qed.

Lemma on_miss_not_found user_id w :
  query_vector_of E user_id (stores w) = None \/
  query_vector_of E user_id (stores w) = Some [] ->
  exists w',
    runs (on_miss E user_id) w (Raise (Api.not_found user_id)) w'
      [MongoFindOne user_id] /\
    stores w' = stores w /\ redis w' = redis w.
Proof.
  intros Hq.
  reach_with
    (unfold on_miss; eapply runs_bind_ok; [run|];
     eapply runs_bind_ok; [apply get_user_query_vector_run|];
     norm_world; destruct Hq as [-> | ->]; run).
Qed.

Lemma on_miss_searches user_id w query_vector :
  query_vector_of E user_id (stores w) = Some query_vector ->
  query_vector <> [] ->
  exists w1,
    stores w1 = stores w /\ redis w1 = redis w /\
    redis_set_raises w1 = redis_set_raises w /\
    forall r w' ops,
      runs (expand_and_rank E user_id (similar_users E (stores w) query_vector))
        w1 r w' ops ->
      runs (on_miss E user_id) w r w'
        (MongoFindOne user_id :: MilvusSearch query_vector 5 :: ops).
Proof.
  intros Hq Hne.
  eexists. split; [|split; [|split]]; cycle 3.
  - intros r w' ops Hrun.
    eapply runs_ops_eq.
    + unfold on_miss. eapply runs_bind_ok; [run|].
      eapply runs_bind_ok; [apply get_user_query_vector_run|].
      norm_world. rewrite Hq. destruct query_vector as [|x q]; [done|].
      eapply runs_bind_ok; [apply search_similar_users_run|].
      eapply runs_bind_ok; [run|]. exact Hrun.
    + reflexivity.
  - by norm_world.
  - by norm_world.
  - by norm_world.
Qed.

Lemma runs_flags {A} (m : M A) w r w' ops :
  runs m w r w' ops ->
  redis_get_raises w' = redis_get_raises w /\
  redis_set_raises w' = redis_set_raises w.
Proof. by intros [_ (_ & _ & _ & ? & ?)]. Qed.

Lemma runs_outcome {A} (m : M A) w r w' ops :
  runs m w r w' ops ->
  (m w).1 = r /\ (m w).2 = w' /\ new_trace m w = ops.
Proof.
  intros Hrun. rewrite (runs_new_trace _ _ _ _ _ Hrun).
  by rewrite (runs_eq _ _ _ _ _ Hrun).
Qed.

(** Every request ends in one of the five ways, and leaves the four stores
    as they were. *)
Lemma get_recommendations_served user_id w :
  served E user_id w
    (Api.get_recommendations E user_id w).1
    (new_trace (Api.get_recommendations E user_id) w)
    (redis (Api.get_recommendations E user_id w).2) /\
  stores (Api.get_recommendations E user_id w).2 = stores w.
Proof.
  rewrite get_recommendations_split.
  destruct (cache_check_run user_id w) as (w1 & Hcheck & Hst1 & Hr1).
  destruct (runs_flags _ _ _ _ _ Hcheck) as [_ Hset1].
  destruct (cache_lookup E user_id w) as [value|] eqn:Hlookup; simpl in Hcheck.
  { assert (runs (returned <- cache_check E user_id ;;
                  match returned with
                  | Some response => ret response
                  | None => on_miss E user_id
                  end) w (Ok (cached_response user_id value)) w1
                ([RedisGet ("rec:" +:+ user_id)] ++ [])) as Hrun.
    { eapply runs_bind_ok; [exact Hcheck|]. apply runs_ret. }
    destruct (runs_outcome _ _ _ _ _ Hrun) as (-> & -> & ->).
    rewrite Hr1. split; [by apply served_hit | done]. }
  assert (forall r w' ops,
            runs (on_miss E user_id) w1 r w' ops ->
            runs (returned <- cache_check E user_id ;;
                  match returned with
                  | Some response => ret response
                  | None => on_miss E user_id
                  end) w r w' (RedisGet ("rec:" +:+ user_id) :: ops)) as Hmiss.
  { intros r w' ops Hrun.
    change (RedisGet ("rec:" +:+ user_id) :: ops)
      with ([RedisGet ("rec:" +:+ user_id)] ++ ops).
    eapply runs_bind_ok; [exact Hcheck|]. exact Hrun. }
  destruct (query_vector_of E user_id (stores w)) as [[|x query_vector]|] eqn:Hq.
  3:{ destruct (on_miss_not_found user_id w1) as (w' & Hrun & Hst & Hr);
        [left; by rewrite Hst1|].
      destruct (runs_outcome _ _ _ _ _ (Hmiss _ _ _ Hrun)) as (-> & -> & ->).
      rewrite Hr, Hr1, Hst, Hst1. split; [|done].
      apply served_not_found; [done|by left]. }
  { destruct (on_miss_not_found user_id w1) as (w' & Hrun & Hst & Hr);
      [right; by rewrite Hst1|].
    destruct (runs_outcome _ _ _ _ _ (Hmiss _ _ _ Hrun)) as (-> & -> & ->).
    rewrite Hr, Hr1, Hst, Hst1. split; [|done].
    apply served_not_found; [done|by right]. }
  destruct (on_miss_searches user_id w1 (x :: query_vector))
    as (w2 & Hst2 & Hr2 & Hset2 & Hsearch); [by rewrite Hst1|done|].
  rewrite Hst1 in Hsearch.
  destruct (similar_users E (stores w) (x :: query_vector))
    as [|id ids] eqn:Hsim.
  { destruct (expand_no_similar user_id w2) as (w' & Hrun & Hst & Hr).
    destruct (runs_outcome _ _ _ _ _ (Hmiss _ _ _ (Hsearch _ _ _ Hrun)))
      as (-> & -> & ->).
    rewrite Hr, Hr2, Hr1, Hst, Hst2, Hst1. split; [|done].
    by apply served_no_similar_users. }
  destruct (match_campaigns (neo4j (stores w)) (id :: ids))
    as [|cid cids] eqn:Hcamp.
  { destruct (expand_no_campaigns user_id (id :: ids) w2) as (w' & Hrun & Hst & Hr);
      [done|by rewrite Hst2, Hst1|].
    destruct (runs_outcome _ _ _ _ _ (Hmiss _ _ _ (Hsearch _ _ _ Hrun)))
      as (-> & -> & ->).
    rewrite Hr, Hr2, Hr1, Hst, Hst2, Hst1. split; [|done].
    rewrite <- Hsim. apply served_no_campaigns; rewrite ?Hsim; done. }
  destruct (expand_ranked user_id (id :: ids) w2) as (w' & Hrun & Hst & Hr);
    [done|by rewrite Hst2, Hst1, Hcamp|].
  rewrite Hst2, Hst1, Hcamp in Hrun.
  destruct (runs_outcome _ _ _ _ _ (Hmiss _ _ _ (Hsearch _ _ _ Hrun)))
    as (-> & -> & ->).
  rewrite Hst, Hst2, Hst1. split; [|done].
  assert (redis w' = cache_after_write E user_id w (cid :: cids)) as ->.
  { rewrite Hr. unfold cache_after_write.
    by rewrite Hst2, Hst1, Hcamp, Hset2, Hset1, Hr2, Hr1. }
  rewrite <- Hsim. eapply served_ranked; rewrite ?Hsim; done.
Qed.
End Retrieval.

(** ** The retrieval API: what a request does *)

Section Requests.
Variable E : Collaborators.

Lemma served_outcome user_id w r t c :
  served E user_id w r t c ->
  r = match cache_lookup E user_id w with
      | Some value => Ok (cached_response user_id value)
      | None => miss_outcome E user_id (stores w)
      end.
Proof.
  unfold miss_outcome.
  destruct 1 as [v Hl | Hl [Hq|Hq] | q Hl Hq Hne Hs | q Hl Hq Hne Hs Hc
                | q cids Hl Hq Hne Hs Hc Hcs]; rewrite Hl; try done.
  - by rewrite Hq.
  - by rewrite Hq.
  - rewrite Hq, Hs. by destruct q.
  - rewrite Hq. destruct q as [|x q]; [done|].
    remember (similar_users E (stores w) (x :: q)) as ids.
    destruct ids; [done|]. by rewrite Hc.
  - rewrite Hq. destruct q as [|x q]; [done|].
    remember (similar_users E (stores w) (x :: q)) as ids.
    destruct ids; [done|]. rewrite Hc. by destruct cids.
Qed.

Lemma get_recommendations_outcome user_id w :
  (Api.get_recommendations E user_id w).1
  = match cache_lookup E user_id w with
    | Some value => Ok (cached_response user_id value)
    | None => miss_outcome E user_id (stores w)
    end.
Proof.
  eapply served_outcome, (get_recommendations_served E user_id w).
Qed.

Lemma miss_outcome_cases user_id s r :
  miss_outcome E user_id s = r ->
  r = Raise (Api.not_found user_id) \/
  exists resp, r = Ok resp /\
               Api.retrieval_source resp = "computed" /\
               Api.resp_user_id resp = user_id.
Proof.
  unfold miss_outcome. intros <-.
  destruct (query_vector_of E user_id s) as [[|x q]|]; [by left| |by left].
  destruct (similar_users E s (x :: q)) as [|id ids]; [right; by eexists|].
  destruct (match_campaigns (neo4j s) (id :: ids)); right; by eexists.
Qed.

(** A request changes nothing in the document, vector, graph and analytics
    stores; of the calls it makes, only the cache write of step 4 clears or
    inserts anything, and it touches the cache at the user's key only. *)
Theorem request_leaves_the_four_stores (user_id : string) (w : World) :
  stores (Api.get_recommendations E user_id w).2 = stores w /\
  (mutations (new_trace (Api.get_recommendations E user_id) w) = [] \/
   mutations (new_trace (Api.get_recommendations E user_id) w)
   = [Insert CacheStore]) /\
  forall key, key <> "rec:" +:+ user_id ->
    redis (Api.get_recommendations E user_id w).2 !! key = redis w !! key.
Proof.
  destruct (get_recommendations_served E user_id w) as [Hserved Hst].
  split; [exact Hst|].
  destruct Hserved; (split; [by (left + right)|]); try done.
  intros key Hkey. unfold cache_after_write.
  destruct (redis_set_raises w); [done|]. by rewrite lookup_insert_ne.
Qed.

Lemma cache_lookup_when_get_raises user_id w :
  redis_get_raises w = true -> cache_lookup E user_id w = None.
Proof. unfold cache_lookup. by intros ->. Qed.

Lemma cache_lookup_as_miss user_id w :
  cache_lookup E user_id (as_miss user_id w) = None.
Proof. unfold cache_lookup, as_miss. simpl. by rewrite lookup_delete_eq. Qed.

Lemma seed_record_absent user_id s :
  Forall (fun d => doc_user_id d <> user_id) (mongo s) ->
  seed_record user_id s = None.
Proof.
  unfold seed_record. induction 1 as [|d l Hd _ IH]; [done|].
  simpl. by rewrite bool_decide_false.
Qed.


(** C7, as amended.  For a user with no record in the document store, a
    request answers from the cache when the cache holds a usable entry for
    the user, and signals not-found (404) otherwise; it never returns a
    "computed" response. *)
Theorem absent_user_is_not_found_unless_cached (user_id : string) (w : World) :
  Forall (fun d => doc_user_id d <> user_id) (mongo (stores w)) ->
  (Api.get_recommendations E user_id w).1
  = match cache_lookup E user_id w with
    | Some value => Ok (cached_response user_id value)
    | None => Raise (Api.not_found user_id)
    end /\
  forall resp, (Api.get_recommendations E user_id w).1 = Ok resp ->
               Api.retrieval_source resp <> "computed".
Proof.
  intros Habsent. rewrite get_recommendations_outcome.
  assert (miss_outcome E user_id (stores w) = Raise (Api.not_found user_id))
    as ->.
  { unfold miss_outcome, query_vector_of.
    by rewrite (seed_record_absent _ _ Habsent). }
  split; [done|].
  destruct (cache_lookup E user_id w); [|done]. by intros resp [= <-].
Qed.

(** C8.  For a user with a record in the document store: when the vector
    search of the request finds no similar user, the request returns the
    empty "computed" response and the search is its last store call; when
    its graph query finds no campaign, the request returns the empty
    "computed" response and the graph query is its last store call.  In
    both cases the later stages are not queried and nothing is written. *)
Theorem empty_stage_ends_the_request (user_id : string) (w : World) :
  Exists (fun d => doc_user_id d = user_id) (mongo (stores w)) ->
  (forall q,
     MilvusSearch q 5 ∈ new_trace (Api.get_recommendations E user_id) w ->
     similar_users E (stores w) q = [] ->
     (Api.get_recommendations E user_id w).1 = Ok (empty_response user_id) /\
     new_trace (Api.get_recommendations E user_id) w
     = [RedisGet ("rec:" +:+ user_id); MongoFindOne user_id;
        MilvusSearch q 5]) /\
  (forall ids,
     Neo4jMatchCampaigns ids ∈ new_trace (Api.get_recommendations E user_id) w ->
     match_campaigns (neo4j (stores w)) ids = [] ->
     (Api.get_recommendations E user_id w).1 = Ok (empty_response user_id) /\
     exists q,
       new_trace (Api.get_recommendations E user_id) w
       = [RedisGet ("rec:" +:+ user_id); MongoFindOne user_id;
          MilvusSearch q 5; Neo4jMatchCampaigns ids]).
Proof.
  intros _.
  destruct (get_recommendations_served E user_id w) as [Hserved _].
  split.
  - intros q Hin Hnone.
    destruct Hserved as [v Hl | Hl Hq | q' Hl Hq Hne Hs | q' Hl Hq Hne Hs Hc
                        | q' cids Hl Hq Hne Hs Hc Hcs];
      set_unfold in Hin; destruct_or?; simplify_eq; done.
  - intros ids Hin Hnone.
    destruct Hserved as [v Hl | Hl Hq | q' Hl Hq Hne Hs | q' Hl Hq Hne Hs Hc
                        | q' cids Hl Hq Hne Hs Hc Hcs];
      set_unfold in Hin; destruct_or?; simplify_eq; try done.
    split; [done|]. by eexists.
Qed.

End Requests.

Lemma lifespan_startup_run w :
  will_connect Db.retries (milvus_connects w) = true ->
  exists w' ops,
    runs Api.lifespan_startup w (Ok tt) w' ops /\
    stores w' = set_milvus (Some fresh_collection) (stores w) /\
    mutations ops
    = match milvus (stores w) with Some _ => [Clear VectorStore] | None => [] end.
Proof.
  intros Hc.
  edestruct (get_milvus_connection_ok
               (with_log (log w ++ [(INFO, MsgApiStarting)]) w))
    as (w1 & ops1 & Hrun1 & Hst1 & Hm1); [exact Hc|].
  eexists _, _. split.
  { unfold Api.lifespan_startup.
    eapply runs_bind_ok; [run|]. eapply runs_bind_ok; [run|].
    eapply runs_bind_ok; [exact Hrun1|]. run. }
  norm_world. rewrite Hst1, !mutations_app, Hm1. by rewrite app_nil_r.
Qed.

(** Every start of the API leaves the vector store empty. *)
Theorem api_startup_resets_the_collection (w : World) :
  will_connect Db.retries (milvus_connects w) = true ->
  (Api.lifespan_startup w).1 = Ok tt /\
  milvus (stores (Api.lifespan_startup w).2) = Some fresh_collection /\
  mutations (new_trace Api.lifespan_startup w)
  = match milvus (stores w) with Some _ => [Clear VectorStore] | None => [] end.
Proof.
  intros Hc. destruct (lifespan_startup_run w Hc) as (w' & ops & Hrun & Hst & Hm).
  destruct (runs_outcome _ _ _ _ _ Hrun) as (-> & -> & ->).
  by rewrite Hst.
Qed.


(** ** Ranking *)

(** [map] of the Standard Library is stdpp's [fmap] on lists. *)
Ltac map_as_fmap :=
  repeat match goal with
         | |- context [map ?f ?l] => change (map f l) with (f <$> l)
         end.

Global Instance score_ge_trans : Transitive score_ge.
Proof. intros a b c. unfold score_ge. lia. Qed.

Global Instance score_ge_total : Total score_ge.
Proof. intros a b. unfold score_ge. lia. Qed.

Lemma select_ranked_sorted (table : list AnalyticsRow)
  (campaign_ids : list string) :
  StronglySorted score_ge (select_ranked table campaign_ids).
Proof. unfold select_ranked. apply StronglySorted_merge_sort; apply _. Qed.

Lemma total_engagement_of_matching (table : list AnalyticsRow)
  (campaign_ids : list string) (cid : string) :
  cid ∈ campaign_ids ->
  total_engagement
    (filter (fun r => row_campaign_id r ∈ campaign_ids) table) cid
  = total_engagement table cid.
Proof.
  intros Hin. unfold total_engagement. f_equal. f_equal.
  rewrite list_filter_filter. apply list_filter_iff.
  intros r. split; [by intros [? _]|]. intros <-. done.
Qed.

Lemma select_ranked_rows (table : list AnalyticsRow)
  (campaign_ids : list string) (cid : string) (total : Z) :
  (cid, total) ∈ select_ranked table campaign_ids ->
  cid ∈ campaign_ids /\
  total = total_engagement table cid /\
  exists r, r ∈ table /\ row_campaign_id r = cid.
Proof.
  unfold select_ranked. map_as_fmap.
  rewrite (merge_sort_Permutation score_ge), list_elem_of_fmap.
  intros (c & [= -> ->] & Hc).
  rewrite (merge_sort_Permutation str_le), elem_of_remove_dups,
    list_elem_of_fmap in Hc.
  destruct Hc as (r & -> & Hr). apply list_elem_of_filter in Hr as [Hin Hr].
  split; [done|]. split; [|by exists r].
  by apply total_engagement_of_matching.
Qed.

Lemma fst_of_tagged {A B} (g : A -> B) (l : list A) :
  fst <$> ((fun c => (c, g c)) <$> l) = l.
Proof. induction l as [|x l IH]; [done|]. rewrite !fmap_cons. by f_equal. Qed.

Lemma select_ranked_distinct (table : list AnalyticsRow)
  (campaign_ids : list string) :
  NoDup (fst <$> select_ranked table campaign_ids).
Proof.
  unfold select_ranked. map_as_fmap.
  eapply NoDup_Permutation_proper;
    [apply fmap_Permutation, merge_sort_Permutation|].
  rewrite fst_of_tagged.
  eapply NoDup_Permutation_proper; [apply merge_sort_Permutation|].
  apply NoDup_remove_dups.
Qed.

Lemma select_ranked_campaigns (table : list AnalyticsRow)
  (campaign_ids : list string) (c : string) :
  c ∈ (fst <$> select_ranked table campaign_ids) <->
  c ∈ campaign_ids /\ exists r, r ∈ table /\ row_campaign_id r = c.
Proof.
  unfold select_ranked. map_as_fmap.
  rewrite (merge_sort_Permutation score_ge), fst_of_tagged,
    (merge_sort_Permutation str_le), elem_of_remove_dups, list_elem_of_fmap.
  split.
  - intros (r & -> & [Hin Hr]%list_elem_of_filter). split; [done|]. by exists r.
  - intros (Hin & r & Hr & <-). exists r. split; [done|].
    by apply list_elem_of_filter.
Qed.

Lemma rank_campaigns_by_engagement_run campaign_ids w :
  exists w',
    runs (Api.rank_campaigns_by_engagement campaign_ids) w
      (Ok (ranked_for (stores w) campaign_ids)) w'
      [SqliteCreateTableIfNotExists; SqliteSelectRanked campaign_ids;
       SqliteClose] /\
    stores w' = stores w /\ redis w' = redis w.
Proof. reach_with (unfold Api.rank_campaigns_by_engagement; run). Qed.



(** C6 as stated fails: with Redis down, the request of a user who has no
    record ends in the 404, not in a "computed" response. *)
Lemma cache_read_failure_can_end_in_not_found :
  redis_get_raises redis_down_world = true /\
  (Api.get_recommendations demo "Z" redis_down_world).1
  = Raise (Api.not_found "Z") /\
  ~ exists resp,
      (Api.get_recommendations demo "Z" redis_down_world).1 = Ok resp /\
      Api.retrieval_source resp = "computed".
Proof.
  split; [reflexivity|]. split; [vm_compute; reflexivity|].
  intros (resp & Hresp & _). vm_compute in Hresp. discriminate.
Qed.



Lemma absent_user_is_not_found_unless_cached_witness :
  (Api.get_recommendations demo "Z" ingested_world).1
  = match cache_lookup demo "Z" ingested_world with
    | Some value => Ok (cached_response "Z" value)
    | None => Raise (Api.not_found "Z")
    end /\
  forall resp, (Api.get_recommendations demo "Z" ingested_world).1 = Ok resp ->
               Api.retrieval_source resp <> "computed".
Proof.
  apply (absent_user_is_not_found_unless_cached demo "Z" ingested_world).
  apply (bool_decide_unpack _). vm_compute. exact I.
Defined.

(** C7 as stated fails: user C has no record in the document store, and the
    request is answered from the cache instead of being rejected. *)
Lemma absent_user_served_from_cache :
  Forall (fun d => doc_user_id d <> "C") (mongo (stores stale_cache_world)) /\
  (Api.get_recommendations demo "C" stale_cache_world).1
  = Ok (cached_response "C" (JArr [JObj []])) /\
  (Api.get_recommendations demo "C" stale_cache_world).1
  <> Raise (Api.not_found "C").
Proof.
  split; [|split].
  - apply (bool_decide_unpack _). vm_compute. exact I.
  - vm_compute. reflexivity.
  - vm_compute. discriminate.
Qed.

(** After a restart of the API the vector store is empty, so the search for
    user A, who has records, finds no similar user. *)
Lemma empty_stage_ends_the_request_witness :
  (MilvusSearch [1%float; 0%float] 5
     ∈ new_trace (Api.get_recommendations demo "A") restarted_world /\
   similar_users demo (stores restarted_world) [1%float; 0%float] = []) /\
  (Api.get_recommendations demo "A" restarted_world).1
  = Ok (empty_response "A") /\
  new_trace (Api.get_recommendations demo "A") restarted_world
  = [RedisGet "rec:A"; MongoFindOne "A"; MilvusSearch [1%float; 0%float] 5].
Proof.
  assert (MilvusSearch [1%float; 0%float] 5
            ∈ new_trace (Api.get_recommendations demo "A") restarted_world /\
          similar_users demo (stores restarted_world) [1%float; 0%float] = [])
    as Hpremise.
  { split; [|vm_compute; reflexivity].
    replace (new_trace (Api.get_recommendations demo "A") restarted_world)
      with [RedisGet "rec:A"; MongoFindOne "A"; MilvusSearch [1%float; 0%float] 5]
      by (vm_compute; reflexivity).
    set_solver. }
  split; [exact Hpremise|].
  apply (proj1 (empty_stage_ends_the_request demo "A" restarted_world
                  ltac:(apply (bool_decide_unpack _); vm_compute; exact I))
           [1%float; 0%float]);
    apply Hpremise.
Defined.


Lemma api_startup_resets_the_collection_witness :
  (Api.lifespan_startup ingested_world).1 = Ok tt /\
  milvus (stores (Api.lifespan_startup ingested_world).2)
  = Some fresh_collection /\
  mutations (new_trace Api.lifespan_startup ingested_world)
  = match milvus (stores ingested_world) with
    | Some _ => [Clear VectorStore]
    | None => []
    end.
Proof.
  apply (api_startup_resets_the_collection ingested_world). reflexivity.
Defined.

(** C1 fails on the code at the start of the API.  The ingested deployment
    holds three vectors; [lifespan] obtains its Milvus handle from
    [get_milvus_connection], which drops the collection, so the vector store
    is empty afterwards and the request of user A, answered with campaign X
    before the start, finds no similar user after it. *)
Theorem api_startup_empties_the_vector_store :
  (length <$> (entities <$> milvus (stores ingested_world))) = Some 3%nat /\
  (Api.lifespan_startup ingested_world).1 = Ok tt /\
  (entities <$> milvus (stores (Api.lifespan_startup ingested_world).2))
  = Some [] /\
  mutations (new_trace Api.lifespan_startup ingested_world)
  = [Clear VectorStore] /\
  (Api.get_recommendations demo "A" ingested_world).1
  = Ok (ranked_response "A" (stores ingested_world) ["X"]) /\
  (Api.get_recommendations demo "A" restarted_world).1
  = Ok (empty_response "A").
Proof. repeat split; vm_compute; reflexivity. Qed.

(** After a run with at least one surviving record, the four stores hold
    the surviving records and nothing else: one document and one vector per
    record, the merged graph, and the group counts. *)
Theorem run_replaces_the_four_stores (E : Collaborators) (w : World) :
  valid_records E (file_records (data_file w)) <> [] ->
  will_connect Db.retries (milvus_connects w) = true ->
  (Flow.main_data_pipeline E w).1 = Ok tt /\
  stores (Flow.main_data_pipeline E w).2
  = loaded_stores (valid_records E (file_records (data_file w))).
Proof.
  intros Hv Hc. destruct (main_loads E w Hv Hc) as (w' & ops & Hrun & Hst & _).
  by destruct (runs_outcome _ _ _ _ _ Hrun) as (-> & -> & _).
Qed.

Lemma run_replaces_the_four_stores_witness :
  (Flow.main_data_pipeline demo fresh_world).1 = Ok tt /\
  stores (Flow.main_data_pipeline demo fresh_world).2
  = loaded_stores (valid_records demo (file_records (data_file fresh_world))).
Proof.
  apply (run_replaces_the_four_stores demo fresh_world).
  - vm_compute. discriminate.
  - reflexivity.
Defined.

(* ------------------------------------------------------------------ *)
(** ** The connection to Milvus: retries and failures *)

Lemma connect_loop_retry texts : forall i n w rest,
  Forall (fun t => retryable t = true) texts ->
  milvus_connects w = (ConnectRaises <$> texts) ++ rest ->
  exists w1,
    stores w1 = stores w /\ milvus_connects w1 = rest /\ redis w1 = redis w /\
    forall r w' ops,
      runs (Db.connect_loop (length texts + i) n) w1 r w' ops ->
      runs (Db.connect_loop i (length texts + n)) w r w'
        (failed_attempts (length texts) ++ ops).
Proof.
  induction texts as [|text texts IH]; intros i n w rest Hall Hc.
  - exists w. do 3 (split; [done|]). intros r w' ops H. exact H.
  - apply Forall_cons in Hall as [Hretry Hall].
    destruct (connections_connect_run
                (with_log (log w ++ [(INFO, MsgMilvusAttempt (i + 1) Db.retries)]) w))
      as (r & w1 & Hrun & Hst & Hr & Hc1).
    norm_world in Hr. norm_world in Hc1. norm_world in Hst.
    rewrite Hc in Hr, Hc1. simpl in Hr, Hc1. subst r.
    destruct (IH (S i) n
                (with_trace (trace w1 ++ [Sleep Db.wait_time])
                   (with_log (log w1 ++ [(WARNING, MsgMilvusNotReady text)]) w1))
                rest Hall)
      as (w2 & Hst2 & Hc2 & Hr2 & Hk); [by norm_world|].
    norm_world in Hst2. norm_world in Hr2.
    exists w2. split; [congruence|]. split; [done|]. split.
    { rewrite Hr2. destruct Hrun as [Heq _].
      unfold Db.connections_connect, bind, call in Heq. simpl in Heq.
      rewrite Hc in Heq. simpl in Heq. by injection Heq as <-. }
    intros r w' ops Hrun'.
    replace (length (text :: texts) + i)%nat with (length texts + S i)%nat in Hrun'
      by (simpl; lia).
    specialize (Hk _ _ _ Hrun').
    eapply runs_ops_eq.
    + cbn [length Nat.add Db.connect_loop].
      eapply runs_bind_ok.
      * eapply runs_try_caught.
        -- eapply runs_bind_ok; [run|]. eapply runs_bind_raise. exact Hrun.
        -- reflexivity.
        -- unfold retryable in Hretry. rewrite Hretry. run.
      * exact Hk.
    + unfold failed_attempts. simpl. reflexivity.
Qed.

Lemma connect_loop_connects i n w :
  match milvus_connects w with ConnectRaises _ :: _ => False | _ => True end ->
  exists w',
    runs (Db.connect_loop i (S n)) w (Ok tt) w' [MilvusConnect] /\
    stores w' = stores w /\ milvus_connects w' = tail (milvus_connects w).
Proof.
  intros Hhead.
  destruct (connections_connect_run
              (with_log (log w ++ [(INFO, MsgMilvusAttempt (i + 1) Db.retries)]) w))
    as (r & w1 & Hrun & Hst & Hr & Hc1).
  norm_world in Hr. norm_world in Hc1. norm_world in Hst.
  assert (r = Ok tt) as ->.
  { destruct (milvus_connects w) as [|[|text] rest]; done. }
  eexists. split.
  { eapply runs_ops_eq.
    - cbn [Db.connect_loop]. eapply runs_bind_ok.
      + apply runs_try_ok. eapply runs_bind_ok; [run|].
        eapply runs_bind_ok; [exact Hrun|]. run.
      + run.
    - reflexivity. }
  norm_world. by rewrite Hst, Hc1.
Qed.

Lemma connect_loop_gives_up i w :
  exists w',
    runs (Db.connect_loop i 0) w
      (Raise (ConnectionError "Failed to connect to Milvus.")) w' [] /\
    stores w' = stores w /\ milvus_connects w' = milvus_connects w.
Proof.
  eexists. split.
  { eapply runs_ops_eq.
    - cbn [Db.connect_loop]. eapply runs_bind_ok; [run|]. run.
    - reflexivity. }
  by norm_world.
Qed.

Lemma connect_loop_fatal i n w text rest :
  milvus_connects w = ConnectRaises text :: rest ->
  retryable text = false ->
  exists w',
    runs (Db.connect_loop i (S n)) w (Raise (MilvusException text)) w'
      [MilvusConnect] /\
    stores w' = stores w /\ milvus_connects w' = rest.
Proof.
  intros Hc Hfatal.
  destruct (connections_connect_run
              (with_log (log w ++ [(INFO, MsgMilvusAttempt (i + 1) Db.retries)]) w))
    as (r & w1 & Hrun & Hst & Hr & Hc1).
  norm_world in Hr. norm_world in Hc1. norm_world in Hst.
  rewrite Hc in Hr, Hc1. simpl in Hr, Hc1. subst r.
  eexists. split.
  { eapply runs_ops_eq.
    - cbn [Db.connect_loop]. eapply runs_bind_raise. eapply runs_try_caught.
      + eapply runs_bind_ok; [run|]. eapply runs_bind_raise. exact Hrun.
      + reflexivity.
      + unfold retryable in Hfatal. rewrite Hfatal. run.
    - reflexivity. }
  norm_world. by rewrite Hst, Hc1.
Qed.

Lemma get_milvus_connection_schema w w1 ops1 :
  runs (Db.connect_loop 0 Db.retries) w (Ok tt) w1 ops1 ->
  stores w1 = stores w ->
  exists w',
    runs Db.get_milvus_connection w (Ok tt) w'
      (ops1 ++ schema_setup (bool_decide (milvus (stores w) <> None))) /\
    stores w' = set_milvus (Some fresh_collection) (stores w) /\
    milvus_connects w' = milvus_connects w1.
Proof.
  intros Hrun Hst. unfold Db.get_milvus_connection.
  destruct (milvus (stores w)) as [c|] eqn:Hmil.
  - eexists. split.
    { eapply runs_ops_eq.
      - eapply runs_bind_ok; [exact Hrun|]. run.
        all: rewrite ?Hst, ?Hmil; run. all: rewrite ?Hst, ?Hmil; run.
      - reflexivity. }
    norm_world. by rewrite ?Hst, ?Hmil.
  - eexists. split.
    { eapply runs_ops_eq.
      - eapply runs_bind_ok; [exact Hrun|]. run.
        all: rewrite ?Hst, ?Hmil; run. all: rewrite ?Hst, ?Hmil; run.
      - reflexivity. }
    norm_world. by rewrite ?Hst, ?Hmil.
Qed.

Lemma connect_loop_raises n : forall i w e,
  (Db.connect_loop i n w).1 = Raise e -> connection_failure e.
Proof.
  induction n as [|n IH]; intros i w e.
  - destruct (connect_loop_gives_up i w) as (w' & Hrun & _).
    rewrite (runs_eq _ _ _ _ _ Hrun). intros [= <-]. by left.
  - destruct (milvus_connects w) as [|[|text] rest] eqn:Hc.
    1,2: destruct (connect_loop_connects i n w) as (w' & Hrun & _);
      [by rewrite Hc|]; by rewrite (runs_eq _ _ _ _ _ Hrun).
    destruct (retryable text) eqn:Hretry.
    + destruct (connect_loop_retry [text] i n w rest) as (w1 & _ & _ & _ & Hk);
        [by apply Forall_singleton | done |].
      destruct (connect_loop_run n (S i) w1) as (r & w' & ops & Hrun & _).
      pose proof (runs_eq _ _ _ _ _ (Hk _ _ _ Hrun)) as Heq.
      cbn [length Nat.add] in Heq. rewrite Heq.
      intros Hr. apply (IH (S i) w1). by rewrite (runs_eq _ _ _ _ _ Hrun).
    + destruct (connect_loop_fatal i n w text rest Hc Hretry) as (w' & Hrun & _).
      rewrite (runs_eq _ _ _ _ _ Hrun). intros [= <-]. right. by exists text.
Qed.

Lemma will_connect_shape n : forall outcomes,
  will_connect n outcomes = true ->
  exists texts rest,
    outcomes = (ConnectRaises <$> texts) ++ rest /\
    Forall (fun t => retryable t = true) texts /\
    (length texts < n)%nat /\
    match rest with ConnectRaises _ :: _ => False | _ => True end.
Proof.
  induction n as [|n IH]; intros outcomes; [done|].
  destruct outcomes as [|[|text] rest]; simpl.
  - intros _. exists [], []. repeat split; try done. simpl; lia.
  - intros _. exists [], (Connected :: rest). repeat split; try done. simpl; lia.
  - intros [Hretry Hrest]%andb_prop.
    destruct (IH _ Hrest) as (texts & rest' & -> & Hall & Hlen & Hhead).
    exists (text :: texts), rest'. repeat split; try done.
    + by apply Forall_cons.
    + simpl. lia.
Qed.

Lemma get_milvus_connection_trace w texts rest :
  milvus_connects w = (ConnectRaises <$> texts) ++ rest ->
  Forall (fun t => retryable t = true) texts ->
  (length texts < Db.retries)%nat ->
  match rest with ConnectRaises _ :: _ => False | _ => True end ->
  exists w',
    runs Db.get_milvus_connection w (Ok tt) w'
      (failed_attempts (length texts) ++ [MilvusConnect] ++
       schema_setup (bool_decide (milvus (stores w) <> None))) /\
    stores w' = set_milvus (Some fresh_collection) (stores w) /\
    milvus_connects w' = tail rest.
Proof.
  intros Hc Hall Hlen Hhead.
  destruct (connect_loop_retry texts 0 (S (Db.retries - S (length texts))) w rest
              Hall Hc) as (w1 & Hst1 & Hc1 & _ & Hk).
  destruct (connect_loop_connects (length texts + 0)
              (Db.retries - S (length texts)) w1) as (w2 & Hrun2 & Hst2 & Hc2);
    [by rewrite Hc1|].
  pose proof (Hk _ _ _ Hrun2) as Hloop.
  replace (length texts + S (Db.retries - S (length texts)))%nat
    with Db.retries in Hloop by lia.
  destruct (get_milvus_connection_schema w w2 _ Hloop) as (w' & Hrun & Hst & Hc');
    [congruence|].
  exists w'. split; [|split; [done|congruence]].
  eapply runs_ops_eq; [exact Hrun|]. by rewrite <- app_assoc.
Qed.

(** When Milvus refuses [k] times with a text that the handler takes for a
    server that is still starting, and then answers, with [k] below ten,
    [get_milvus_connection] returns; it has connected [k + 1] times and slept
    five seconds after each refusal, and then set up the schema: the existing
    collection dropped, a new one created, indexed and loaded. *)
Theorem connection_retries_until_milvus_answers (w : World)
  (texts : list string) (rest : list connect_outcome) :
  milvus_connects w = (ConnectRaises <$> texts) ++ Connected :: rest ->
  Forall (fun t => retryable t = true) texts ->
  (length texts < Db.retries)%nat ->
  (Db.get_milvus_connection w).1 = Ok tt /\
  new_trace Db.get_milvus_connection w
  = failed_attempts (length texts) ++ [MilvusConnect] ++
    schema_setup (bool_decide (milvus (stores w) <> None)) /\
  milvus (stores (Db.get_milvus_connection w).2) = Some fresh_collection /\
  milvus_connects (Db.get_milvus_connection w).2 = rest.
Proof.
  intros Hc Hall Hlen.
  destruct (get_milvus_connection_trace w texts (Connected :: rest) Hc Hall Hlen I)
    as (w' & Hrun & Hst & Hc').
  destruct (runs_outcome _ _ _ _ _ Hrun) as (-> & -> & ->).
  by rewrite Hst.
Qed.

Lemma connection_retries_until_milvus_answers_witness :
  (Db.get_milvus_connection starting_milvus_world).1 = Ok tt /\
  new_trace Db.get_milvus_connection starting_milvus_world
  = [MilvusConnect; Sleep 5; MilvusConnect; Sleep 5; MilvusConnect;
     MilvusHasCollection; MilvusDropCollection; MilvusCreateCollection;
     MilvusHasIndex; MilvusCreateIndex; MilvusLoad] /\
  milvus (stores (Db.get_milvus_connection starting_milvus_world).2)
  = Some fresh_collection /\
  milvus_connects (Db.get_milvus_connection starting_milvus_world).2 = [].
Proof.
  apply (connection_retries_until_milvus_answers starting_milvus_world
           ["server unavailable"; "Fail connecting to server"] []).
  - reflexivity.
  - repeat constructor.
  - unfold Db.retries. simpl. lia.
Defined.

(** When Milvus refuses ten times in a row with such a text,
    [get_milvus_connection] raises ConnectionError after ten connects and ten
    sleeps of five seconds (it also sleeps after the last refusal), makes no
    call on the collection and leaves the four stores as they were. *)
Theorem connection_gives_up_after_ten_refusals (w : World)
  (texts : list string) (rest : list connect_outcome) :
  milvus_connects w = (ConnectRaises <$> texts) ++ rest ->
  Forall (fun t => retryable t = true) texts ->
  length texts = Db.retries ->
  (Db.get_milvus_connection w).1
  = Raise (ConnectionError "Failed to connect to Milvus.") /\
  new_trace Db.get_milvus_connection w = failed_attempts Db.retries /\
  stores (Db.get_milvus_connection w).2 = stores w /\
  milvus_connects (Db.get_milvus_connection w).2 = rest.
Proof.
  intros Hc Hall Hlen.
  destruct (connect_loop_retry texts 0 0 w rest Hall Hc)
    as (w1 & Hst1 & Hc1 & _ & Hk).
  destruct (connect_loop_gives_up (length texts + 0) w1) as (w2 & Hrun2 & Hst2 & Hc2).
  pose proof (Hk _ _ _ Hrun2) as Hloop.
  rewrite Nat.add_0_r, app_nil_r, Hlen in Hloop.
  assert (runs Db.get_milvus_connection w
            (Raise (ConnectionError "Failed to connect to Milvus.")) w2
            (failed_attempts Db.retries)) as Hrun.
  { unfold Db.get_milvus_connection. by apply runs_bind_raise. }
  destruct (runs_outcome _ _ _ _ _ Hrun) as (-> & -> & ->).
  repeat split; congruence.
Qed.

Lemma connection_gives_up_after_ten_refusals_witness :
  (Db.get_milvus_connection absent_milvus_world).1
  = Raise (ConnectionError "Failed to connect to Milvus.") /\
  new_trace Db.get_milvus_connection absent_milvus_world
  = failed_attempts Db.retries /\
  stores (Db.get_milvus_connection absent_milvus_world).2
  = stores absent_milvus_world /\
  milvus_connects (Db.get_milvus_connection absent_milvus_world).2
  = replicate 2 (ConnectRaises "server unavailable").
Proof.
  apply (connection_gives_up_after_ten_refusals absent_milvus_world
           (replicate 10 "server unavailable")
           (replicate 2 (ConnectRaises "server unavailable"))).
  - reflexivity.
  - repeat constructor.
  - reflexivity.
Defined.

(** When, after fewer than ten such refusals, Milvus raises an exception
    with any other text, [get_milvus_connection] raises that exception again
    at once, without a sleep after it, makes no call on the collection and
    leaves the four stores as they were. *)
Theorem other_milvus_error_is_raised_at_once (w : World)
  (texts : list string) (text : string) (rest : list connect_outcome) :
  milvus_connects w = (ConnectRaises <$> texts) ++ ConnectRaises text :: rest ->
  Forall (fun t => retryable t = true) texts ->
  retryable text = false ->
  (length texts < Db.retries)%nat ->
  (Db.get_milvus_connection w).1 = Raise (MilvusException text) /\
  new_trace Db.get_milvus_connection w
  = failed_attempts (length texts) ++ [MilvusConnect] /\
  stores (Db.get_milvus_connection w).2 = stores w /\
  milvus_connects (Db.get_milvus_connection w).2 = rest.
Proof.
  intros Hc Hall Hfatal Hlen.
  destruct (connect_loop_retry texts 0 (S (Db.retries - S (length texts))) w _
              Hall Hc) as (w1 & Hst1 & Hc1 & _ & Hk).
  destruct (connect_loop_fatal (length texts + 0)
              (Db.retries - S (length texts)) w1 text rest Hc1 Hfatal)
    as (w2 & Hrun2 & Hst2 & Hc2).
  pose proof (Hk _ _ _ Hrun2) as Hloop.
  replace (length texts + S (Db.retries - S (length texts)))%nat
    with Db.retries in Hloop by lia.
  assert (runs Db.get_milvus_connection w (Raise (MilvusException text)) w2
            (failed_attempts (length texts) ++ [MilvusConnect])) as Hrun.
  { unfold Db.get_milvus_connection. by apply runs_bind_raise. }
  destruct (runs_outcome _ _ _ _ _ Hrun) as (-> & -> & ->).
  repeat split; congruence.
Qed.

Lemma other_milvus_error_is_raised_at_once_witness :
  (Db.get_milvus_connection rejecting_milvus_world).1
  = Raise (MilvusException "authentication failed") /\
  new_trace Db.get_milvus_connection rejecting_milvus_world
  = failed_attempts 1 ++ [MilvusConnect] /\
  stores (Db.get_milvus_connection rejecting_milvus_world).2
  = stores rejecting_milvus_world /\
  milvus_connects (Db.get_milvus_connection rejecting_milvus_world).2
  = [Connected].
Proof.
  apply (other_milvus_error_is_raised_at_once rejecting_milvus_world
           ["server unavailable"] "authentication failed" [Connected]).
  - reflexivity.
  - repeat constructor.
  - reflexivity.
  - unfold Db.retries. simpl. lia.
Defined.

Lemma bind_raises {A B} (m : M A) (k : A -> M B) w e :
  (m w).1 = Raise e -> bind m k w = (Raise e, (m w).2).
Proof. unfold bind. destruct (m w) as [[a|e'] w']; simpl; congruence. Qed.

Lemma get_milvus_connection_raises w :
  will_connect Db.retries (milvus_connects w) = false ->
  exists e w' ops,
    runs Db.get_milvus_connection w (Raise e) w' ops /\
    stores w' = stores w /\ mutations ops = [] /\ connection_failure e.
Proof.
  intros Hc.
  destruct (connect_loop_run Db.retries 0 w)
    as (r & w1 & ops1 & Hrun & Hst & Hm & _ & Hfail).
  destruct (Hfail Hc) as [e ->].
  exists e, w1, ops1. split; [|split; [done|split; [done|]]].
  - unfold Db.get_milvus_connection. by apply runs_bind_raise.
  - apply (connect_loop_raises Db.retries 0 w). by rewrite (runs_eq _ _ _ _ _ Hrun).
Qed.

Lemma load_to_dbs_raises data w :
  will_connect Db.retries (milvus_connects w) = false ->
  exists e w' ops,
    runs (Flow.load_to_dbs data) w (Raise e) w' ops /\
    stores w' = stores w /\ mutations ops = [] /\ connection_failure e.
Proof.
  intros Hc.
  edestruct (get_milvus_connection_raises
               (with_log (log w ++ [(INFO, MsgLoading (length data))]) w))
    as (e & w1 & ops1 & Hrun1 & Hst1 & Hm1 & He); [exact Hc|].
  eexists e, _, _. split.
  { unfold Flow.load_to_dbs.
    eapply runs_bind_ok; [run|].
    eapply runs_bind_ok; [run|].
    eapply runs_bind_raise. exact Hrun1. }
  rewrite Hst1, !mutations_app, Hm1. done.
Qed.

Lemma main_data_pipeline_raises E w :
  valid_records E (file_records (data_file w)) <> [] ->
  will_connect Db.retries (milvus_connects w) = false ->
  exists e w' ops,
    runs (Flow.main_data_pipeline E) w (Raise e) w' ops /\
    stores w' = stores w /\ mutations ops = [] /\ connection_failure e.
Proof.
  intros Hv Hc.
  destruct (extract_raw_data_run
              (with_log (log w ++ [(INFO, MsgPipelineStarting)]) w))
    as (w1 & Hrun1 & Hst1 & Hc1).
  norm_world in Hrun1. norm_world in Hst1. norm_world in Hc1.
  edestruct (transform_and_validate_run E (file_records (data_file w)))
    as (w2 & Hrun2 & Hst2 & Hc2).
  edestruct (load_to_dbs_raises (valid_records E (file_records (data_file w))))
    as (e & w3 & ops3 & Hrun3 & Hst3 & Hm3 & He).
  2:{ assert (truthy (file_records (data_file w)) = true) as Ht1.
      { destruct (file_records (data_file w)); [done|done]. }
      eexists e, _, _. split.
      { unfold Flow.main_data_pipeline.
        eapply runs_bind_ok; [run|]. eapply runs_bind_ok.
        { norm_world. exact Hrun1. }
        norm_world. rewrite Ht1. norm_world.
        eapply runs_bind_ok; [exact Hrun2|].
        rewrite (truthy_true _ Hv). norm_world.
        eapply runs_bind_raise. exact Hrun3. }
      rewrite Hst3, Hst2, Hst1, !mutations_app, Hm3. done. }
  rewrite Hc2, Hc1. exact Hc.
Qed.

(** When Milvus cannot be reached, a run of the pipeline on a batch with a
    surviving record ends with the exception of [get_milvus_connection]
    (ConnectionError, or the MilvusException that is not retried); since the
    handles are obtained before the first delete, no store is cleared or
    written, and the four stores are as before the run. *)
Theorem unreachable_milvus_aborts_the_run (E : Collaborators) (w : World) :
  valid_records E (file_records (data_file w)) <> [] ->
  will_connect Db.retries (milvus_connects w) = false ->
  exists e,
    (Flow.main_data_pipeline E w).1 = Raise e /\
    connection_failure e /\
    stores (Flow.main_data_pipeline E w).2 = stores w /\
    mutations (new_trace (Flow.main_data_pipeline E) w) = [].
Proof.
  intros Hv Hc.
  destruct (main_data_pipeline_raises E w Hv Hc)
    as (e & w' & ops & Hrun & Hst & Hm & He).
  destruct (runs_outcome _ _ _ _ _ Hrun) as (-> & -> & ->). by exists e.
Qed.

Lemma unreachable_milvus_aborts_the_run_witness :
  exists e,
    (Flow.main_data_pipeline demo absent_milvus_world).1 = Raise e /\
    connection_failure e /\
    stores (Flow.main_data_pipeline demo absent_milvus_world).2
    = stores absent_milvus_world /\
    mutations (new_trace (Flow.main_data_pipeline demo) absent_milvus_world)
    = [].
Proof.
  apply (unreachable_milvus_aborts_the_run demo absent_milvus_world).
  - vm_compute. discriminate.
  - reflexivity.
Defined.

(** [load_to_dbs] on the empty list, with Milvus reachable, fails in
    [insert_many], which refuses an empty list: by then the Milvus collection
    has been dropped and recreated and the documents deleted, while the graph
    and the analytics table are still as before.  ([main_data_pipeline] never
    makes this call.) *)
Theorem empty_load_fails_after_clearing (w : World) :
  will_connect Db.retries (milvus_connects w) = true ->
  (Flow.load_to_dbs [] w).1
  = Raise (TypeError "documents must be a non-empty list") /\
  stores (Flow.load_to_dbs [] w).2
  = set_mongo [] (set_milvus (Some fresh_collection) (stores w)) /\
  mutations (new_trace (Flow.load_to_dbs []) w)
  = match milvus (stores w) with Some _ => [Clear VectorStore] | None => [] end
    ++ [Clear DocumentStore].
Proof.
  intros Hc.
  edestruct (get_milvus_connection_ok
               (with_log (log w ++ [(INFO, MsgLoading 0)]) w))
    as (w1 & ops1 & Hrun1 & Hst1 & Hm1); [exact Hc|].
  assert (exists w',
            runs (Flow.load_to_dbs []) w
              (Raise (TypeError "documents must be a non-empty list")) w'
              (ops1 ++ [SqliteCreateTableIfNotExists; MongoDeleteMany]) /\
            stores w' = set_mongo [] (stores w1)) as (w' & Hrun & Hst).
  { eexists. split.
    - eapply runs_ops_eq.
      + unfold Flow.load_to_dbs.
        eapply runs_bind_ok; [run|].
        eapply runs_bind_ok; [run|].
        eapply runs_bind_ok; [exact Hrun1|].
        eapply runs_bind_ok; [run|].
        eapply runs_bind_ok; [run|].
        eapply runs_bind_ok; [run|].
        eapply runs_bind_raise. apply runs_raise.
      + by rewrite !app_nil_r.
    - by norm_world. }
  destruct (runs_outcome _ _ _ _ _ Hrun) as (-> & -> & ->).
  rewrite Hst, Hst1, mutations_app, Hm1. by norm_world.
Qed.

Lemma empty_load_fails_after_clearing_witness :
  (Flow.load_to_dbs [] ingested_world).1
  = Raise (TypeError "documents must be a non-empty list") /\
  stores (Flow.load_to_dbs [] ingested_world).2
  = set_mongo [] (set_milvus (Some fresh_collection) (stores ingested_world)) /\
  mutations (new_trace (Flow.load_to_dbs []) ingested_world)
  = match milvus (stores ingested_world) with
    | Some _ => [Clear VectorStore]
    | None => []
    end ++ [Clear DocumentStore].
Proof.
  apply (empty_load_fails_after_clearing ingested_world). reflexivity.
Defined.

(** When Milvus cannot be reached, the startup of the API ends with the
    exception of [get_milvus_connection], and the four stores are as before:
    the vector store is emptied only by a start that connects. *)
Theorem api_startup_fails_without_milvus (w : World) :
  will_connect Db.retries (milvus_connects w) = false ->
  exists e,
    (Api.lifespan_startup w).1 = Raise e /\
    connection_failure e /\
    stores (Api.lifespan_startup w).2 = stores w /\
    mutations (new_trace Api.lifespan_startup w) = [].
Proof.
  intros Hc.
  edestruct (get_milvus_connection_raises
               (with_log (log w ++ [(INFO, MsgApiStarting)]) w))
    as (e & w1 & ops1 & Hrun1 & Hst1 & Hm1 & He); [exact Hc|].
  assert (runs Api.lifespan_startup w (Raise e) w1 ([] ++ [] ++ ops1)) as Hrun.
  { unfold Api.lifespan_startup.
    eapply runs_bind_ok; [run|]. eapply runs_bind_ok; [run|].
    eapply runs_bind_raise. exact Hrun1. }
  exists e. destruct (runs_outcome _ _ _ _ _ Hrun) as (-> & -> & ->). done.
Qed.

Lemma api_startup_fails_without_milvus_witness :
  exists e,
    (Api.lifespan_startup absent_milvus_world).1 = Raise e /\
    connection_failure e /\
    stores (Api.lifespan_startup absent_milvus_world).2
    = stores absent_milvus_world /\
    mutations (new_trace Api.lifespan_startup absent_milvus_world) = [].
Proof.
  apply (api_startup_fails_without_milvus absent_milvus_world). reflexivity.
Defined.

(* ------------------------------------------------------------------ *)
(** ** Validation and embedding *)

Lemma str_field_Some item name s :
  str_field item name = Some s -> item !! name = Some (JStr s).
Proof.
  unfold str_field. destruct (item !! name) as [[]|]; try done. by intros [= ->].
Qed.

Lemma str_field_None item name :
  (forall s, item !! name <> Some (JStr s)) -> str_field item name = None.
Proof.
  unfold str_field. intros H. destruct (item !! name) as [[]|]; try done.
  by destruct (H s).
Qed.

Lemma validate_fields cf item c :
  validate cf item = Some c -> same_fields item c.
Proof.
  unfold validate, same_fields.
  destruct (str_field item "message_id") as [mid|] eqn:H1; [|done].
  destruct (str_field item "user_id") as [uid|] eqn:H2; [|done].
  destruct (str_field item "campaign_id") as [cid|] eqn:H3; [|done].
  destruct (str_field item "timestamp") as [ts|] eqn:H4; [|done].
  destruct (str_field item "intent") as [int|] eqn:H5; [|done].
  destruct (str_field item "message") as [msg|] eqn:H6; [|done].
  simpl. destruct (embedding_field cf item); [|done]. simpl.
  intros [= <-]. simpl. by repeat split; apply str_field_Some.
Qed.

Lemma validate_missing cf item f :
  f ∈ required_fields ->
  str_field item f = None -> validate cf item = None.
Proof.
  unfold required_fields, validate. intros Hin Hf.
  set_unfold in Hin. destruct_or?; subst f; try done;
    repeat (rewrite ?Hf; simpl; try done;
            match goal with
            | |- context [str_field item ?n] =>
                destruct (str_field item n); simpl; try done
            end).
Qed.

Lemma validate_insert_other cf item k v :
  k ∉ "embedding" :: required_fields ->
  validate cf (<[k := v]> item) = validate cf item.
Proof.
  unfold required_fields. intros Hk.
  assert (forall f, f ∈ ["embedding"; "message_id"; "user_id"; "campaign_id";
                          "timestamp"; "intent"; "message"] ->
                    <[k := v]> item !! f = item !! f) as Hlook.
  { intros f Hf. apply lookup_insert_ne. intros ->. by apply Hk. }
  unfold validate, str_field, embedding_field.
  rewrite !Hlook by set_solver. done.
Qed.

Lemma with_log_same w : with_log (log w ++ []) w = w.
Proof. destruct w. unfold with_log. simpl. by rewrite app_nil_r. Qed.

Lemma transform_item_eq E acc item w :
  Flow.transform_item E acc item w
  = (Ok (acc ++ option_list (transform_one E item)),
     with_log (log w ++ option_list (item_warning E item)) w).
Proof.
  unfold Flow.transform_item, Flow.new_Conversation, transform_one, item_warning,
    try_except, bind, raise, ret, logger.
  destruct (validate (coerce_float E) item) as [convo|]; simpl.
  - destruct (truthy (encode E (message convo))); simpl.
    + by rewrite with_log_same.
    + by rewrite app_nil_r.
  - by rewrite app_nil_r.
Qed.

Lemma transform_loop_eq E data : forall acc w,
  Flow.transform_loop E data acc w
  = (Ok (acc ++ valid_records E data),
     with_log (log w ++ omap (item_warning E) data) w).
Proof.
  induction data as [|item data IH]; intros acc w.
  - simpl. unfold ret. by rewrite app_nil_r, with_log_same.
  - cbn [Flow.transform_loop]. unfold bind at 1. rewrite transform_item_eq, IH.
    f_equal.
    + f_equal. rewrite <- app_assoc. f_equal. unfold valid_records. simpl.
      by destruct (transform_one E item).
    + unfold with_log. simpl. f_equal. rewrite <- app_assoc. f_equal.
      by destruct (item_warning E item).
Qed.

Lemma transform_and_validate_eq E data w :
  Flow.transform_and_validate E data w
  = (Ok (valid_records E data),
     with_log
       (log w ++ [(INFO, MsgTransforming (length data))] ++
        omap (item_warning E) data ++
        [(INFO, MsgTransformed (length (valid_records E data)))]) w).
Proof.
  unfold Flow.transform_and_validate, bind, logger, ret. simpl.
  rewrite transform_loop_eq. simpl. unfold with_log. simpl.
  by rewrite <- !app_assoc.
Qed.

Lemma valid_records_fields E data :
  Forall2 same_fields (filter (fun item => survives E item = true) data)
    (valid_records E data).
Proof.
  unfold valid_records. induction data as [|item data IH]; [constructor|].
  rewrite filter_cons. simpl.
  destruct (decide (survives E item = true)) as [Hs|Hs];
    unfold survives, transform_one in *;
    destruct (validate (coerce_float E) item) as [convo|] eqn:Hv; try done.
  - rewrite Hs. constructor; [|exact IH].
    exact (validate_fields (coerce_float E) item convo Hv).
  - destruct (truthy (encode E (message convo))); [done|exact IH].
Qed.

Lemma valid_records_embedded E data :
  Forall (fun r => embedding r = Some (encode E (message r)) /\
                   encode E (message r) <> [])
    (valid_records E data).
Proof.
  unfold valid_records. induction data as [|item data IH]; [constructor|].
  simpl. unfold transform_one at 1.
  destruct (validate (coerce_float E) item) as [convo|]; [|exact IH].
  destruct (truthy (encode E (message convo))) eqn:Ht; [|exact IH].
  constructor; [|exact IH]. simpl. split; [done|]. by destruct (encode E (message convo)).
Qed.

Lemma kept_or_warned E item :
  (exists r, transform_one E item = Some r /\ item_warning E item = None) \/
  (exists e, transform_one E item = None /\ item_warning E item = Some e /\
             e.1 = WARNING).
Proof.
  unfold transform_one, item_warning.
  destruct (validate (coerce_float E) item) as [convo|];
    [destruct (truthy (encode E (message convo)))|]; eauto.
Qed.

Lemma valid_records_warnings E data :
  (length (valid_records E data) + length (omap (item_warning E) data)
   = length data)%nat /\
  Forall (fun e : log_entry => e.1 = WARNING) (omap (item_warning E) data).
Proof.
  unfold valid_records. induction data as [|item data [IHl IHw]]; [by split|].
  cbn [omap list_omap].
  destruct (kept_or_warned E item) as [(r & -> & ->)|(e & -> & -> & He)];
    cbn [length]; (split; [lia|]); [done|by constructor].
Qed.

(** [transform_and_validate] returns, with no store call, the records of
    the items that pass validation and whose message has a non-empty
    embedding, in the order of the input; each record carries the six strings
    of its item, and as embedding the encoding of its message, whatever
    embedding the item held. *)
Theorem transform_keeps_the_valid_items_in_order (E : Collaborators)
  (data : list raw_record) (w : World) :
  exists out,
    (Flow.transform_and_validate E data w).1 = Ok out /\
    Forall2 same_fields (filter (fun item => survives E item = true) data) out /\
    Forall (fun r => embedding r = Some (encode E (message r)) /\
                     encode E (message r) <> []) out /\
    new_trace (Flow.transform_and_validate E data) w = [] /\
    stores (Flow.transform_and_validate E data w).2 = stores w.
Proof.
  exists (valid_records E data).
  unfold new_trace. rewrite transform_and_validate_eq. simpl.
  split; [done|]. split; [apply valid_records_fields|].
  split; [apply valid_records_embedded|]. split; [|done].
  by rewrite drop_ge.
Qed.

(** [transform_and_validate] accounts for every item: between its first log
    line, with the number of items, and its last, with the number of records
    kept, it logs one warning for each item that it drops, so records kept
    and warnings add up to the items; an item that fails validation is
    reported with its message_id, and so is a record with an empty
    embedding. *)
Theorem transform_logs_one_warning_per_dropped_item (E : Collaborators)
  (data : list raw_record) (w : World) :
  exists out warnings,
    (Flow.transform_and_validate E data w).1 = Ok out /\
    new_log (Flow.transform_and_validate E data) w
    = [(INFO, MsgTransforming (length data))] ++ warnings ++
      [(INFO, MsgTransformed (length out))] /\
    Forall (fun e : log_entry => e.1 = WARNING) warnings /\
    (length out + length warnings = length data)%nat /\
    (forall item, item ∈ data -> validate (coerce_float E) item = None ->
       (WARNING, MsgInvalidSkipped (item !! "message_id")) ∈ warnings) /\
    (forall item convo, item ∈ data ->
       validate (coerce_float E) item = Some convo ->
       encode E (message convo) = [] ->
       (WARNING, MsgEmptyEmbedding (message_id convo)) ∈ warnings).
Proof.
  exists (valid_records E data), (omap (item_warning E) data).
  unfold new_log. rewrite transform_and_validate_eq. simpl.
  split; [done|]. split; [by rewrite drop_app_length|].
  destruct (valid_records_warnings E data) as [Hlen Hwarn].
  split; [done|]. split; [done|]. split.
  - intros item Hin Hv. apply list_elem_of_omap. exists item. split; [done|].
    unfold item_warning. by rewrite Hv.
  - intros item convo Hin Hv He. apply list_elem_of_omap. exists item.
    split; [done|]. unfold item_warning. by rewrite Hv, He.
Qed.

(** The constructor call on an item fails when one of the six required
    fields is missing or holds anything but a string, and it ignores every
    key that the model does not declare. *)
Theorem conversation_requires_six_strings (cf : json -> option float)
  (item : raw_record) :
  (forall f, f ∈ required_fields ->
     (forall s, item !! f <> Some (JStr s)) -> validate cf item = None) /\
  (forall k v, k ∉ "embedding" :: required_fields ->
     validate cf (<[k := v]> item) = validate cf item).
Proof.
  split.
  - intros f Hin Hf. apply (validate_missing cf item f Hin).
    by apply str_field_None.
  - intros k v. apply validate_insert_other.
Qed.

(* ------------------------------------------------------------------ *)
(** ** The stores after a load *)

Lemma filter_all {A} (P : A -> Prop) `{!forall x, Decision (P x)} (l : list A) :
  Forall P l -> filter P l = l.
Proof.
  induction 1 as [|x l Hx _ IH]; [done|].
  by rewrite filter_cons_True, IH.
Qed.

Lemma filter_iff_in {A} (P Q : A -> Prop) `{!forall x, Decision (P x)}
  `{!forall x, Decision (Q x)} (l : list A) :
  (forall x, x ∈ l -> P x <-> Q x) -> filter P l = filter Q l.
Proof.
  induction l as [|x l IH]; intros Hiff; [done|].
  rewrite !filter_cons, IH by (intros y Hy; apply Hiff; by right).
  destruct (decide (P x)) as [HP|HP], (decide (Q x)) as [HQ|HQ]; try done.
  - destruct HQ. apply Hiff; [by left|done].
  - destruct HP. apply Hiff; [by left|done].
Qed.

Lemma filter_of_map {A B} (f : A -> B) (P : B -> Prop)
  `{!forall y, Decision (P y)} (l : list A) :
  filter P (map f l) = map f (filter (fun x => P (f x)) l).
Proof.
  induction l as [|x l IH]; [done|]. simpl. rewrite !filter_cons, IH.
  by destruct (decide (P (f x))).
Qed.

Lemma group_size_cons k d data :
  group_size k (d :: data)
  = ((if decide (group_key d = k) then 1 else 0) + group_size k data)%nat.
Proof.
  unfold group_size. rewrite filter_cons.
  by destruct (decide (group_key d = k)).
Qed.

Lemma sum_Z_add {A} (f g : A -> nat) l :
  sum_Z (map (fun k => Z.of_nat (f k + g k)) l)
  = sum_Z (map (fun k => Z.of_nat (f k)) l)
    + sum_Z (map (fun k => Z.of_nat (g k)) l).
Proof. induction l as [|x l IH]; simpl; lia. Qed.

Lemma sum_Z_indicator (P : string * string -> Prop)
  `{!forall k, Decision (P k)} (k0 : string * string) ks :
  NoDup ks ->
  sum_Z (map (fun k => Z.of_nat (if decide (k0 = k) then 1 else 0))
           (filter P ks))
  = if decide (P k0 /\ k0 ∈ ks) then 1 else 0.
Proof.
  induction ks as [|k ks IH]; intros Hnd.
  - simpl. destruct (decide (P k0 /\ k0 ∈ [])) as [[_ Hin]|]; [|done].
    by apply not_elem_of_nil in Hin.
  - apply NoDup_cons in Hnd as [Hk Hnd]. specialize (IH Hnd).
    rewrite filter_cons.
    destruct (decide (P k)) as [HP|HP]; simpl; rewrite IH.
    + destruct (decide (k0 = k)) as [->|Hne].
      * rewrite (decide_False (P:=P k /\ k ∈ ks)) by (by intros [_ ?]).
        rewrite (decide_True (P:=P k /\ k ∈ k :: ks)) by (split; [done|by left]).
        done.
      * destruct (decide (P k0 /\ k0 ∈ ks)) as [[? ?]|Hn].
        -- rewrite decide_True; [done|]. split; [done|by right].
        -- rewrite decide_False; [done|].
           intros [? [->|?]%elem_of_cons]; [done|]. by apply Hn.
    + destruct (decide (P k0 /\ k0 ∈ ks)) as [[? ?]|Hn].
      * rewrite decide_True; [done|]. split; [done|by right].
      * rewrite decide_False; [done|].
        intros [? [->|?]%elem_of_cons]; [done|]. by apply Hn.
Qed.

Lemma sum_group_sizes (P : string * string -> Prop)
  `{!forall k, Decision (P k)} ks data :
  NoDup ks ->
  sum_Z (map (fun k => Z.of_nat (group_size k data)) (filter P ks))
  = Z.of_nat
      (length (filter (fun d => P (group_key d) /\ group_key d ∈ ks) data)).
Proof.
  intros Hnd. induction data as [|d data IH].
  - simpl. induction (filter P ks) as [|k l IHl]; simpl; [done|].
    rewrite IHl. done.
  - rewrite (map_ext _ (fun k => Z.of_nat
                (((fun k => if decide (group_key d = k) then 1 else 0) k
                  + (fun k => group_size k data) k)%nat)))
      by (intros k; by rewrite group_size_cons).
    rewrite sum_Z_add, IH, (sum_Z_indicator P _ _ Hnd), filter_cons.
    destruct (decide (P (group_key d) /\ group_key d ∈ ks)); simpl; lia.
Qed.

Lemma groupby_keys data :
  NoDup (merge_sort key_le (remove_dups (map group_key data))) /\
  forall k, k ∈ merge_sort key_le (remove_dups (map group_key data))
            <-> k ∈ map group_key data.
Proof.
  split.
  - rewrite merge_sort_Permutation. apply NoDup_remove_dups.
  - intros k. by rewrite merge_sort_Permutation, elem_of_remove_dups.
Qed.

Lemma groupby_size_row_keys data :
  map row_key (groupby_size data)
  = merge_sort key_le (remove_dups (map group_key data)).
Proof.
  unfold groupby_size. rewrite map_map. unfold row_key. simpl.
  rewrite <- (map_id (merge_sort _ _)) at 2. apply map_ext. by intros [u c].
Qed.

Lemma groupby_size_total data :
  sum_Z (map engagement_count (groupby_size data)) = Z.of_nat (length data).
Proof.
  destruct (groupby_keys data) as [Hnd Hin].
  unfold groupby_size. rewrite map_map. simpl.
  pose proof (sum_group_sizes (fun _ => True) _ data Hnd) as Hsum.
  rewrite filter_all in Hsum by (by apply Forall_forall).
  rewrite Hsum. f_equal. f_equal.
  apply filter_all, Forall_forall. intros d Hd. split; [done|]. apply Hin.
  change (map group_key data) with (group_key <$> data).
  by apply list_elem_of_fmap_2.
Qed.

Lemma groupby_size_positive data :
  Forall (fun r => 1 <= engagement_count r) (groupby_size data).
Proof.
  destruct (groupby_keys data) as [_ Hin].
  unfold groupby_size. apply Forall_forall. intros r Hr.
  change (map ?f ?l) with (f <$> l) in Hr.
  apply list_elem_of_fmap in Hr as (k & -> & Hk). simpl.
  apply Hin in Hk.
  destruct (group_size k data) eqn:Hz; [|lia].
  by apply group_size_zero in Hz.
Qed.

Lemma total_engagement_groupby data cid :
  total_engagement (groupby_size data) cid
  = Z.of_nat (campaign_records cid data).
Proof.
  destruct (groupby_keys data) as [Hnd Hin].
  unfold total_engagement, groupby_size, campaign_records.
  rewrite filter_of_map, map_map. simpl.
  pose proof (sum_group_sizes (fun k => k.2 = cid) _ data Hnd) as Hsum.
  etrans; [exact Hsum|].
  - f_equal. f_equal. apply filter_iff_in. intros d Hd. simpl. split.
    + by intros [? _].
    + intros Hc. split; [done|]. apply Hin.
      change (map group_key data) with (group_key <$> data).
      by apply list_elem_of_fmap_2.
Qed.

Lemma merge_node_spec n g :
  rels (merge_node n g) = rels g /\
  (forall x, x ∈ nodes (merge_node n g) <-> x ∈ nodes g \/ x = n) /\
  (NoDup (nodes g) -> NoDup (nodes (merge_node n g))).
Proof.
  unfold merge_node. destruct (decide (n ∈ nodes g)) as [Hin|Hin]; simpl.
  - split; [done|]. split; [|done]. intros x. split; [by left|].
    by intros [?| ->].
  - split; [done|]. split.
    + intros x. rewrite elem_of_app, list_elem_of_singleton. done.
    + intros Hnd. apply NoDup_app. split; [done|]. split.
      * intros x Hx ->%list_elem_of_singleton. done.
      * apply NoDup_singleton.
Qed.

Lemma merge_rel_spec r g :
  nodes (merge_rel r g) = nodes g /\
  (forall x, x ∈ rels (merge_rel r g) <-> x ∈ rels g \/ x = r) /\
  (NoDup (rels g) -> NoDup (rels (merge_rel r g))).
Proof.
  unfold merge_rel. destruct (decide (r ∈ rels g)) as [Hin|Hin]; simpl.
  - split; [done|]. split; [|done]. intros x. split; [by left|].
    by intros [?| ->].
  - split; [done|]. split.
    + intros x. rewrite elem_of_app, list_elem_of_singleton. done.
    + intros Hnd. apply NoDup_app. split; [done|]. split.
      * intros x Hx ->%list_elem_of_singleton. done.
      * apply NoDup_singleton.
Qed.

Lemma merge_record_spec g d :
  (forall x, x ∈ nodes (merge_record g d) <-> x ∈ nodes g \/ x ∈ record_nodes d) /\
  (forall x, x ∈ rels (merge_record g d)
             <-> x ∈ rels g \/ x = participated d \/ x = expressed d) /\
  (NoDup (nodes g) -> NoDup (nodes (merge_record g d))) /\
  (NoDup (rels g) -> NoDup (rels (merge_record g d))).
Proof.
  unfold merge_record, cypher_merge, record_nodes.
  set (g1 := merge_node (User (user_id d)) g).
  set (g2 := merge_node (Campaign (Schemas.campaign_id d)) g1).
  set (g3 := merge_node (Intent (intent d)) g2).
  set (g4 := merge_rel _ g3).
  destruct (merge_node_spec (User (user_id d)) g) as (Hr1 & Hn1 & Hd1).
  destruct (merge_node_spec (Campaign (Schemas.campaign_id d)) g1)
    as (Hr2 & Hn2 & Hd2).
  destruct (merge_node_spec (Intent (intent d)) g2) as (Hr3 & Hn3 & Hd3).
  destruct (merge_rel_spec (participated d) g3) as (Hr4 & Hn4 & Hd4).
  destruct (merge_rel_spec (expressed d) g4) as (Hr5 & Hn5 & Hd5).
  fold g1 in Hr1, Hn1, Hd1. fold g2 in Hr2, Hn2, Hd2. fold g3 in Hr3, Hn3, Hd3.
  change (merge_rel (participated d) g3) with g4 in Hr4, Hn4, Hd4.
  change (merge_rel _ g4) with (merge_rel (expressed d) g4).
  split; [|split; [|split]].
  - intros x. rewrite Hr5, Hr4, Hn3, Hn2, Hn1, !elem_of_cons, elem_of_nil. tauto.
  - intros x. rewrite Hn5, Hn4, Hr3, Hr2, Hr1. tauto.
  - intros Hnd. rewrite Hr5, Hr4. auto.
  - intros Hnd. apply Hd5, Hd4. by rewrite Hr3, Hr2, Hr1.
Qed.

Lemma foldl_merge_record_spec data : forall g,
  (forall x, x ∈ nodes (foldl merge_record g data)
             <-> x ∈ nodes g \/ exists d, d ∈ data /\ x ∈ record_nodes d) /\
  (forall x, x ∈ rels (foldl merge_record g data)
             <-> x ∈ rels g \/
                 exists d, d ∈ data /\ (x = participated d \/ x = expressed d)) /\
  (NoDup (nodes g) -> NoDup (nodes (foldl merge_record g data))) /\
  (NoDup (rels g) -> NoDup (rels (foldl merge_record g data))).
Proof.
  induction data as [|d data IH]; intros g.
  - simpl. repeat split; try done; try (by left).
    + intros [?|(d & Hd & _)]; [done|]. by apply not_elem_of_nil in Hd.
    + intros [?|(d & Hd & _)]; [done|]. by apply not_elem_of_nil in Hd.
  - simpl. destruct (IH (merge_record g d)) as (Hn & Hr & Hdn & Hdr).
    destruct (merge_record_spec g d) as (Hn1 & Hr1 & Hdn1 & Hdr1).
    split; [|split; [|split]].
    + intros x. rewrite Hn, Hn1. split.
      * intros [[?|?]|(d' & ? & ?)]; [by left| |].
        -- right. exists d. split; [by left|done].
        -- right. exists d'. split; [by right|done].
      * intros [?|(d' & [->|?]%elem_of_cons & ?)]; [by left; left| |].
        -- by left; right.
        -- right. by exists d'.
    + intros x. rewrite Hr, Hr1. split.
      * intros [[?|?]|(d' & ? & ?)]; [by left| |].
        -- right. exists d. split; [by left|done].
        -- right. exists d'. split; [by right|done].
      * intros [?|(d' & [->|?]%elem_of_cons & ?)]; [by left; left| |].
        -- by left; right.
        -- right. by exists d'.
    + auto.
    + auto.
Qed.

Lemma participated_campaign_Some user_ids r c :
  participated_campaign user_ids r = Some c <->
  exists u ts, u ∈ user_ids /\
    r = {| rel_src := User u; rel_type_of := PARTICIPATED_IN;
           rel_timestamp := ts; rel_dst := Campaign c |}.
Proof.
  unfold participated_campaign. destruct r as [src ty ts dst]. simpl. split.
  - destruct ty, src, dst; try done.
    destruct (decide (id ∈ user_ids)); [|done]. intros [= <-]. by exists id, ts.
  - intros (u & ts' & Hu & [= -> -> -> ->]). by rewrite decide_True.
Qed.

Lemma match_campaigns_spec g user_ids :
  NoDup (match_campaigns g user_ids) /\
  forall c, c ∈ match_campaigns g user_ids <->
    exists u ts, u ∈ user_ids /\
      {| rel_src := User u; rel_type_of := PARTICIPATED_IN;
         rel_timestamp := ts; rel_dst := Campaign c |} ∈ rels g.
Proof.
  unfold match_campaigns. split; [apply NoDup_remove_dups|].
  intros c. rewrite elem_of_remove_dups, list_elem_of_omap. split.
  - intros (r & Hr & (u & ts & Hu & ->)%participated_campaign_Some).
    by exists u, ts.
  - intros (u & ts & Hu & Hr). eexists. split; [exact Hr|].
    apply participated_campaign_Some. by exists u, ts.
Qed.


Lemma ranked_for_campaigns (s : Stores) (campaign_ids : list string) :
  Api.rk_campaign_id <$> ranked_for s campaign_ids
  = fst <$> select_ranked (sqlite s) campaign_ids.
Proof.
  unfold ranked_for. map_as_fmap. rewrite <- list_fmap_compose.
  apply list_fmap_ext. by intros i [c t] _.
Qed.

Lemma ranked_for_scores (s : Stores) (campaign_ids : list string) :
  Forall (fun r => Api.rk_ranking_score r
                   = total_engagement (sqlite s) (Api.rk_campaign_id r))
    (ranked_for s campaign_ids).
Proof.
  unfold ranked_for. map_as_fmap. apply Forall_fmap, Forall_forall.
  intros [c t] Hin. simpl. by apply select_ranked_rows in Hin as (_ & -> & _).
Qed.

Lemma fetch_campaigns_for_users_eq user_ids w :
  Api.fetch_campaigns_for_users user_ids w
  = (Ok (match_campaigns (neo4j (stores w)) user_ids),
     with_trace (trace w ++ [Neo4jMatchCampaigns user_ids]) w).
Proof. reflexivity. Qed.

Lemma loaded_graph_campaigns data user_ids c :
  c ∈ match_campaigns (neo4j (loaded_stores data)) user_ids <->
  exists d, d ∈ data /\ user_id d ∈ user_ids /\ Schemas.campaign_id d = c.
Proof.
  destruct (match_campaigns_spec (neo4j (loaded_stores data)) user_ids)
    as [_ Hspec].
  rewrite Hspec. simpl.
  destruct (foldl_merge_record_spec data empty_graph) as (_ & Hrels & _).
  split.
  - intros (u & ts & Hu & Hr). apply Hrels in Hr as [Hr|(d & Hd & [Hr|Hr])].
    + by apply not_elem_of_nil in Hr.
    + injection Hr as -> -> ->. by exists d.
    + discriminate.
  - intros (d & Hd & Hu & <-). exists (user_id d), (timestamp d).
    split; [done|]. apply Hrels. right. exists d. split; [done|by left].
Qed.

Lemma loaded_table_rows data c :
  (exists r, r ∈ sqlite (loaded_stores data) /\ row_campaign_id r = c) <->
  exists d, d ∈ data /\ Schemas.campaign_id d = c.
Proof.
  simpl. destruct (groupby_keys data) as [_ Hin]. unfold groupby_size.
  map_as_fmap. split.
  - intros (r & (k & -> & Hk)%list_elem_of_fmap & <-). simpl.
    apply Hin in Hk. change (k ∈ group_key <$> data) in Hk.
    apply list_elem_of_fmap in Hk as (d & -> & Hd). by exists d.
  - intros (d & Hd & <-). eexists. split.
    + apply list_elem_of_fmap. exists (group_key d). split; [reflexivity|].
      apply Hin. change (group_key d ∈ group_key <$> data).
      by apply list_elem_of_fmap_2.
    + done.
Qed.

Lemma load_to_dbs_stores data w :
  data <> [] ->
  will_connect Db.retries (milvus_connects w) = true ->
  (Flow.load_to_dbs data w).1 = Ok tt /\
  stores (Flow.load_to_dbs data w).2 = loaded_stores data.
Proof.
  intros Hne Hc.
  destruct (load_to_dbs_ok data w Hne Hc) as (w' & ops & Hrun & Hst & _).
  by destruct (runs_outcome _ _ _ _ _ Hrun) as (-> & -> & _).
Qed.

(** After a load, the analytics table has one row per pair (user_id,
    campaign_id), so the append respects the PRIMARY KEY of the table; every
    count is at least one, and the counts add up to the number of records
    loaded. *)
Theorem loaded_table_counts_every_record_once (data : list Conversation)
  (w : World) :
  data <> [] ->
  will_connect Db.retries (milvus_connects w) = true ->
  NoDup (map row_key (sqlite (stores (Flow.load_to_dbs data w).2))) /\
  Forall (fun r => 1 <= engagement_count r)
    (sqlite (stores (Flow.load_to_dbs data w).2)) /\
  sum_Z (map engagement_count (sqlite (stores (Flow.load_to_dbs data w).2)))
  = Z.of_nat (length data).
Proof.
  intros Hne Hc. destruct (load_to_dbs_stores data w Hne Hc) as [_ ->]. simpl.
  split; [|split].
  - rewrite groupby_size_row_keys. apply groupby_keys.
  - apply groupby_size_positive.
  - apply groupby_size_total.
Qed.

Lemma loaded_table_counts_every_record_once_witness :
  NoDup (map row_key
           (sqlite (stores (Flow.load_to_dbs scenario_records fresh_world).2))) /\
  Forall (fun r => 1 <= engagement_count r)
    (sqlite (stores (Flow.load_to_dbs scenario_records fresh_world).2)) /\
  sum_Z (map engagement_count
           (sqlite (stores (Flow.load_to_dbs scenario_records fresh_world).2)))
  = Z.of_nat (length scenario_records).
Proof.
  apply (loaded_table_counts_every_record_once scenario_records fresh_world).
  - vm_compute. discriminate.
  - reflexivity.
Defined.

(** After a load, the graph holds every node and every relationship once,
    however many records assert it: its nodes are the users, campaigns and
    intents of the records, and its relationships are the PARTICIPATED_IN
    and EXPRESSED relationships of the records, each with the record's
    timestamp. *)
Theorem loaded_graph_holds_what_the_records_assert (data : list Conversation)
  (w : World) :
  data <> [] ->
  will_connect Db.retries (milvus_connects w) = true ->
  NoDup (nodes (neo4j (stores (Flow.load_to_dbs data w).2))) /\
  NoDup (rels (neo4j (stores (Flow.load_to_dbs data w).2))) /\
  (forall n, n ∈ nodes (neo4j (stores (Flow.load_to_dbs data w).2)) <->
             exists d, d ∈ data /\ n ∈ record_nodes d) /\
  (forall r, r ∈ rels (neo4j (stores (Flow.load_to_dbs data w).2)) <->
             exists d, d ∈ data /\ (r = participated d \/ r = expressed d)).
Proof.
  intros Hne Hc. destruct (load_to_dbs_stores data w Hne Hc) as [_ ->]. simpl.
  destruct (foldl_merge_record_spec data empty_graph) as (Hn & Hr & Hdn & Hdr).
  split; [apply Hdn, NoDup_nil_2|]. split; [apply Hdr, NoDup_nil_2|]. split.
  - intros n. rewrite Hn. split; [|by right].
    intros [Hin|?]; [|done]. by apply not_elem_of_nil in Hin.
  - intros r. rewrite Hr. split; [|by right].
    intros [Hin|?]; [|done]. by apply not_elem_of_nil in Hin.
Qed.

Lemma loaded_graph_holds_what_the_records_assert_witness :
  NoDup (nodes (neo4j (stores (Flow.load_to_dbs scenario_records fresh_world).2))) /\
  NoDup (rels (neo4j (stores (Flow.load_to_dbs scenario_records fresh_world).2))) /\
  (forall n,
     n ∈ nodes (neo4j (stores (Flow.load_to_dbs scenario_records fresh_world).2))
     <-> exists d, d ∈ scenario_records /\ n ∈ record_nodes d) /\
  (forall r,
     r ∈ rels (neo4j (stores (Flow.load_to_dbs scenario_records fresh_world).2))
     <-> exists d, d ∈ scenario_records /\
                   (r = participated d \/ r = expressed d)).
Proof.
  apply (loaded_graph_holds_what_the_records_assert scenario_records fresh_world).
  - vm_compute. discriminate.
  - reflexivity.
Defined.

(** After a load, [fetch_campaigns_for_users] returns, each once, exactly
    the campaigns of the loaded records whose user is among the given
    users. *)
Theorem loaded_campaigns_are_found_by_user (data : list Conversation)
  (w : World) (user_ids : list string) :
  data <> [] ->
  will_connect Db.retries (milvus_connects w) = true ->
  exists campaign_ids,
    (Api.fetch_campaigns_for_users user_ids (Flow.load_to_dbs data w).2).1
    = Ok campaign_ids /\
    NoDup campaign_ids /\
    forall c, c ∈ campaign_ids <->
      exists d, d ∈ data /\ user_id d ∈ user_ids /\ Schemas.campaign_id d = c.
Proof.
  intros Hne Hc. destruct (load_to_dbs_stores data w Hne Hc) as [_ Hst].
  eexists. rewrite fetch_campaigns_for_users_eq, Hst. split; [reflexivity|].
  split; [apply match_campaigns_spec|]. intros c. apply loaded_graph_campaigns.
Qed.

Lemma loaded_campaigns_are_found_by_user_witness :
  exists campaign_ids,
    (Api.fetch_campaigns_for_users ["A"; "B"]
       (Flow.load_to_dbs scenario_records fresh_world).2).1
    = Ok campaign_ids /\
    NoDup campaign_ids /\
    forall c, c ∈ campaign_ids <->
      exists d, d ∈ scenario_records /\ user_id d ∈ ["A"; "B"] /\
                Schemas.campaign_id d = c.
Proof.
  apply (loaded_campaigns_are_found_by_user scenario_records fresh_world).
  - vm_compute. discriminate.
  - reflexivity.
Defined.

(** After a load, the campaigns that the graph query finds for any users
    all have rows in the analytics table: [rank_campaigns_by_engagement]
    returns each of them once, none is dropped, and the ranking_score of a
    campaign is the number of loaded records of that campaign. *)
Theorem loaded_campaigns_rank_by_record_count (data : list Conversation)
  (w : World) (user_ids : list string) :
  data <> [] ->
  will_connect Db.retries (milvus_connects w) = true ->
  exists campaign_ids ranked,
    (Api.fetch_campaigns_for_users user_ids (Flow.load_to_dbs data w).2).1
    = Ok campaign_ids /\
    (Api.rank_campaigns_by_engagement campaign_ids (Flow.load_to_dbs data w).2).1
    = Ok ranked /\
    Api.rk_campaign_id <$> ranked ≡ₚ campaign_ids /\
    Forall (fun r => Api.rk_ranking_score r
                     = Z.of_nat (campaign_records (Api.rk_campaign_id r) data) /\
                     1 <= Api.rk_ranking_score r) ranked.
Proof.
  intros Hne Hc. destruct (load_to_dbs_stores data w Hne Hc) as [_ Hst].
  destruct (rank_campaigns_by_engagement_run
              (match_campaigns (neo4j (loaded_stores data)) user_ids)
              (Flow.load_to_dbs data w).2) as (w' & Hrun & _).
  destruct (runs_outcome _ _ _ _ _ Hrun) as (Hres & _).
  eexists _, _. rewrite fetch_campaigns_for_users_eq, Hst.
  split; [reflexivity|]. split; [exact Hres|]. rewrite Hst. split.
  - rewrite ranked_for_campaigns. apply NoDup_Permutation.
    + apply select_ranked_distinct.
    + apply match_campaigns_spec.
    + intros c. rewrite select_ranked_campaigns, loaded_table_rows,
        loaded_graph_campaigns. split; [by intros [? _]|].
      intros (d & Hd & Hu & Hcid). split; by exists d.
  - pose proof (ranked_for_scores (loaded_stores data)
                  (match_campaigns (neo4j (loaded_stores data)) user_ids))
      as Hscores.
    assert (Forall (fun r => Api.rk_campaign_id r
                             ∈ match_campaigns (neo4j (loaded_stores data)) user_ids)
              (ranked_for (loaded_stores data)
                 (match_campaigns (neo4j (loaded_stores data)) user_ids)))
      as Hcands.
    { apply Forall_forall. intros r Hr.
      assert (Api.rk_campaign_id r
              ∈ Api.rk_campaign_id <$> ranked_for (loaded_stores data)
                  (match_campaigns (neo4j (loaded_stores data)) user_ids))
        as Hin by (by apply list_elem_of_fmap_2).
      rewrite ranked_for_campaigns in Hin.
      by apply select_ranked_campaigns in Hin as [? _]. }
    apply Forall_forall. intros r Hr.
    pose proof (proj1 (Forall_forall _ _) Hscores r Hr) as Hscore.
    pose proof (proj1 (Forall_forall _ _) Hcands r Hr) as Hin.
    simpl in Hscore, Hin. rewrite Hscore, total_engagement_groupby.
    split; [done|].
    apply loaded_graph_campaigns in Hin as (d & Hd & _ & Hcid).
    unfold campaign_records.
    assert (d ∈ filter (fun d => Schemas.campaign_id d = Api.rk_campaign_id r) data)
      as Hf by (by apply list_elem_of_filter).
    destruct (filter _ data); [by apply not_elem_of_nil in Hf|]. simpl. lia.
Qed.

Lemma loaded_campaigns_rank_by_record_count_witness :
  exists campaign_ids ranked,
    (Api.fetch_campaigns_for_users ["A"; "B"]
       (Flow.load_to_dbs scenario_records fresh_world).2).1
    = Ok campaign_ids /\
    (Api.rank_campaigns_by_engagement campaign_ids
       (Flow.load_to_dbs scenario_records fresh_world).2).1
    = Ok ranked /\
    Api.rk_campaign_id <$> ranked ≡ₚ campaign_ids /\
    Forall (fun r => Api.rk_ranking_score r
                     = Z.of_nat (campaign_records (Api.rk_campaign_id r)
                                   scenario_records) /\
                     1 <= Api.rk_ranking_score r) ranked.
Proof.
  apply (loaded_campaigns_rank_by_record_count scenario_records fresh_world).
  - vm_compute. discriminate.
  - reflexivity.
Defined.

Lemma Forall2_map_both {A B C} (P : B -> C -> Prop) (f : A -> B) (g : A -> C)
  (l : list A) :
  Forall (fun x => P (f x) (g x)) l -> Forall2 P (map f l) (map g l).
Proof. induction 1; simpl; by constructor. Qed.

(** After a run of the pipeline that has loaded, the document store and the
    vector store are aligned: the i-th document and the i-th vector entry
    have the same message_id and user_id, and the entry holds the embedding
    of the document's message, which is not empty.  The query vector that a
    request computes from a document is therefore a vector of the store. *)
Theorem documents_and_vectors_are_aligned (E : Collaborators) (w : World) :
  valid_records E (file_records (data_file w)) <> [] ->
  will_connect Db.retries (milvus_connects w) = true ->
  Forall2 (aligned E)
    (mongo (stores (Flow.main_data_pipeline E w).2))
    (stored_entities (stores (Flow.main_data_pipeline E w).2)).
Proof.
  intros Hv Hc.
  destruct (main_loads E w Hv Hc) as (w' & ops & Hrun & Hst & _).
  destruct (runs_outcome _ _ _ _ _ Hrun) as (_ & -> & _).
  rewrite Hst. unfold stored_entities. simpl.
  apply Forall2_map_both.
  eapply Forall_impl; [apply valid_records_embedded|].
  intros d [Hemb Hne]. by repeat split.
Qed.

Lemma documents_and_vectors_are_aligned_witness :
  Forall2 (aligned demo)
    (mongo (stores (Flow.main_data_pipeline demo fresh_world).2))
    (stored_entities (stores (Flow.main_data_pipeline demo fresh_world).2)).
Proof.
  apply (documents_and_vectors_are_aligned demo fresh_world).
  - vm_compute. discriminate.
  - reflexivity.
Defined.

Lemma query_vector_of_loaded E (data : list Conversation) (user_id : string)
  (s : Stores) :
  mongo s = map model_dump_exclude_embedding data ->
  query_vector_of E user_id s
  = (fun d => encode E (message d))
      <$> find (fun d => bool_decide (Schemas.user_id d = user_id)) data.
Proof.
  unfold query_vector_of, seed_record. intros ->.
  induction data as [|d data IH]; [done|]. simpl.
  destruct (bool_decide (Schemas.user_id d = user_id)); [done|exact IH].
Qed.

Lemma find_Some_elem {A} (f : A -> bool) (l : list A) (x : A) :
  find f l = Some x -> x ∈ l /\ f x = true.
Proof.
  induction l as [|y l IH]; [done|]. simpl.
  destruct (f y) eqn:Hy.
  - intros [= ->]. split; [by left|done].
  - intros [? ?]%IH. split; [by right|done].
Qed.

Lemma find_None_Forall {A} (f : A -> bool) (l : list A) :
  find f l = None -> Forall (fun x => f x = false) l.
Proof.
  induction l as [|y l IH]; [constructor|]. simpl.
  destruct (f y) eqn:Hy; [done|]. intros ?%IH. by constructor.
Qed.

(** After a run of the pipeline that has loaded, a request for a user who
    has a document is never rejected with the 404: the embedding of a
    stored message is not empty, since the pipeline has dropped the records
    for which it was.  This holds whatever has become of the vector store
    and the cache since. *)
Theorem ingested_user_is_never_not_found (E : Collaborators) (w w2 : World)
  (user_id : string) :
  valid_records E (file_records (data_file w)) <> [] ->
  will_connect Db.retries (milvus_connects w) = true ->
  mongo (stores w2) = mongo (stores (Flow.main_data_pipeline E w).2) ->
  Exists (fun d => doc_user_id d = user_id) (mongo (stores w2)) ->
  exists resp,
    (Api.get_recommendations E user_id w2).1 = Ok resp /\
    Api.resp_user_id resp = user_id.
Proof.
  intros Hv Hc Hmongo Hdoc.
  destruct (main_loads E w Hv Hc) as (w' & ops & Hrun & Hst & _).
  destruct (runs_outcome _ _ _ _ _ Hrun) as (_ & Hw' & _).
  rewrite Hw', Hst in Hmongo. simpl in Hmongo.
  pose proof (query_vector_of_loaded E _ user_id _ Hmongo) as Hq.
  destruct (find _ (valid_records E (file_records (data_file w))))
    as [d|] eqn:Hfind.
  - apply find_Some_elem in Hfind as [Hd _].
    pose proof (proj1 (Forall_forall _ _) (valid_records_embedded E _) d Hd)
      as [_ Hne].
    simpl in Hq. rewrite get_recommendations_outcome.
    destruct (cache_lookup E user_id w2); [by eexists|].
    unfold miss_outcome. rewrite Hq.
    destruct (encode E (message d)) as [|x q]; [done|].
    destruct (similar_users E (stores w2) (x :: q)); [by eexists|].
    destruct (match_campaigns _ _); by eexists.
  - apply find_None_Forall in Hfind. rewrite Hmongo in Hdoc.
    apply Exists_exists in Hdoc as (doc & Hin & Hu).
    change (doc ∈ model_dump_exclude_embedding
                    <$> valid_records E (file_records (data_file w))) in Hin.
    apply list_elem_of_fmap in Hin as (d & -> & Hd).
    pose proof (proj1 (Forall_forall _ _) Hfind d Hd) as Hno. simpl in Hno, Hu.
    by rewrite bool_decide_true in Hno.
Qed.

Lemma ingested_user_is_never_not_found_witness :
  exists resp,
    (Api.get_recommendations demo "A" restarted_world).1 = Ok resp /\
    Api.resp_user_id resp = "A".
Proof.
  apply (ingested_user_is_never_not_found demo fresh_world restarted_world "A").
  - vm_compute. discriminate.
  - reflexivity.
  - reflexivity.
  - apply (bool_decide_unpack _). vm_compute. exact I.
Defined.

(* ------------------------------------------------------------------ *)
(** ** The retrieval steps and the cache *)

Section Flags.
Context {A B : Type}.

Lemma keeps_flags_ret (a : A) : keeps_flags (ret a).
Proof. by intros w. Qed.

Lemma keeps_flags_raise (e : exn) : keeps_flags (raise e : M A).
Proof. by intros w. Qed.

Lemma keeps_flags_bind (m : M A) (k : A -> M B) :
  keeps_flags m -> (forall a, keeps_flags (k a)) -> keeps_flags (bind m k).
Proof.
  intros Hm Hk w. unfold bind. specialize (Hm w).
  destruct (m w) as [[a|e] w1]; simpl in *; [|done].
  destruct (Hk a w1) as [-> ->]. done.
Qed.

Lemma keeps_flags_try (body : M A) handler :
  keeps_flags body ->
  (forall e h, handler e = Some h -> keeps_flags h) ->
  keeps_flags (try_except body handler).
Proof.
  intros Hm Hh w. unfold try_except. specialize (Hm w).
  destruct (body w) as [[a|e] w1]; simpl in *; [done|].
  destruct (handler e) as [h|] eqn:He; [|done].
  destruct (Hh e h He w1) as [-> ->]. done.
Qed.
End Flags.

Lemma keeps_flags_call o : keeps_flags (call o).
Proof. by intros w. Qed.

Lemma keeps_flags_logger l m : keeps_flags (logger l m).
Proof. by intros w. Qed.

Lemma keeps_flags_get_stores : keeps_flags get_stores.
Proof. by intros w. Qed.

Lemma keeps_flags_redis_get key : keeps_flags (Api.redis_get key).
Proof.
  intros w. unfold Api.redis_get, bind, call. simpl.
  destruct (redis_get_raises w) eqn:Hg; simpl; by rewrite ?Hg.
Qed.

Lemma keeps_flags_redis_set key value ex : keeps_flags (Api.redis_set key value ex).
Proof.
  intros w. unfold Api.redis_set, bind, call. simpl.
  destruct (redis_set_raises w) eqn:Hs; simpl; by rewrite ?Hs.
Qed.

Ltac flags_step :=
  first
    [ apply keeps_flags_ret | apply keeps_flags_raise | apply keeps_flags_call
    | apply keeps_flags_logger | apply keeps_flags_get_stores
    | apply keeps_flags_redis_get | apply keeps_flags_redis_set
    | apply keeps_flags_bind; [|intros ?]
    | apply keeps_flags_try; [|intros ? ? [= <-]]
    | match goal with
      | |- keeps_flags (match ?x with _ => _ end) => destruct x
      end ].

Lemma get_recommendations_keeps_flags E user_id :
  keeps_flags (Api.get_recommendations E user_id).
Proof.
  unfold Api.get_recommendations, Api.get_user_query_vector,
    Api.mongo_find_one, Api.search_similar_users,
    Api.fetch_campaigns_for_users, Api.rank_campaigns_by_engagement,
    Api.loads, Db.get_sqlite_conn.
  repeat flags_step.
Qed.

Lemma new_trace_one {A} (m : M A) w o :
  trace (m w).2 = trace w ++ [o] -> new_trace m w = [o].
Proof. unfold new_trace. intros ->. by rewrite drop_app_length. Qed.

(** [search_similar_users] makes one search and returns the user_ids of its
    hits, each once: a user with several hits is returned once, and every
    hit's user is returned.  It changes no store. *)
Theorem similar_users_are_the_owners_of_the_hits (E : Collaborators)
  (query_vector : list float) (k : nat) (w : World) :
  exists ids,
    (Api.search_similar_users E query_vector k w).1 = Ok ids /\
    NoDup ids /\
    (forall u, u ∈ ids <->
       exists hit,
         hit ∈ ann_search E (stored_entities (stores w)) query_vector k /\
         ent_user_id hit = u) /\
    new_trace (Api.search_similar_users E query_vector k) w
    = [MilvusSearch query_vector k] /\
    stores (Api.search_similar_users E query_vector k w).2 = stores w.
Proof.
  eexists. split; [reflexivity|].
  assert (NoDup (remove_dups
                   (map ent_user_id
                      (ann_search E (stored_entities (stores w)) query_vector k))))
    as Hnd by apply NoDup_remove_dups.
  split; [|split; [|split]].
  - eapply NoDup_Permutation_proper; [apply set_iteration_perm, Hnd|exact Hnd].
  - intros u. rewrite (set_iteration_perm E _ Hnd), elem_of_remove_dups.
    change (map ?f ?l) with (f <$> l). rewrite list_elem_of_fmap.
    split; intros (hit & ? & ?); by exists hit.
  - by apply new_trace_one.
  - reflexivity.
Qed.

(** [fetch_campaigns_for_users] makes one query and returns, each once, the
    campaigns to which a PARTICIPATED_IN relationship leads from one of the
    given users; for no users it returns no campaign.  It changes no
    store. *)
Theorem campaigns_are_those_the_users_participated_in (user_ids : list string)
  (w : World) :
  exists campaign_ids,
    (Api.fetch_campaigns_for_users user_ids w).1 = Ok campaign_ids /\
    NoDup campaign_ids /\
    (forall c, c ∈ campaign_ids <->
       exists u ts, u ∈ user_ids /\
         {| rel_src := User u; rel_type_of := PARTICIPATED_IN;
            rel_timestamp := ts; rel_dst := Campaign c |}
         ∈ rels (neo4j (stores w))) /\
    (user_ids = [] -> campaign_ids = []) /\
    new_trace (Api.fetch_campaigns_for_users user_ids) w
    = [Neo4jMatchCampaigns user_ids] /\
    stores (Api.fetch_campaigns_for_users user_ids w).2 = stores w.
Proof.
  eexists. rewrite fetch_campaigns_for_users_eq. split; [reflexivity|].
  destruct (match_campaigns_spec (neo4j (stores w)) user_ids) as [Hnd Hspec].
  split; [done|]. split; [done|]. split; [|split].
  - intros ->. apply elem_of_nil_inv. intros c Hc.
    apply Hspec in Hc as (u & ts & Hu & _). by apply not_elem_of_nil in Hu.
  - apply new_trace_one. by rewrite fetch_campaigns_for_users_eq.
  - reflexivity.
Qed.

(** [rank_campaigns_by_engagement] opens its own SQLite connection, makes
    one query and closes the connection; it returns the candidates that have
    at least one row in the table, and leaves out, without an error, those
    that have none; for no candidates it returns the empty list.  It changes
    no store. *)
Theorem ranking_keeps_the_candidates_with_rows (campaign_ids : list string)
  (w : World) :
  exists ranked,
    (Api.rank_campaigns_by_engagement campaign_ids w).1 = Ok ranked /\
    (forall c, c ∈ (Api.rk_campaign_id <$> ranked) <->
       c ∈ campaign_ids /\
       exists r, r ∈ sqlite (stores w) /\ row_campaign_id r = c) /\
    (campaign_ids = [] -> ranked = []) /\
    new_trace (Api.rank_campaigns_by_engagement campaign_ids) w
    = [SqliteCreateTableIfNotExists; SqliteSelectRanked campaign_ids;
       SqliteClose] /\
    stores (Api.rank_campaigns_by_engagement campaign_ids w).2 = stores w.
Proof.
  destruct (rank_campaigns_by_engagement_run campaign_ids w)
    as (w' & Hrun & Hst & _).
  destruct (runs_outcome _ _ _ _ _ Hrun) as (-> & -> & ->).
  eexists. split; [reflexivity|]. split; [|split; [|done]].
  - intros c. rewrite ranked_for_campaigns. apply select_ranked_campaigns.
  - intros ->. apply fmap_nil_inv with (f := Api.rk_campaign_id).
    apply elem_of_nil_inv. intros c Hc.
    rewrite ranked_for_campaigns in Hc.
    apply select_ranked_campaigns in Hc as [Hc _].
    by apply not_elem_of_nil in Hc.
Qed.

Lemma annotate_ranked_for (s : Stores) (campaign_ids : list string) :
  StronglySorted (fun a b => Api.ranking_score b <= Api.ranking_score a)
    (Api.annotate (ranked_for s campaign_ids)) /\
  Forall (fun x => Api.reason x = Api.REASON)
    (Api.annotate (ranked_for s campaign_ids)) /\
  NoDup (Api.campaign_id <$> Api.annotate (ranked_for s campaign_ids)).
Proof.
  unfold Api.annotate, ranked_for. map_as_fmap. rewrite <- !list_fmap_compose.
  split; [|split].
  - eapply StronglySorted_fmap; [|apply select_ranked_sorted].
    intros a b Hab. exact Hab.
  - by apply Forall_fmap, Forall_forall.
  - rewrite (list_fmap_ext _ fst (select_ranked (sqlite s) campaign_ids));
      [apply select_ranked_distinct|].
    by intros i [cid total] _.
Qed.

(** Every request ends in a response that names the user and whose source is
    "cache" or "computed", or in the 404 for that user.  A computed response
    carries a list of objects with campaign_id, ranking_score and reason, in
    descending order of ranking_score, with the fixed reason and no campaign
    twice. *)
Theorem every_answer_is_well_formed (E : Collaborators) (user_id : string)
  (w : World) :
  match (Api.get_recommendations E user_id w).1 with
  | Ok resp =>
      Api.resp_user_id resp = user_id /\
      (Api.retrieval_source resp = "cache" \/
       Api.retrieval_source resp = "computed" /\
       exists recs,
         Api.recommendations resp = Api.recs_json recs /\
         StronglySorted
           (fun a b => Api.ranking_score b <= Api.ranking_score a) recs /\
         Forall (fun x => Api.reason x = Api.REASON) recs /\
         NoDup (Api.campaign_id <$> recs))
  | Raise e => e = Api.not_found user_id
  end.
Proof.
  assert (forall resp, resp = empty_response user_id ->
            Api.resp_user_id resp = user_id /\
            (Api.retrieval_source resp = "cache" \/
             Api.retrieval_source resp = "computed" /\
             exists recs,
               Api.recommendations resp = Api.recs_json recs /\
               StronglySorted
                 (fun a b => Api.ranking_score b <= Api.ranking_score a) recs /\
               Forall (fun x => Api.reason x = Api.REASON) recs /\
               NoDup (Api.campaign_id <$> recs))) as Hempty.
  { intros resp ->. split; [done|]. right. split; [done|]. exists [].
    repeat split; by constructor. }
  rewrite get_recommendations_outcome.
  destruct (cache_lookup E user_id w) as [value|]; [split; [done|by left]|].
  unfold miss_outcome.
  destruct (query_vector_of E user_id (stores w)) as [[|x q]|]; [done| |done].
  destruct (similar_users E (stores w) (x :: q)) as [|id ids]; [by apply Hempty|].
  destruct (match_campaigns (neo4j (stores w)) (id :: ids)) as [|c cs];
    [by apply Hempty|].
  split; [done|]. right. split; [done|].
  exists (Api.annotate (ranked_for (stores w) (c :: cs))).
  split; [done|]. apply annotate_ranked_for.
Qed.

(** A request that has written the cache is answered from the cache when it
    is repeated: the write was under the key rec:<user_id>, with the
    configured time to live and the dump of the recommendations returned;
    the next request makes the Redis GET and no other store call, and
    returns what [json.loads] makes of that text, with source "cache". *)
Theorem repeated_request_is_served_from_the_cache (E : Collaborators)
  (user_id key text : string) (ttl : Z) (value : json) (w : World) :
  redis_get_raises w = false ->
  redis_set_raises w = false ->
  RedisSet key text ttl ∈ new_trace (Api.get_recommendations E user_id) w ->
  str_truthy text = true ->
  json_loads E text = Some value ->
  key = "rec:" +:+ user_id /\
  ttl = Config.RECOMMENDATION_CACHE_TTL_SECONDS /\
  (exists recs,
     (Api.get_recommendations E user_id w).1
     = Ok {| Api.resp_user_id := user_id; Api.recommendations := recs;
             Api.retrieval_source := "computed" |} /\
     text = json_dumps E recs) /\
  (Api.get_recommendations E user_id (Api.get_recommendations E user_id w).2).1
  = Ok (cached_response user_id value) /\
  new_trace (Api.get_recommendations E user_id)
    (Api.get_recommendations E user_id w).2
  = [RedisGet ("rec:" +:+ user_id)].
Proof.
  intros Hget Hset Hin Htext Hloads.
  destruct (get_recommendations_keeps_flags E user_id w) as [Hget1 _].
  destruct (get_recommendations_served E user_id w) as [Hserved _].
  destruct (get_recommendations_served E user_id
              (Api.get_recommendations E user_id w).2) as [Hnext _].
  remember (Api.get_recommendations E user_id w).1 as r eqn:Hr.
  remember (new_trace (Api.get_recommendations E user_id) w) as t eqn:Ht.
  remember (redis (Api.get_recommendations E user_id w).2) as c eqn:Hc.
  destruct Hserved as [v Hl | Hl Hq | q' Hl Hq Hne Hs | q' Hl Hq Hne Hs Hcs
                      | q' cids Hl Hq Hne Hs Hcs Hcne];
    set_unfold in Hin; destruct_or?; try discriminate.
  injection Hin as -> -> ->.
  split; [done|]. split; [done|]. split; [by eexists|].
  assert (cache_lookup E user_id (Api.get_recommendations E user_id w).2
          = Some value) as Hhit.
  { unfold cache_lookup. rewrite Hget1, Hget, <- Hc.
    unfold cache_after_write. rewrite Hset, lookup_insert_eq.
    by rewrite Htext, Hloads. }
  split.
  - by rewrite get_recommendations_outcome, Hhit.
  - destruct Hnext; congruence.
Qed.

Lemma repeated_request_is_served_from_the_cache_witness :
  "rec:A" = "rec:" +:+ "A" /\
  300 = Config.RECOMMENDATION_CACHE_TTL_SECONDS /\
  (exists recs,
     (Api.get_recommendations demo "A" ingested_world).1
     = Ok {| Api.resp_user_id := "A"; Api.recommendations := recs;
             Api.retrieval_source := "computed" |} /\
     "[{}]" = json_dumps demo recs) /\
  (Api.get_recommendations demo "A"
     (Api.get_recommendations demo "A" ingested_world).2).1
  = Ok (cached_response "A" (JArr [JObj []])) /\
  new_trace (Api.get_recommendations demo "A")
    (Api.get_recommendations demo "A" ingested_world).2
  = [RedisGet ("rec:" +:+ "A")].
Proof.
  apply (repeated_request_is_served_from_the_cache demo "A" "rec:A" "[{}]" 300
           (JArr [JObj []]) ingested_world); try reflexivity.
  replace (new_trace (Api.get_recommendations demo "A") ingested_world)
    with [RedisGet "rec:A"; MongoFindOne "A"; MilvusSearch [1%float; 0%float] 5;
          Neo4jMatchCampaigns ["A"; "B"]; SqliteCreateTableIfNotExists;
          SqliteSelectRanked ["X"]; SqliteClose; RedisSet "rec:A" "[{}]" 300]
    by (vm_compute; reflexivity).
  set_solver.
Defined.

(** A cache entry that is empty or that [json.loads] cannot decode is treated
    as a miss: the decode error is caught with the errors of the Redis
    client, the request goes on to the document store, and its answer is the
    one it would give with no entry for the user. *)
Theorem undecodable_cache_entry_is_a_miss (E : Collaborators)
  (user_id text : string) (ttl : Z) (w : World) :
  redis_get_raises w = false ->
  redis w !! ("rec:" +:+ user_id) = Some (text, ttl) ->
  text = EmptyString \/ json_loads E text = None ->
  (Api.get_recommendations E user_id w).1
  = (Api.get_recommendations E user_id (as_miss user_id w)).1 /\
  MongoFindOne user_id ∈ new_trace (Api.get_recommendations E user_id) w.
Proof.
  intros Hget Hentry Hbad.
  assert (cache_lookup E user_id w = None) as Hmiss.
  { unfold cache_lookup. rewrite Hget, Hentry.
    destruct Hbad as [->| ->]; [done|]. by destruct (str_truthy text). }
  split.
  - by rewrite !get_recommendations_outcome, Hmiss, cache_lookup_as_miss.
  - destruct (get_recommendations_served E user_id w) as [Hserved _].
    destruct Hserved; [congruence|..];
      apply elem_of_cons; right; apply elem_of_cons; by left.
Qed.

Lemma undecodable_cache_entry_is_a_miss_witness :
  (Api.get_recommendations demo "A" corrupt_cache_world).1
  = (Api.get_recommendations demo "A" (as_miss "A" corrupt_cache_world)).1 /\
  MongoFindOne "A" ∈ new_trace (Api.get_recommendations demo "A") corrupt_cache_world.
Proof.
  apply (undecodable_cache_entry_is_a_miss demo "A" "not json" 300
           corrupt_cache_world).
  - reflexivity.
  - reflexivity.
  - right. reflexivity.
Defined.

Lemma select_ranked_no_rows (table : list AnalyticsRow)
  (campaign_ids : list string) :
  Forall (fun r => row_campaign_id r ∉ campaign_ids) table ->
  select_ranked table campaign_ids = [].
Proof.
  intros Hnone. apply fmap_nil_inv with (f := fst). apply elem_of_nil_inv.
  intros c [Hc (r & Hr & <-)]%select_ranked_campaigns.
  by apply (proj1 (Forall_forall _ _) Hnone r Hr).
Qed.

(** When the ranking query of a request is made and the analytics table has
    no row for any of the candidates, the request returns the empty
    "computed" list and, unlike the two early exits, writes it to the cache:
    the empty list is then served from the cache until the entry expires. *)
Theorem empty_ranking_is_cached (E : Collaborators) (user_id : string)
  (campaign_ids : list string) (w : World) :
  redis_set_raises w = false ->
  SqliteSelectRanked campaign_ids
    ∈ new_trace (Api.get_recommendations E user_id) w ->
  Forall (fun r => row_campaign_id r ∉ campaign_ids) (sqlite (stores w)) ->
  (Api.get_recommendations E user_id w).1 = Ok (empty_response user_id) /\
  redis (Api.get_recommendations E user_id w).2 !! ("rec:" +:+ user_id)
  = Some (json_dumps E (JArr []), Config.RECOMMENDATION_CACHE_TTL_SECONDS).
Proof.
  intros Hset Hin Hnone.
  destruct (get_recommendations_served E user_id w) as [Hserved _].
  remember (Api.get_recommendations E user_id w).1 as r eqn:Hr.
  remember (new_trace (Api.get_recommendations E user_id) w) as t eqn:Ht.
  remember (redis (Api.get_recommendations E user_id w).2) as c eqn:Hc.
  destruct Hserved as [v Hl | Hl Hq | q' Hl Hq Hne Hs | q' Hl Hq Hne Hs Hcs
                      | q' cids Hl Hq Hne Hs Hcs Hcne];
    set_unfold in Hin; destruct_or?; try discriminate.
  injection Hin as ->.
  unfold ranked_response, cache_after_write, ranked_for.
  rewrite Hset, (select_ranked_no_rows _ _ Hnone), lookup_insert_eq. done.
Qed.

Lemma empty_ranking_is_cached_witness :
  (Api.get_recommendations demo "A" lost_analytics_world).1
  = Ok (empty_response "A") /\
  redis (Api.get_recommendations demo "A" lost_analytics_world).2
    !! ("rec:" +:+ "A")
  = Some (json_dumps demo (JArr []), Config.RECOMMENDATION_CACHE_TTL_SECONDS).
Proof.
  apply (empty_ranking_is_cached demo "A" ["X"] lost_analytics_world).
  - reflexivity.
  - replace (new_trace (Api.get_recommendations demo "A") lost_analytics_world)
      with [RedisGet "rec:A"; MongoFindOne "A";
            MilvusSearch [1%float; 0%float] 5;
            Neo4jMatchCampaigns ["A"; "B"]; SqliteCreateTableIfNotExists;
            SqliteSelectRanked ["X"]; SqliteClose; RedisSet "rec:A" "[]" 300]
      by (vm_compute; reflexivity).
    set_solver.
  - constructor.
Defined.

(* ------------------------------------------------------------------ *)
(** ** Extraction, and the calls of a load *)


(** For a data file that is missing, that is not JSON, or that holds a JSON
    list of objects, [extract_raw_data] returns and makes no store call.  It
    returns the list of the file after logging its length; for a missing
    file and for a file that is not JSON it catches the exception and returns
    the empty list after logging an error, a different one in each case. *)
Theorem extract_raw_data_handles_a_missing_or_broken_file (w : World) :
  data_file w = FileMissing \/
  data_file w = FileNotJson \/
  (exists data, data_file w = FileJson data) ->
  (Flow.extract_raw_data w).1
  = Ok (match data_file w with FileJson data => data | _ => [] end) /\
  new_log Flow.extract_raw_data w
  = [(INFO, MsgExtracting);
     match data_file w with
     | FileJson data => (INFO, MsgExtracted (length data))
     | FileMissing => (ERROR, MsgFileNotFound)
     | FileNotJson => (ERROR, MsgJsonDecodeError)
     end] /\
  new_trace Flow.extract_raw_data w = [] /\
  stores (Flow.extract_raw_data w).2 = stores w.
Proof.
  intros Hfile.
  unfold new_log, new_trace, Flow.extract_raw_data, Flow.json_load_file,
    try_except, bind, logger, ret.
  simpl. destruct Hfile as [-> | [-> | [data ->]]]; simpl;
    rewrite <- ?app_assoc, drop_app_length, drop_ge by done; done.
Qed.

Lemma extract_raw_data_handles_a_missing_or_broken_file_witness :
  (Flow.extract_raw_data (world_of empty_stores FileNotJson)).1 = Ok [] /\
  new_log Flow.extract_raw_data (world_of empty_stores FileNotJson)
  = [(INFO, MsgExtracting); (ERROR, MsgJsonDecodeError)] /\
  new_trace Flow.extract_raw_data (world_of empty_stores FileNotJson) = [] /\
  stores (Flow.extract_raw_data (world_of empty_stores FileNotJson)).2
  = stores (world_of empty_stores FileNotJson).
Proof.
  apply (extract_raw_data_handles_a_missing_or_broken_file
           (world_of empty_stores FileNotJson)).
  right. left. reflexivity.
Defined.

Lemma for_each_merge_trace data : forall w,
  exists w',
    runs (for_each data Flow.neo4j_merge) w (Ok tt) w' (map merge_call data) /\
    stores w' = set_neo4j (foldl merge_record (neo4j (stores w)) data) (stores w).
Proof.
  induction data as [|d data IH]; intros w.
  - eexists. split; [simpl; run|]. simpl. by destruct (stores w).
  - destruct (IH (with_stores
                    (set_neo4j (merge_record (neo4j (stores w)) d) (stores w))
                    (with_trace (trace w ++ [merge_call d]) w)))
      as (w' & Hrun & Hst).
    eexists. split.
    { eapply runs_ops_eq.
      - simpl. eapply runs_bind_ok; [run|]. exact Hrun.
      - reflexivity. }
    rewrite Hst. norm_world. simpl. reflexivity.
Qed.

Lemma load_to_dbs_trace data w texts rest :
  data <> [] ->
  milvus_connects w = (ConnectRaises <$> texts) ++ rest ->
  Forall (fun t => retryable t = true) texts ->
  (length texts < Db.retries)%nat ->
  match rest with ConnectRaises _ :: _ => False | _ => True end ->
  exists w',
    runs (Flow.load_to_dbs data) w (Ok tt) w'
      (failed_attempts (length texts) ++ [MilvusConnect] ++
       schema_setup (bool_decide (milvus (stores w) <> None)) ++
       [SqliteCreateTableIfNotExists] ++ load_calls data).
Proof.
  intros Hne Hc Hall Hlen Hhead.
  edestruct (get_milvus_connection_trace
               (with_log (log w ++ [(INFO, MsgLoading (length data))]) w)
               texts rest)
    as (w1 & Hrun1 & Hst1 & _); [exact Hc|exact Hall|exact Hlen|exact Hhead|].
  norm_world in Hrun1.
  edestruct (for_each_merge_trace data) as (w2 & Hrun2 & Hst2).
  eexists. eapply runs_ops_eq.
  - unfold Flow.load_to_dbs.
    eapply runs_bind_ok; [run|].
    eapply runs_bind_ok; [run|].
    eapply runs_bind_ok; [exact Hrun1|].
    run. unfold Flow.mongo_insert_many.
    rewrite truthy_map, (truthy_true _ Hne).
    run. eapply runs_bind_ok; [exact Hrun2|]. run.
  - unfold load_calls. rewrite <- !app_assoc. simpl. reflexivity.
Qed.

(** A load with a Milvus that answers at the first attempt makes these
    calls and no other, in this order: the connect and the schema setup,
    the creation of the analytics table if it is missing, then per store the
    clear and the insert; the vector insert is followed by a flush, one MERGE
    call is made per record in the order of the input, and the analytics
    append is committed before the connection is closed. *)
Theorem load_flushes_commits_and_closes (data : list Conversation) (w : World)
  (rest : list connect_outcome) :
  data <> [] ->
  milvus_connects w = Connected :: rest ->
  (Flow.load_to_dbs data w).1 = Ok tt /\
  new_trace (Flow.load_to_dbs data) w
  = [MilvusConnect] ++
    schema_setup (bool_decide (milvus (stores w) <> None)) ++
    [SqliteCreateTableIfNotExists] ++ load_calls data.
Proof.
  intros Hne Hc.
  destruct (load_to_dbs_trace data w [] (Connected :: rest) Hne Hc)
    as (w' & Hrun); [constructor|unfold Db.retries; simpl; lia|done|].
  by destruct (runs_outcome _ _ _ _ _ Hrun) as (-> & _ & ->).
Qed.

Lemma load_flushes_commits_and_closes_witness :
  (Flow.load_to_dbs scenario_records starting_once_world).1 = Ok tt /\
  new_trace (Flow.load_to_dbs scenario_records) starting_once_world
  = [MilvusConnect] ++
    schema_setup (bool_decide (milvus (stores starting_once_world) <> None)) ++
    [SqliteCreateTableIfNotExists] ++ load_calls scenario_records.
Proof.
  apply (load_flushes_commits_and_closes scenario_records starting_once_world []).
  - vm_compute. discriminate.
  - reflexivity.
Defined.

(* ------------------------------------------------------------------ *)
(** ** Cache failures in the log *)

Section GrowsLog.
Context {A B : Type}.

Lemma grows_log_ret (a : A) : grows_log (ret a).
Proof. intros w. exists []. by rewrite app_nil_r. Qed.

Lemma grows_log_raise (e : exn) : grows_log (raise e : M A).
Proof. intros w. exists []. by rewrite app_nil_r. Qed.

Lemma grows_log_bind (m : M A) (k : A -> M B) :
  grows_log m -> (forall a, grows_log (k a)) -> grows_log (bind m k).
Proof.
  intros Hm Hk w. unfold bind. destruct (Hm w) as [l1 Hl1].
  destruct (m w) as [[a|e] w1]; simpl in *; [|by exists l1].
  destruct (Hk a w1) as [l2 Hl2]. exists (l1 ++ l2).
  by rewrite Hl2, Hl1, app_assoc.
Qed.

Lemma grows_log_try (body : M A) handler :
  grows_log body ->
  (forall e h, handler e = Some h -> grows_log h) ->
  grows_log (try_except body handler).
Proof.
  intros Hm Hh w. unfold try_except. destruct (Hm w) as [l1 Hl1].
  destruct (body w) as [[a|e] w1]; simpl in *; [by exists l1|].
  destruct (handler e) as [h|] eqn:He; [|by exists l1].
  destruct (Hh e h He w1) as [l2 Hl2]. exists (l1 ++ l2).
  by rewrite Hl2, Hl1, app_assoc.
Qed.
End GrowsLog.

Lemma grows_log_call o : grows_log (call o).
Proof. intros w. exists []. simpl. by rewrite app_nil_r. Qed.

Lemma grows_log_logger l m : grows_log (logger l m).
Proof. intros w. by exists [(l, m)]. Qed.

Lemma grows_log_get_stores : grows_log get_stores.
Proof. intros w. exists []. simpl. by rewrite app_nil_r. Qed.

Lemma grows_log_redis_get key : grows_log (Api.redis_get key).
Proof.
  intros w. exists []. unfold Api.redis_get, bind, call. simpl.
  destruct (redis_get_raises w); simpl; by rewrite app_nil_r.
Qed.

Lemma grows_log_redis_set key value ex : grows_log (Api.redis_set key value ex).
Proof.
  intros w. exists []. unfold Api.redis_set, bind, call. simpl.
  destruct (redis_set_raises w); simpl; by rewrite app_nil_r.
Qed.

Ltac grows_step :=
  first
    [ apply grows_log_ret | apply grows_log_raise | apply grows_log_call
    | apply grows_log_logger | apply grows_log_get_stores
    | apply grows_log_redis_get | apply grows_log_redis_set
    | apply grows_log_bind; [|intros ?]
    | apply grows_log_try; [|intros ? ? [= <-]]
    | match goal with
      | |- grows_log (match ?x with _ => _ end) => destruct x
      end ].

Lemma bind_logger_first {B} l m (k : unit -> M B) w :
  grows_log (k tt) ->
  exists lines, log (bind (logger l m) k w).2 = log w ++ (l, m) :: lines.
Proof.
  intros Hk. unfold bind, logger.
  destruct (Hk (with_log (log w ++ [(l, m)]) w)) as [lines Hlines].
  exists lines. rewrite Hlines. simpl. by rewrite <- app_assoc.
Qed.

Lemma on_miss_first_line E user_id w :
  exists lines,
    log (on_miss E user_id w).2 = log w ++ (INFO, MsgCacheMiss user_id) :: lines.
Proof.
  unfold on_miss. apply bind_logger_first.
  unfold expand_and_rank, Api.get_user_query_vector,
    Api.mongo_find_one, Api.search_similar_users,
    Api.fetch_campaigns_for_users, Api.rank_campaigns_by_engagement,
    Db.get_sqlite_conn.
  repeat grows_step.
Qed.

Lemma cache_check_read_failure E user_id w :
  redis_get_raises w = true ->
  cache_check E user_id w
  = (Ok None,
     with_log (log w ++ [(WARNING, MsgCacheReadFailed)])
       (with_trace (trace w ++ [RedisGet ("rec:" +:+ user_id)]) w)).
Proof.
  intros Hget. unfold cache_check, try_except, bind, Api.redis_get, call.
  cbn. rewrite Hget. reflexivity.
Qed.

(** When the Redis client fails on the GET, the first line that the request
    logs is the warning of the failed cache read, and the second is the line
    of a cache miss: the failure is reported and the request goes on as for a
    miss. *)
Theorem cache_read_failure_is_logged (E : Collaborators) (user_id : string)
  (w : World) :
  redis_get_raises w = true ->
  exists lines,
    new_log (Api.get_recommendations E user_id) w
    = (WARNING, MsgCacheReadFailed) :: (INFO, MsgCacheMiss user_id) :: lines.
Proof.
  intros Hget. unfold new_log. rewrite get_recommendations_split.
  unfold bind at 1. rewrite (cache_check_read_failure E user_id w Hget).
  destruct (on_miss_first_line E user_id
              (with_log (log w ++ [(WARNING, MsgCacheReadFailed)])
                 (with_trace (trace w ++ [RedisGet ("rec:" +:+ user_id)]) w)))
    as [lines Hlines].
  exists lines. rewrite Hlines. simpl.
  by rewrite <- app_assoc, drop_app_length.
Qed.

Lemma cache_read_failure_is_logged_witness :
  exists lines,
    new_log (Api.get_recommendations demo "A") redis_down_world
    = (WARNING, MsgCacheReadFailed) :: (INFO, MsgCacheMiss "A") :: lines.
Proof.
  apply (cache_read_failure_is_logged demo "A" redis_down_world). reflexivity.
Defined.

Lemma on_miss_log E user_id w query_vector :
  query_vector_of E user_id (stores w) = Some query_vector ->
  query_vector <> [] ->
  exists w2 lines,
    on_miss E user_id w
    = expand_and_rank E user_id (similar_users E (stores w) query_vector) w2 /\
    log w2 = log w ++ lines /\ stores w2 = stores w /\
    redis_set_raises w2 = redis_set_raises w.
Proof.
  intros Hq Hne.
  pose proof (runs_eq _ _ _ _ _
                (get_user_query_vector_run E user_id
                   (with_log (log w ++ [(INFO, MsgCacheMiss user_id)]) w)))
    as Hvec.
  norm_world in Hvec. rewrite Hq in Hvec.
  eexists _, _. split; [|split; [|split]].
  - unfold on_miss. unfold bind at 1. unfold logger at 1.
    unfold bind at 1. rewrite Hvec.
    destruct query_vector as [|x q]; [done|].
    unfold bind at 1.
    rewrite (runs_eq _ _ _ _ _ (search_similar_users_run E (x :: q) _)).
    unfold bind at 1. unfold logger at 1. norm_world. reflexivity.
  - norm_world. by rewrite <- app_assoc.
  - by norm_world.
  - by norm_world.
Qed.

Lemma bind_ok_eq {A B} (m : M A) (k : A -> M B) w a w1 :
  m w = (Ok a, w1) -> bind m k w = k a w1.
Proof. intros Hm. unfold bind. by rewrite Hm. Qed.

Lemma cache_write_failure_eq key value ex w :
  redis_set_raises w = true ->
  try_except (Api.redis_set key value ex)
    (fun e => Some (logger WARNING MsgCacheWriteFailed)) w
  = (Ok tt,
     with_log (log w ++ [(WARNING, MsgCacheWriteFailed)])
       (with_trace (trace w ++ [RedisSet key value ex]) w)).
Proof.
  intros Hset. unfold try_except, Api.redis_set, bind, call, logger.
  cbn. rewrite Hset. reflexivity.
Qed.

Lemma expand_write_failure_log E user_id ids w :
  ids <> [] ->
  match_campaigns (neo4j (stores w)) ids <> [] ->
  redis_set_raises w = true ->
  exists lines,
    log (expand_and_rank E user_id ids w).2
    = log w ++ lines ++ [(WARNING, MsgCacheWriteFailed)].
Proof.
  intros Hids Hcs Hset.
  pose proof (fetch_campaigns_for_users_eq ids w) as Hfetch.
  remember (match_campaigns (neo4j (stores w)) ids) as cids eqn:Hcids.
  remember (with_trace (trace w ++ [Neo4jMatchCampaigns ids]) w) as w1 eqn:Hw1.
  assert (log w1 = log w /\ redis_set_raises w1 = true) as [Hl1 Hset1]
    by (by subst w1).
  clear Hw1 Hcids.
  remember (with_log (log w1 ++ [(INFO, MsgRelatedCampaigns cids)]) w1)
    as w2 eqn:Hw2.
  assert (logger INFO (MsgRelatedCampaigns cids) w1 = (Ok tt, w2)) as Hlog2
    by (by subst w2).
  assert (log w2 = log w1 ++ [(INFO, MsgRelatedCampaigns cids)] /\
          redis_set_raises w2 = true) as [Hl2 Hset2] by (by subst w2).
  clear Hw2.
  destruct (rank_campaigns_by_engagement_run cids w2) as (w3 & Hrank & _ & _).
  destruct (runs_log _ _ _ _ _ Hrank) as [l3 Hl3].
  destruct (runs_flags _ _ _ _ _ Hrank) as [_ Hset3].
  apply runs_eq in Hrank.
  remember (ranked_for (stores w2) cids) as ranked eqn:Hranked. clear Hranked.
  unfold expand_and_rank.
  rewrite (truthy_true _ Hids). cbn [negb].
  rewrite (bind_ok_eq _ _ _ _ _ Hfetch).
  rewrite (bind_ok_eq _ _ _ _ _ Hlog2).
  rewrite (truthy_true _ Hcs). cbn [negb].
  rewrite (bind_ok_eq _ _ _ _ _ Hrank).
  erewrite (bind_ok_eq (logger _ _)) by reflexivity.
  erewrite (bind_ok_eq (try_except _ _)).
  2:{ apply cache_write_failure_eq. cbn [redis_set_raises with_log].
      by rewrite Hset3. }
  unfold ret. cbn [snd log with_log with_trace].
  exists ([(INFO, MsgRelatedCampaigns cids)] ++ l3 ++
          [(INFO, MsgRanked (map (fun r => (Api.rk_campaign_id r,
                                            Api.rk_ranking_score r)) ranked))]).
  rewrite Hl3, Hl2, Hl1, <- !app_assoc. reflexivity.
Qed.

Lemma write_failure_last_line (E : Collaborators) (user_id key text : string)
  (ttl : Z) (w : World) :
  redis_set_raises w = true ->
  RedisSet key text ttl ∈ new_trace (Api.get_recommendations E user_id) w ->
  last (new_log (Api.get_recommendations E user_id) w)
  = Some (WARNING, MsgCacheWriteFailed).
Proof.
  intros Hset Hin.
  destruct (get_recommendations_served E user_id w) as [Hserved _].
  remember (Api.get_recommendations E user_id w).1 as r eqn:Hr.
  remember (new_trace (Api.get_recommendations E user_id) w) as t eqn:Ht.
  remember (redis (Api.get_recommendations E user_id w).2) as c eqn:Hc.
  destruct Hserved as [v Hl | Hl Hq | q' Hl Hq Hne Hs | q' Hl Hq Hne Hs Hcs
                      | q' cids Hl Hq Hne Hs Hcs Hcne];
    set_unfold in Hin; destruct_or?; try discriminate.
  clear Hr Ht Hc Hin.
  destruct (cache_check_run E user_id w) as (w1 & Hcheck & Hst1 & _).
  rewrite Hl in Hcheck. simpl in Hcheck.
  destruct (runs_log _ _ _ _ _ Hcheck) as [l1 Hl1].
  destruct (runs_flags _ _ _ _ _ Hcheck) as [_ Hset1].
  apply runs_eq in Hcheck.
  destruct (on_miss_log E user_id w1 q') as (w2 & l2 & Hmiss & Hl2 & Hst2 & Hset2);
    [by rewrite Hst1|done|].
  destruct (expand_write_failure_log E user_id
              (similar_users E (stores w1) q') w2) as [l3 Hl3].
  { by rewrite Hst1. }
  { rewrite Hst2, Hst1, Hcs. done. }
  { by rewrite Hset2, Hset1. }
  assert (Api.get_recommendations E user_id w
          = expand_and_rank E user_id (similar_users E (stores w1) q') w2)
    as Hfinal.
  { rewrite get_recommendations_split, (bind_ok_eq _ _ _ _ _ Hcheck). exact Hmiss. }
  unfold new_log. rewrite Hfinal, Hl3, Hl2, Hl1.
  rewrite <- !app_assoc, drop_app_length, !app_assoc. apply last_snoc.
Qed.

(** When the Redis client fails on the SET that a request attempts, the
    last line that the request logs is the warning of the failed cache
    write; the request still returns its "computed" response, whose
    recommendations are those it tried to write, and the cache is as it
    was. *)
Theorem cache_write_failure_is_logged (E : Collaborators)
  (user_id key text : string) (ttl : Z) (w : World) :
  redis_set_raises w = true ->
  RedisSet key text ttl ∈ new_trace (Api.get_recommendations E user_id) w ->
  last (new_log (Api.get_recommendations E user_id) w)
  = Some (WARNING, MsgCacheWriteFailed) /\
  (exists recs,
     (Api.get_recommendations E user_id w).1
     = Ok {| Api.resp_user_id := user_id; Api.recommendations := recs;
             Api.retrieval_source := "computed" |} /\
     text = json_dumps E recs) /\
  redis (Api.get_recommendations E user_id w).2 = redis w.
Proof.
  intros Hset Hin.
  split; [by eapply write_failure_last_line|].
  destruct (get_recommendations_served E user_id w) as [Hserved _].
  remember (Api.get_recommendations E user_id w).1 as r eqn:Hr.
  remember (new_trace (Api.get_recommendations E user_id) w) as t eqn:Ht.
  remember (redis (Api.get_recommendations E user_id w).2) as c eqn:Hc.
  destruct Hserved as [v Hl | Hl Hq | q' Hl Hq Hne Hs | q' Hl Hq Hne Hs Hcs
                      | q' cids Hl Hq Hne Hs Hcs Hcne];
    set_unfold in Hin; destruct_or?; try discriminate.
  injection Hin as -> -> ->.
  split; [by eexists|]. unfold cache_after_write. by rewrite Hset.
Qed.

Lemma cache_write_failure_is_logged_witness :
  last (new_log (Api.get_recommendations demo "A") redis_down_world)
  = Some (WARNING, MsgCacheWriteFailed) /\
  (exists recs,
     (Api.get_recommendations demo "A" redis_down_world).1
     = Ok {| Api.resp_user_id := "A"; Api.recommendations := recs;
             Api.retrieval_source := "computed" |} /\
     "[{}]" = json_dumps demo recs) /\
  redis (Api.get_recommendations demo "A" redis_down_world).2
  = redis redis_down_world.
Proof.
  apply (cache_write_failure_is_logged demo "A" "rec:A" "[{}]" 300
           redis_down_world).
  - reflexivity.
  - replace (new_trace (Api.get_recommendations demo "A") redis_down_world)
      with [RedisGet "rec:A"; MongoFindOne "A";
            MilvusSearch [1%float; 0%float] 5;
            Neo4jMatchCampaigns ["A"; "B"]; SqliteCreateTableIfNotExists;
            SqliteSelectRanked ["X"]; SqliteClose; RedisSet "rec:A" "[{}]" 300]
      by (vm_compute; reflexivity).
    do 7 (apply elem_of_cons; right). apply elem_of_cons. by left.
Defined.

(* ------------------------------------------------------------------ *)
(** ** Cache faults, and the 404 *)

(** C6, as amended.  When the Redis client fails, no error of the cache store
    reaches the caller: the only failure a request can then end with is the
    404 for an unknown user.  A read failure is logged, as the first line of
    the request, and the request goes on as after a plain cache miss, whose
    answer it gives: a "computed" response unless it is that 404.  A write
    failure is logged, as the last line of the request, whenever the write is
    attempted; it leaves the answer as it is with a working cache, and the
    cache as it was. *)
Theorem cache_faults_never_reach_the_caller (E : Collaborators)
  (user_id : string) (w : World) :
  redis_get_raises w = true \/ redis_set_raises w = true ->
  (forall e, (Api.get_recommendations E user_id w).1 = Raise e ->
             e = Api.not_found user_id) /\
  (redis_get_raises w = true ->
   (Api.get_recommendations E user_id w).1
   = (Api.get_recommendations E user_id (as_miss user_id w)).1 /\
   (forall resp, (Api.get_recommendations E user_id w).1 = Ok resp ->
                 Api.retrieval_source resp = "computed" /\
                 Api.resp_user_id resp = user_id) /\
   exists lines,
     new_log (Api.get_recommendations E user_id) w
     = (WARNING, MsgCacheReadFailed) :: (INFO, MsgCacheMiss user_id) :: lines) /\
  (redis_set_raises w = true ->
   (Api.get_recommendations E user_id w).1
   = (Api.get_recommendations E user_id
        (with_redis_faults (redis_get_raises w) false w)).1 /\
   redis (Api.get_recommendations E user_id w).2 = redis w /\
   forall key text ttl,
     RedisSet key text ttl ∈ new_trace (Api.get_recommendations E user_id) w ->
     last (new_log (Api.get_recommendations E user_id) w)
     = Some (WARNING, MsgCacheWriteFailed)).
Proof.
  intros _. split; [|split].
  - intros e. rewrite get_recommendations_outcome.
    destruct (cache_lookup E user_id w); [done|]. intros He.
    destruct (miss_outcome_cases _ _ _ _ He) as [[= ->]|(resp & [=] & _)]. done.
  - intros Hget. split; [|split].
    + rewrite !get_recommendations_outcome.
      by rewrite (cache_lookup_when_get_raises _ _ _ Hget), cache_lookup_as_miss.
    + intros resp. rewrite get_recommendations_outcome,
        (cache_lookup_when_get_raises _ _ _ Hget). intros He.
      destruct (miss_outcome_cases _ _ _ _ He) as [[=]|(resp' & [= <-] & ? & ?)].
      done.
    + unfold new_log. rewrite get_recommendations_split.
      unfold bind at 1. rewrite (cache_check_read_failure E user_id w Hget).
      destruct (on_miss_first_line E user_id
                  (with_log (log w ++ [(WARNING, MsgCacheReadFailed)])
                     (with_trace (trace w ++ [RedisGet ("rec:" +:+ user_id)]) w)))
        as [lines Hlines].
      exists lines. rewrite Hlines. simpl.
      by rewrite <- app_assoc, drop_app_length.
  - intros Hset. split; [|split].
    + by rewrite !get_recommendations_outcome.
    + destruct (get_recommendations_served E user_id w) as [Hserved _].
      destruct Hserved; try done. unfold cache_after_write. by rewrite Hset.
    + intros key text ttl. by apply write_failure_last_line.
Qed.

(** The request of a known user while Redis is down is answered from the
    stores; its first log line is the warning of the failed read and its last
    the warning of the failed write. *)
Lemma cache_faults_never_reach_the_caller_witness :
  (head (new_log (Api.get_recommendations demo "A") redis_down_world)
   = Some (WARNING, MsgCacheReadFailed) /\
   last (new_log (Api.get_recommendations demo "A") redis_down_world)
   = Some (WARNING, MsgCacheWriteFailed)) /\
  (forall e, (Api.get_recommendations demo "A" redis_down_world).1 = Raise e ->
             e = Api.not_found "A") /\
  (redis_get_raises redis_down_world = true ->
   (Api.get_recommendations demo "A" redis_down_world).1
   = (Api.get_recommendations demo "A" (as_miss "A" redis_down_world)).1 /\
   (forall resp, (Api.get_recommendations demo "A" redis_down_world).1 = Ok resp ->
                 Api.retrieval_source resp = "computed" /\
                 Api.resp_user_id resp = "A") /\
   exists lines,
     new_log (Api.get_recommendations demo "A") redis_down_world
     = (WARNING, MsgCacheReadFailed) :: (INFO, MsgCacheMiss "A") :: lines) /\
  (redis_set_raises redis_down_world = true ->
   (Api.get_recommendations demo "A" redis_down_world).1
   = (Api.get_recommendations demo "A"
        (with_redis_faults (redis_get_raises redis_down_world) false
           redis_down_world)).1 /\
   redis (Api.get_recommendations demo "A" redis_down_world).2
   = redis redis_down_world /\
   forall key text ttl,
     RedisSet key text ttl
       ∈ new_trace (Api.get_recommendations demo "A") redis_down_world ->
     last (new_log (Api.get_recommendations demo "A") redis_down_world)
     = Some (WARNING, MsgCacheWriteFailed)).
Proof.
  split; [split; vm_compute; reflexivity|].
  apply (cache_faults_never_reach_the_caller demo "A" redis_down_world).
  left. reflexivity.
Defined.


Lemma seed_record_None user_id s :
  seed_record user_id s = None <->
  Forall (fun d => doc_user_id d <> user_id) (mongo s).
Proof.
  unfold seed_record. split.
  - intros Hfind%find_None_Forall. eapply Forall_impl; [exact Hfind|].
    intros d Hd. simpl in Hd. by apply bool_decide_eq_false in Hd.
  - induction 1 as [|d l Hd _ IH]; [done|].
    simpl. by rewrite bool_decide_false.
Qed.

Lemma not_found_iff E user_id w :
  (Api.get_recommendations E user_id w).1 = Raise (Api.not_found user_id) <->
  cache_lookup E user_id w = None /\
  (seed_record user_id (stores w) = None \/
   exists d, seed_record user_id (stores w) = Some d /\
             encode E (doc_message d) = []).
Proof.
  rewrite get_recommendations_outcome. unfold miss_outcome, query_vector_of.
  destruct (cache_lookup E user_id w) as [value|].
  { split; [done|]. by intros [? _]. }
  destruct (seed_record user_id (stores w)) as [d|]; simpl.
  2:{ split; [|done]. intros _. split; [done|by left]. }
  destruct (encode E (doc_message d)) as [|x q] eqn:Henc.
  { split; [|done]. intros _. split; [done|]. right. by exists d. }
  split.
  - destruct (similar_users E (stores w) (x :: q)); [done|].
    by destruct (match_campaigns _ _).
  - intros [_ [?|(d' & [= <-] & Hd')]]; [done|]. congruence.
Qed.

Lemma not_found_trace E user_id w :
  (Api.get_recommendations E user_id w).1 = Raise (Api.not_found user_id) ->
  new_trace (Api.get_recommendations E user_id) w
  = [RedisGet ("rec:" +:+ user_id); MongoFindOne user_id].
Proof.
  destruct (get_recommendations_served E user_id w) as [Hserved _].
  destruct Hserved; done.
Qed.

(** C10, as amended.  In every state, a request ends in the 404 exactly when
    the cache gives nothing and either no document of the user is found or
    the message of the document found has an empty embedding: the two cases
    get the same exception, and in both the fetch is the last store call, so
    no similarity search takes place.  But the second case never arises for
    a document store that a run of the pipeline has written: the message of
    every stored document has a non-empty embedding, and a request ends in
    the 404 exactly when the cache gives nothing and the user has no
    document. *)
Theorem empty_embedding_is_not_found_but_never_stored (E : Collaborators)
  (w w2 : World) :
  valid_records E (file_records (data_file w)) <> [] ->
  will_connect Db.retries (milvus_connects w) = true ->
  mongo (stores w2) = mongo (stores (Flow.main_data_pipeline E w).2) ->
  (forall (w3 : World) (user_id : string),
     ((Api.get_recommendations E user_id w3).1 = Raise (Api.not_found user_id)
      <-> cache_lookup E user_id w3 = None /\
          (seed_record user_id (stores w3) = None \/
           exists d, seed_record user_id (stores w3) = Some d /\
                     encode E (doc_message d) = [])) /\
     ((Api.get_recommendations E user_id w3).1 = Raise (Api.not_found user_id)
      -> new_trace (Api.get_recommendations E user_id) w3
         = [RedisGet ("rec:" +:+ user_id); MongoFindOne user_id])) /\
  Forall (fun d => encode E (doc_message d) <> []) (mongo (stores w2)) /\
  (forall user_id,
     (Api.get_recommendations E user_id w2).1 = Raise (Api.not_found user_id)
     <-> cache_lookup E user_id w2 = None /\
         Forall (fun d => doc_user_id d <> user_id) (mongo (stores w2))).
Proof.
  intros Hv Hc Hmongo.
  destruct (main_loads E w Hv Hc) as (w' & ops & Hrun & Hst & _).
  destruct (runs_outcome _ _ _ _ _ Hrun) as (_ & Hw' & _).
  rewrite Hw', Hst in Hmongo. simpl in Hmongo.
  assert (Forall (fun d => encode E (doc_message d) <> []) (mongo (stores w2)))
    as Hstored.
  { rewrite Hmongo. change (map ?f ?l) with (f <$> l).
    apply Forall_fmap. eapply Forall_impl; [apply valid_records_embedded|].
    by intros d [_ Hne]. }
  split; [|split; [exact Hstored|]].
  - intros w3 user_id. split; [apply not_found_iff|apply not_found_trace].
  - intros user_id. rewrite not_found_iff, <- seed_record_None. split.
    + intros [Hmiss [Hnone|(d & Hd & Hempty)]]; [done|].
      apply find_Some_elem in Hd as [Hd _].
      by destruct (proj1 (Forall_forall _ _) Hstored d Hd).
    + intros [Hmiss Hnone]. split; [done|by left].
Qed.

Lemma empty_embedding_is_not_found_but_never_stored_witness :
  (forall (w3 : World) (user_id : string),
     ((Api.get_recommendations demo user_id w3).1
      = Raise (Api.not_found user_id)
      <-> cache_lookup demo user_id w3 = None /\
          (seed_record user_id (stores w3) = None \/
           exists d, seed_record user_id (stores w3) = Some d /\
                     encode demo (doc_message d) = [])) /\
     ((Api.get_recommendations demo user_id w3).1
      = Raise (Api.not_found user_id)
      -> new_trace (Api.get_recommendations demo user_id) w3
         = [RedisGet ("rec:" +:+ user_id); MongoFindOne user_id])) /\
  Forall (fun d => encode demo (doc_message d) <> [])
    (mongo (stores restarted_world)) /\
  (forall user_id,
     (Api.get_recommendations demo user_id restarted_world).1
     = Raise (Api.not_found user_id)
     <-> cache_lookup demo user_id restarted_world = None /\
         Forall (fun d => doc_user_id d <> user_id)
           (mongo (stores restarted_world))).
Proof.
  apply (empty_embedding_is_not_found_but_never_stored demo fresh_world
           restarted_world).
  - vm_compute. discriminate.
  - reflexivity.
  - reflexivity.
Defined.

(** C10 as stated fails on the ingested deployment: it has documents, the
    message of each has a non-empty embedding, and the request of the user
    of each document is not rejected, before and after a restart of the
    API. *)
Lemma no_ingested_user_is_rejected :
  mongo (stores ingested_world) <> [] /\
  Forall (fun d =>
            encode demo (doc_message d) <> [] /\
            (Api.get_recommendations demo (doc_user_id d) ingested_world).1
            <> Raise (Api.not_found (doc_user_id d)) /\
            (Api.get_recommendations demo (doc_user_id d) restarted_world).1
            <> Raise (Api.not_found (doc_user_id d)))
    (mongo (stores ingested_world)).
Proof.
  split; [vm_compute; discriminate|].
  replace (mongo (stores ingested_world))
    with [{| doc_message_id := "m1"; doc_user_id := "A"; doc_campaign_id := "X";
             doc_timestamp := "2024-01-01T10:00:00"; doc_intent := "purchase";
             doc_message := "I want to buy shoes" |};
          {| doc_message_id := "m2"; doc_user_id := "A"; doc_campaign_id := "X";
             doc_timestamp := "2024-01-02T11:00:00"; doc_intent := "support";
             doc_message := "my order is late" |};
          {| doc_message_id := "m3"; doc_user_id := "B"; doc_campaign_id := "X";
             doc_timestamp := "2024-01-03T12:00:00"; doc_intent := "purchase";
             doc_message := "any discount on shoes" |}]
    by (vm_compute; reflexivity).
  repeat apply Forall_cons_2; [..|apply Forall_nil_2];
    cbn [doc_user_id doc_message]; (split; [|split]); vm_compute; discriminate.
Qed.

(** The second case of the 404 in a document store that no run of the
    pipeline has written: the only record of user D has the empty message,
    and the request is rejected as for a user without a record. *)
Example silent_user_is_rejected_like_an_unknown_user :
  (exists d, seed_record "D" (stores silent_user_world) = Some d /\
             encode demo (doc_message d) = []) /\
  (Api.get_recommendations demo "D" silent_user_world).1
  = Raise (Api.not_found "D") /\
  (Api.get_recommendations demo "D" silent_user_world).1
  = (Api.get_recommendations demo "D"
       (with_stores (set_mongo [] (stores silent_user_world))
          silent_user_world)).1.
Proof.
  split; [eexists; split; reflexivity|]. split; vm_compute; reflexivity.
Qed.
